(** * journal_recommender: fetch, index and rank arXiv papers

    A shallow embedding of [cs_journal_recommender.py] (the line-mode
    surface) and [cs_journal_ui.py] (the form-based surface), and the
    properties their specification states about them.

    Layout:
    - [Py]: the Python built-ins the two scripts use (exceptions, slices,
      [str.strip], [str.lower], [str.replace], [int]);
    - [Float64] and [ArgSort]: the operations on scores and numpy's
      [argsort], both external to the repository, each with the
      assumptions ([Float64Order], [ArgSortSpec]) the theorems may make;
    - [Pd]: the slice of pandas the scripts use ([DataFrame], [iloc]);
    - [Sk]: scikit-learn's [TfidfVectorizer] and [linear_kernel];
    - [Http]: a response of the remote API, parsed;
    - [Recommender] and [UI]: the two source files;
    - [Store]: [build_tfidf], [recommend_papers] and the loop once
      more, on references to objects in a store;
    - three kinds of scores (rationals, doubles, reals), the predicates
      the properties are stated with, and small corpora;
    - lemmas and theorems. *)

From Stdlib Require Import List ZArith Lia Bool Arith String Ascii.
From Stdlib Require Import Permutation Sorted QArith Qround.
From Stdlib Require Uint63 Floats Reals Lra.
Import ListNotations.
Open Scope string_scope.
Open Scope Z_scope.

Set Implicit Arguments.

(* ================================================================== *)
(** * Python built-ins *)
(* ================================================================== *)

Module Py.

(** The exceptions that can leave the modelled code. *)
Inductive Exn : Type :=
| KeyError (key : string)
| ValueError (msg : string)
| IndexError
| AttributeError
| TypeError
| EOFError
| ParseError
| RequestException.

(** A computation that returns or raises. *)
Definition M (A : Type) : Type := (Exn + A)%type.

Definition ret {A} (a : A) : M A := inr a.
Definition raise {A} (e : Exn) : M A := inl e.
Definition bind {A B} (m : M A) (k : A -> M B) : M B :=
  match m with
  | inl e => inl e
  | inr a => k a
  end.

(** [[f(x) for x in l]], stopping at the first exception. *)
Fixpoint mapM {A B} (f : A -> M B) (l : list A) : M (list B) :=
  match l with
  | [] => ret []
  | x :: l' =>
      bind (f x) (fun y => bind (mapM f l') (fun ys => ret (y :: ys)))
  end.

(** ** Slices

    Python clips a slice bound into [0, len]: a negative bound counts from
    the end ([len + k], floored at 0), a bound past the end is [len]. *)
Definition clip (len : nat) (k : Z) : nat :=
  Z.to_nat (if k <? 0 then Z.max 0 (Z.of_nat len + k)
            else Z.min k (Z.of_nat len)).

(** [l[:k]] *)
Definition slice_to {A} (k : Z) (l : list A) : list A :=
  firstn (clip (List.length l) k) l.

(** [l[k:]] *)
Definition slice_from {A} (k : Z) (l : list A) : list A :=
  skipn (clip (List.length l) k) l.

(** [l[::-1]] *)
Definition reversed {A} (l : list A) : list A := rev l.

(** ** Strings (ASCII text) *)

Definition chars (s : string) : list ascii := list_ascii_of_string s.
Definition str (l : list ascii) : string := string_of_list_ascii l.

Definition code (c : ascii) : nat := nat_of_ascii c.

(** [c.isspace()] on ASCII: TAB, LF, VT, FF, CR, FS, GS, RS, US, space. *)
Definition isspace (c : ascii) : bool :=
  let n := code c in
  ((9 <=? n) && (n <=? 13) || (28 <=? n) && (n <=? 32))%nat.

Definition isdigit (c : ascii) : bool :=
  let n := code c in ((48 <=? n) && (n <=? 57))%nat.

Definition isupper (c : ascii) : bool :=
  let n := code c in ((65 <=? n) && (n <=? 90))%nat.

Definition islower (c : ascii) : bool :=
  let n := code c in ((97 <=? n) && (n <=? 122))%nat.

Fixpoint lstrip_chars (l : list ascii) : list ascii :=
  match l with
  | c :: l' => if isspace c then lstrip_chars l' else l
  | [] => []
  end.

(** [s.strip()] *)
Definition strip (s : string) : string :=
  str (rev (lstrip_chars (rev (lstrip_chars (chars s))))).

Definition lower_char (c : ascii) : ascii :=
  if isupper c then ascii_of_nat (code c + 32) else c.

(** [s.lower()] *)
Definition lower (s : string) : string := str (map lower_char (chars s)).

(** [s.replace("\n", " ")] *)
Definition replace_newlines (s : string) : string :=
  str (map (fun c => if Ascii.eqb c "010"%char then " "%char else c) (chars s)).

(** [s[:n]] for [n >= 0] *)
Definition prefix (n : nat) (s : string) : string := str (firstn n (chars s)).

(** [sep.join(l)] *)
Fixpoint join (sep : string) (l : list string) : string :=
  match l with
  | [] => ""
  | [s] => s
  | s :: l' => s ++ sep ++ join sep l'
  end.

(** ** [int(s)]

    Surrounding whitespace is dropped, one sign is allowed, and the rest
    is decimal digits in which single underscores may separate digits.
    Anything else raises [ValueError], and so does a numeral of more
    than 4300 digits (CPython's [sys.int_max_str_digits], which the
    scripts leave at its default).  The callers only ask whether
    [int] raised, so the outcome is an [option]. *)
Definition digit_val (c : ascii) : Z := Z.of_nat (code c - 48).

Fixpoint int_digits (acc : Z) (after_digit : bool) (l : list ascii)
  : option Z :=
  match l with
  | [] => if after_digit then Some acc else None
  | c :: l' =>
      if isdigit c then int_digits (10 * acc + digit_val c) true l'
      else if Ascii.eqb c "_"%char
           then (if after_digit then int_digits acc false l' else None)
           else None
  end.

Definition int_max_str_digits : nat := 4300.

(** The digits after the sign. *)
Definition int_numeral (l : list ascii) : option Z :=
  if (List.length (filter isdigit l) <=? int_max_str_digits)%nat
  then int_digits 0 false l
  else None.

Definition int (s : string) : option Z :=
  match chars (strip s) with
  | "-"%char :: l => option_map Z.opp (int_numeral l)
  | "+"%char :: l => int_numeral l
  | l => int_numeral l
  end.

(** Decimal numerals, as [str(k)] writes them. *)
Definition digit_char (d : nat) : ascii := ascii_of_nat (48 + d).

Fixpoint nat_digits (fuel n : nat) (acc : list ascii) : list ascii :=
  match fuel with
  | O => acc
  | S fuel' =>
      let acc' := digit_char (n mod 10) :: acc in
      if (n <? 10)%nat then acc' else nat_digits fuel' (n / 10) acc'
  end.

Definition str_of_nat (n : nat) : string := str (nat_digits (S n) n []).

Definition str_of_Z (k : Z) : string :=
  if k <? 0 then String "-"%char (str_of_nat (Z.to_nat (- k)))
  else str_of_nat (Z.to_nat k).

End Py.


(* ================================================================== *)
(** * Numbers and sorting: what numpy provides *)
(* ================================================================== *)

(** The scores are IEEE doubles computed inside scikit-learn.  The
    embedding keeps them abstract: [Float64] lists the operations the
    library applies to them, and assumes no law of arithmetic. *)
Class Float64 (F : Type) : Type := {
  f0 : F;                     (* 0.0 *)
  of_nat : nat -> F;          (* a count, as a double *)
  fadd : F -> F -> F;
  fmul : F -> F -> F;
  fdiv : F -> F -> F;
  fsqrt : F -> F;
  flog : F -> F;
  fopp : F -> F;
  fleb : F -> F -> bool       (* <= *)
}.

(** What a comparison sort relies on: [<=] is a total preorder on the
    values that occur (there is no NaN among them), and negation
    reverses it. *)
Class Float64Order {F : Type} (FL : Float64 F) : Prop := {
  fleb_total : forall a b : F, fleb a b = true \/ fleb b a = true;
  fleb_trans : forall a b c : F,
      fleb a b = true -> fleb b c = true -> fleb a c = true;
  fopp_leb : forall a b : F, fleb (fopp a) (fopp b) = fleb b a
}.

(** [a == b] on scores. *)
Definition feqb {F} `{Float64 F} (a b : F) : bool := fleb a b && fleb b a.

Definition total {K} (leb : K -> K -> bool) : Prop :=
  forall a b, leb a b = true \/ leb b a = true.

Definition transitive {K} (leb : K -> K -> bool) : Prop :=
  forall a b c, leb a b = true -> leb b c = true -> leb a c = true.

(** [v[i] <= v[j]], for positions of the array [v]. *)
Definition key_le {K} (leb : K -> K -> bool) (v : list K) (i j : nat) : Prop :=
  match nth_error v i, nth_error v j with
  | Some a, Some b => leb a b = true
  | _, _ => False
  end.

(** Positions [i] before [j] in a stable ascending order of [v]. *)
Definition stable_le {K} (leb : K -> K -> bool) (v : list K) (i j : nat) : Prop :=
  key_le leb v i j /\ (key_le leb v j i -> (i < j)%nat).

(** [numpy.argsort]: the positions of [v], in ascending order of their
    values. *)
Class ArgSort : Type := {
  argsort : forall K : Type, (K -> K -> bool) -> list K -> list nat
}.

(** What numpy's documentation promises of the default
    [kind='quicksort'], which both scripts use: a permutation of the
    positions, by ascending value. *)
Class ArgSortSpec (A : ArgSort) : Prop := {
  argsort_perm : forall K (leb : K -> K -> bool) (v : list K),
      Permutation (argsort leb v) (seq 0 (List.length v));
  argsort_sorted : forall K (leb : K -> K -> bool) (v : list K),
      total leb -> transitive leb ->
      StronglySorted (key_le leb v) (argsort leb v)
}.

(** A sort is stable when equal values keep their order of appearance. *)
Definition Stable (A : ArgSort) : Prop :=
  forall K (leb : K -> K -> bool) (v : list K),
    total leb -> transitive leb ->
    StronglySorted (stable_le leb v) (argsort leb v).

(** One sort that meets the contract, and a stable one: an insertion
    sort, in which each position in turn moves left past the positions
    whose value is strictly greater.  It is the sort the sample runs
    below are computed with.  It is not numpy's: the default
    [kind='quicksort'] promises no order among equal values, and the
    kernels numpy picks for an array of doubles can order them
    otherwise.  What is proved of the scripts is proved of every
    [ArgSort] with [ArgSortSpec]; the order of ties is stated under
    [Stable] only. *)
Module Insertion.

Definition lt_at {K} (leb : K -> K -> bool) (v : list K) (i j : nat) : bool :=
  match nth_error v i, nth_error v j with
  | Some a, Some b => negb (leb b a)
  | _, _ => false
  end.

Fixpoint ins {K} (leb : K -> K -> bool) (v : list K) (i : nat) (l : list nat)
  : list nat :=
  match l with
  | [] => [i]
  | j :: l' => if lt_at leb v i j then i :: j :: l' else j :: ins leb v i l'
  end.

Definition sort {K} (leb : K -> K -> bool) (v : list K) : list nat :=
  fold_left (fun acc i => ins leb v i acc) (seq 0 (List.length v)) [].

End Insertion.

Definition insertion_argsort : ArgSort := {| argsort := @Insertion.sort |}.

(* ================================================================== *)
(** * pandas: the table of papers *)
(* ================================================================== *)

Module Pd.
Import Py.

(** One row: the dictionary [fetch_arxiv_papers] appends per entry. *)
Record Paper : Type := {
  title : string;
  abstract : string;
  text : string;
  authors : string;
  year : string;
  pdf_link : option string
}.

Record DataFrame : Type := {
  columns : list string;
  rows : list Paper
}.

Definition paper_keys : list string :=
  ["title"; "abstract"; "text"; "authors"; "year"; "pdf_link"].

(** [pd.DataFrame(entries)]: the columns are the keys of the
    dictionaries, so an empty list gives a frame with no column at all,
    the same value as [pd.DataFrame()]. *)
Definition DataFrame_of (entries : list Paper) : DataFrame :=
  {| columns := match entries with [] => [] | _ => paper_keys end;
     rows := entries |}.

(** [df.empty]: some axis has length 0. *)
Definition empty (df : DataFrame) : bool :=
  match columns df, rows df with
  | [], _ | _, [] => true
  | _, _ => false
  end.

(** [len(df)] *)
Definition len (df : DataFrame) : nat := List.length (rows df).

(** [df['text']]: [KeyError] when the frame has no such column. *)
Definition getitem_text (df : DataFrame) : M (list string) :=
  if existsb (String.eqb "text") (columns df)
  then ret (map text (rows df))
  else raise (KeyError "text").

(** [df.iloc[idx].copy().reset_index(drop=True)]: the rows at the
    positions [idx], in that order, renumbered from 0; a position past the
    end raises [IndexError]. *)
Definition iloc (df : DataFrame) (idx : list nat) : M DataFrame :=
  bind (mapM (fun i => match nth_error (rows df) i with
                       | Some r => ret r
                       | None => raise IndexError
                       end) idx)
       (fun rs => ret {| columns := columns df; rows := rs |}).

End Pd.

(* ================================================================== *)
(** * scikit-learn: [TfidfVectorizer] and [linear_kernel] *)
(* ================================================================== *)

Module Sk.
Import Py.

(** ** The analyzer

    Lower-case the text, keep the matches of the token pattern
    [\b\w\w+\b] (the maximal runs of two or more word characters), drop
    the stop words.  The text is ASCII: a word character is a letter, a
    digit or the underscore. *)

Definition isword (c : ascii) : bool :=
  isdigit c || isupper c || islower c || Ascii.eqb c "_"%char.

Definition flush (cur : list ascii) : list string :=
  if (2 <=? List.length cur)%nat then [str (rev cur)] else [].

Fixpoint tokens_from (cur l : list ascii) : list string :=
  match l with
  | [] => flush cur
  | c :: l' =>
      if isword c then tokens_from (c :: cur) l'
      else (flush cur ++ tokens_from [] l')%list
  end.

Definition tokenize (doc : string) : list string := tokens_from [] (chars doc).

Definition mem (t : string) (l : list string) : bool :=
  existsb (String.eqb t) l.

Definition analyze (stop : list string) (doc : string) : list string :=
  filter (fun t => negb (mem t stop)) (tokenize (lower doc)).

(** ** The vocabulary: the distinct terms, sorted *)

Fixpoint distinct (seen l : list string) : list string :=
  match l with
  | [] => []
  | t :: l' => if mem t seen then distinct seen l'
               else t :: distinct (t :: seen) l'
  end.

Fixpoint insert_term (t : string) (l : list string) : list string :=
  match l with
  | [] => [t]
  | u :: l' => if String.leb t u then t :: l else u :: insert_term t l'
  end.

Definition sorted_terms (l : list string) : list string :=
  fold_right insert_term [] l.

Definition count (t : string) (tokens : list string) : nat :=
  List.length (filter (String.eqb t) tokens).

(** One row of the count matrix as [transform] builds it against a
    fitted vocabulary: (column, count) for the vocabulary terms that
    occur, by ascending column ([_count_vocab] ends with
    [X.sort_indices()]).  Tokens outside the vocabulary are ignored. *)
Definition count_row (vocab tokens : list string) : list (nat * nat) :=
  filter (fun jc => (0 <? snd jc)%nat)
         (combine (seq 0 (List.length vocab))
                  (map (fun t => count t tokens) vocab)).

(** The column of a term. *)
Fixpoint index_of (t : string) (vocab : list string) : option nat :=
  match vocab with
  | [] => None
  | u :: vocab' =>
      if String.eqb t u then Some 0%nat else option_map S (index_of t vocab')
  end.

(** One row of the count matrix as [fit_transform] leaves it.  While
    fitting, [_count_vocab] numbers the terms in the order the corpus
    first shows them, [seen], and sorts each row by those numbers;
    [_sort_features] then renumbers the columns by sorted term without
    moving the entries, and [_limit_features] takes the dropped columns
    out ([X[:, kept_indices]]), again without moving what is kept.  So a
    row stores its terms in the order of their first appearance in the
    corpus, each under its final column. *)
Definition stored_row (seen vocab tokens : list string) : list (nat * nat) :=
  flat_map (fun t => match index_of t vocab with
                     | Some j => if (0 <? count t tokens)%nat
                                 then [(j, count t tokens)] else []
                     | None => []
                     end) seen.

(** Document frequency of a term. *)
Definition doc_freq (t : string) (docs : list (list string)) : nat :=
  List.length (filter (fun d => (0 <? count t d)%nat) docs).

Section Vectorizer.
Context {F : Type} {FL : Float64 F} {A : ArgSort}.

(** A sparse row: (column, weight), in the order the entries are
    stored. *)
Definition csr_row : Type := list (nat * F).
Definition csr : Type := list csr_row.

Record TfidfVectorizer : Type := {
  max_features : option nat;
  stop_words : list string;
  vocabulary_ : list string;   (* the term of each column *)
  idf_ : list F
}.

(** [_limit_features]: when the vocabulary is larger than
    [max_features], keep the [limit] terms of highest total count,
    [(-tfs).argsort()[:limit]], in their column order. *)
Definition limit_features (limit : option nat) (vocab : list string)
           (docs : list (list string)) : list string :=
  match limit with
  | None => vocab
  | Some n =>
      if (List.length vocab <=? n)%nat then vocab
      else
        let tfs := map (fun t => Z.of_nat (count t (List.concat docs))) vocab in
        let mask_inds := slice_to (Z.of_nat n) (argsort Z.leb (map Z.opp tfs)) in
        map snd (filter (fun jt => existsb (Nat.eqb (fst jt)) mask_inds)
                        (combine (seq 0 (List.length vocab)) vocab))
  end.

(** Smoothed inverse document frequency, [log((1 + n) / (1 + df)) + 1]. *)
Definition idf (n df : nat) : F :=
  fadd (flog (fdiv (of_nat (1 + n)) (of_nat (1 + df)))) (of_nat 1).

(** L2 normalisation of a row, the squares summed in the order the
    entries are stored; a row of norm zero is left as it is. *)
Definition normalize (r : csr_row) : csr_row :=
  let sum := fold_left (fun s jx => fadd s (fmul (snd jx) (snd jx))) r f0 in
  if feqb sum f0 then r
  else map (fun jx => (fst jx, fdiv (snd jx) (fsqrt sum))) r.

Definition tfidf_row (idfs : list F) (counts : list (nat * nat)) : csr_row :=
  normalize (map (fun jc => (fst jc, fmul (of_nat (snd jc)) (nth (fst jc) idfs f0)))
                 counts).

(** [vect.transform(docs)] *)
Definition transform (vect : TfidfVectorizer) (docs : list string) : csr :=
  map (fun d => tfidf_row (idf_ vect)
                          (count_row (vocabulary_ vect) (analyze (stop_words vect) d)))
      docs.

(** [vect.fit_transform(docs)]: the fitted vectorizer and the matrix.
    The weights are those [transform] would give the same texts, but
    each row keeps the order [stored_row] describes, and is normalised
    in that order (scikit-learn 1.4 and later, where the idf weights
    are multiplied into the stored entries in place). *)
Definition fit_transform (vect : TfidfVectorizer) (docs : list string)
  : M (TfidfVectorizer * csr) :=
  let toks := map (analyze (stop_words vect)) docs in
  let seen := distinct [] (List.concat toks) in
  match sorted_terms seen with
  | [] => raise (ValueError
            "empty vocabulary; perhaps the documents only contain stop words")
  | vocab0 =>
      let vocab := limit_features (max_features vect) vocab0 toks in
      let fitted :=
        {| max_features := max_features vect;
           stop_words := stop_words vect;
           vocabulary_ := vocab;
           idf_ := map (fun t => idf (List.length docs) (doc_freq t toks)) vocab |} in
      ret (fitted,
           map (fun d => tfidf_row (idf_ fitted) (stored_row seen vocab d)) toks)
  end.

Definition lookup (j : nat) (r : csr_row) : option F :=
  option_map snd (find (fun kx => Nat.eqb (fst kx) j) r).

(** One cell of a sparse product: the sum of the products over the
    columns both rows store, accumulated from 0.0 in the order of the
    entries of the left row. *)
Definition dot (q r : csr_row) : F :=
  fold_left (fun acc jx => match lookup (fst jx) r with
                           | Some y => fadd acc (fmul (snd jx) y)
                           | None => acc
                           end) q f0.

(** [linear_kernel(Q, X)]: the dense matrix [Q @ X.T]. *)
Definition linear_kernel (Q X : csr) : list (list F) :=
  map (fun q => map (dot q) X) Q.

(** [a.flatten()] *)
Definition flatten (a : list (list F)) : list F := List.concat a.

End Vectorizer.

Arguments TfidfVectorizer F : clear implicits.

End Sk.

(* ================================================================== *)
(** * The remote API: [requests] and [xml.etree.ElementTree] *)
(* ================================================================== *)

Module Http.
Import Py.

(** The attributes of an element, a dictionary. *)
Definition attribs : Type := list (string * string).

(** [d.get(k)] *)
Fixpoint get (k : string) (d : attribs) : option string :=
  match d with
  | [] => None
  | (k', v) :: d' => if String.eqb k k' then Some v else get k d'
  end.

(** An [atom:entry] element.  A child that is missing is [None]; the
    text of a child that is there but empty is [None] too. *)
Record Entry : Type := {
  e_title : option string;               (* atom:title, its text *)
  e_summary : option string;             (* atom:summary, its text *)
  e_links : list attribs;                (* atom:link, in document order *)
  e_authors : list (option (option string)); (* atom:author / atom:name *)
  e_published : option (option string)   (* atom:published *)
}.

(** The response: its status, and what [ET.fromstring(r.text)] followed
    by [findall("atom:entry")] gives ([ParseError] on a body that is not
    XML). *)
Record Response : Type := {
  status_code : Z;
  entries : M (list Entry)
}.

(** [requests.get(url, params=..., timeout=30)]: the remote world. *)
Definition Get : Type := string -> list (string * string) -> M Response.

End Http.

(* ================================================================== *)
(** * cs_journal_recommender.py: the line-mode surface *)
(* ================================================================== *)

Module Recommender.
Import Py Pd Sk Http.

Definition ARXIV_URL : string := "http://export.arxiv.org/api/query".
Definition MAX_RESULTS : Z := 100.

Record Subject : Type := { category : string; keywords : string }.

Definition CS_SUBJECTS : list (string * Subject) :=
  [ ("DSA", {| category := "cs";
               keywords := "NP-complete OR graph algorithms OR dynamic programming" |});
    ("Database Systems", {| category := "cs.DB";
               keywords := "database OR SQL OR NoSQL" |});
    ("Operating Systems", {| category := "cs.OS";
               keywords := "operating systems OR scheduling OR deadlock" |});
    ("Computer Networks", {| category := "cs.NI";
               keywords := "computer networks OR congestion OR routing" |});
    ("Computer Architecture", {| category := "cs.AR";
               keywords := "computer architecture OR microprocessor OR cache" |});
    ("Machine Learning", {| category := "cs.LG";
               keywords := "machine learning OR neural networks OR deep learning" |});
    ("Software Engineering", {| category := "cs.SE";
               keywords := "software engineering OR software design OR agile" |});
    ("Cybersecurity", {| category := "cs.CR";
               keywords := "cybersecurity OR cryptography OR malware" |});
    ("Programming Languages", {| category := "cs.PL";
               keywords := "programming languages OR compiler OR interpreter" |});
    ("Compiler Design", {| category := "cs.PL";
               keywords := "compiler design OR parsing OR code generation" |});
    ("Web Technologies", {| category := "cs.SE";
               keywords := "web development OR web technologies OR frontend" |});
    ("Computer Graphics", {| category := "cs.GR";
               keywords := "computer graphics OR rendering OR 3D" |});
    ("Cloud Computing", {| category := "cs.DC";
               keywords := "cloud computing OR distributed systems OR virtualization" |});
    ("Embedded Systems", {| category := "cs.ET";
               keywords := "embedded systems OR IoT OR real-time" |}) ].

Fixpoint subject_of (name : string) (table : list (string * Subject))
  : option Subject :=
  match table with
  | [] => None
  | (n, s) :: table' => if String.eqb name n then Some s else subject_of name table'
  end.

(** [e.find(tag).text.strip().replace("\n", " ")] *)
Definition clean_text (t : option string) : M string :=
  match t with
  | None => raise AttributeError
  | Some s => ret (replace_newlines (strip s))
  end.

(** The loop over the links of an entry:
    [[
      pdf_link = None
      for link in e.findall("atom:link", ns):
          if link.attrib.get("title") == "pdf":
              pdf_link = link.attrib["href"]
    ]] *)
Fixpoint pdf_link_loop (pdf_link : option string) (links : list attribs)
  : M (option string) :=
  match links with
  | [] => ret pdf_link
  | link :: links' =>
      match get "title" link with
      | Some t =>
          if String.eqb t "pdf" then
            match get "href" link with
            | Some href => pdf_link_loop (Some href) links'
            | None => raise (KeyError "href")
            end
          else pdf_link_loop pdf_link links'
      | None => pdf_link_loop pdf_link links'
      end
  end.

(** [", ".join([a.find("atom:name", ns).text for a in ...])] *)
Definition author_names (l : list (option (option string))) : M string :=
  bind (mapM (fun a => match a with
                       | None => raise AttributeError
                       | Some n => ret n
                       end) l)
       (fun names =>
          bind (mapM (fun n => match n with
                               | None => raise TypeError
                               | Some s => ret s
                               end) names)
               (fun names' => ret (join ", " names'))).

(** [e.find("atom:published", ns).text[:10]] *)
Definition published_date (p : option (option string)) : M string :=
  match p with
  | None => raise AttributeError
  | Some None => raise TypeError
  | Some (Some s) => ret (prefix 10 s)
  end.

(** The body of the loop over the entries. *)
Definition parse_entry (e : Entry) : M Paper :=
  bind (clean_text (e_title e)) (fun title =>
  bind (clean_text (e_summary e)) (fun abstract =>
  bind (pdf_link_loop None (e_links e)) (fun pdf_link =>
  bind (author_names (e_authors e)) (fun authors =>
  bind (published_date (e_published e)) (fun published =>
  ret {| Pd.title := title;
         Pd.abstract := abstract;
         Pd.text := title ++ ". " ++ abstract;
         Pd.authors := authors;
         Pd.year := prefix 4 published;
         Pd.pdf_link := pdf_link |}))))).

Definition search_params (max_results : Z) (category keywords : string)
  : list (string * string) :=
  [ ("search_query", "cat:" ++ category ++ "+AND+all:(" ++ keywords ++ ")");
    ("start", str_of_Z 0);
    ("max_results", str_of_Z max_results) ].

(** What is returned.  The line-mode function also prints as it goes
    ("Error fetching: <status>" on a status other than 200, "No papers
    found. Try another topic." or "Fetched <n> papers." otherwise);
    the messages are not part of the returned table. *)
Definition fetch_arxiv_papers (http_get : Get) (topic category keywords : string)
  : M DataFrame :=
  bind (http_get ARXIV_URL (search_params MAX_RESULTS category keywords)) (fun r =>
  if negb (status_code r =? 200) then ret (DataFrame_of [])
  else
    bind (entries r) (fun es =>
    bind (mapM parse_entry es) (fun all_entries =>
    ret (DataFrame_of all_entries)))).

Section Ranking.
Context {F : Type} {FL : Float64 F} {A : ArgSort}.

(** [stop_words='english']: scikit-learn's built-in list. *)
Variable english : list string.

Definition new_vectorizer : TfidfVectorizer F :=
  {| max_features := Some (100 * 100)%nat;   (* 10000 *)
     stop_words := english;
     vocabulary_ := [];
     idf_ := [] |}.

Definition build_tfidf (df : DataFrame) : M (TfidfVectorizer F * csr) :=
  bind (getitem_text df) (fun docs => fit_transform new_vectorizer docs).

(** [sims = linear_kernel(vect.transform([query]), X).flatten()] *)
Definition similarities (query : string) (vect : TfidfVectorizer F) (X : csr)
  : list F :=
  flatten (linear_kernel (transform vect [query]) X).

(** [idx = np.argsort(-sims)[:top_k]] *)
Definition top_indices (sims : list F) (top_k : Z) : list nat :=
  slice_to top_k (argsort fleb (map fopp sims)).

Definition recommend_papers (query : string) (df : DataFrame)
           (vect : TfidfVectorizer F) (X : csr) (top_k : Z) : M DataFrame :=
  let sims := similarities query vect X in
  let idx := top_indices sims top_k in
  iloc df idx.

(** [[
      try:
          top_k = int(topk_s) if topk_s else 10
      except:
          top_k = 10
    ]] *)
Definition read_top_k (topk_s : string) : Z :=
  if String.eqb topk_s "" then 10
  else match int topk_s with
       | Some k => k
       | None => 10
       end.

(** One round of the loop: what was asked and what came back. *)
Record Round : Type := {
  query : string;
  top_k : Z;
  recs : DataFrame
}.

(** The [while True] loop of [main], run on the lines still to be read
    from standard input.  It ends on "exit" or "quit", on the end of the
    input ([EOFError]) or on an exception of [recommend_papers]; the
    printed report of each round is its [Round]. *)
Fixpoint loop (df : DataFrame) (vect : TfidfVectorizer F) (X : csr)
         (stdin : list string) : list Round * M unit :=
  match stdin with
  | [] => ([], raise EOFError)
  | line :: stdin1 =>
      let query := strip line in
      if mem (lower query) ["exit"; "quit"] then ([], ret tt)
      else
        match stdin1 with
        | [] => ([], raise EOFError)
        | line2 :: stdin2 =>
            let top_k := read_top_k (strip line2) in
            match recommend_papers query df vect X top_k with
            | inl e => ([], inl e)
            | inr recs =>
                let (rounds, ending) := loop df vect X stdin2 in
                ({| query := query; top_k := top_k; recs := recs |} :: rounds,
                 ending)
            end
        end
  end.

Definition main (http_get : Get) (stdin : list string) : list Round * M unit :=
  match stdin with
  | [] => ([], raise EOFError)
  | line :: stdin1 =>
      let subject := strip line in
      let s := match subject_of subject CS_SUBJECTS with
               | None => {| category := "cs"; keywords := "computer science" |}
               | Some s => s
               end in
      match fetch_arxiv_papers http_get subject (category s) (keywords s) with
      | inl e => ([], inl e)
      | inr df =>
          if Pd.empty df then ([], ret tt)
          else match build_tfidf df with
               | inl e => ([], inl e)
               | inr (vect, X) => loop df vect X stdin1
               end
      end
  end.

End Ranking.

End Recommender.

(* ================================================================== *)
(** * cs_journal_ui.py: the form-based surface *)
(* ================================================================== *)

Module UI.
Import Py Pd Sk Http.

Definition ARXIV_URL : string := "http://export.arxiv.org/api/query".
Definition MAX_RESULTS : Z := 50.

(** The [st.cache_data] decorators of [fetch_arxiv_papers] and
    [build_tfidf] memoise their results; a call is modelled by what it
    computes. *)

(** The same table as in the line-mode file. *)
Definition CS_SUBJECTS : list (string * Recommender.Subject) :=
  Recommender.CS_SUBJECTS.

(** The body of the loop over the entries is the same text as in the
    line-mode file. *)
Definition parse_entry : Entry -> M Paper := Recommender.parse_entry.

Definition fetch_arxiv_papers (http_get : Get) (topic category keywords : string)
  : M DataFrame :=
  bind (http_get ARXIV_URL
                 (Recommender.search_params MAX_RESULTS category keywords)) (fun r =>
  if negb (status_code r =? 200) then ret (DataFrame_of [])
  else
    bind (entries r) (fun es =>
    bind (mapM parse_entry es) (fun all_entries =>
    ret (DataFrame_of all_entries)))).

Section Ranking.
Context {F : Type} {FL : Float64 F} {A : ArgSort}.
Variable english : list string.

Definition new_vectorizer : TfidfVectorizer F :=
  {| max_features := Some (100 * 100)%nat;   (* 10000 *)
     stop_words := english;
     vocabulary_ := [];
     idf_ := [] |}.

Definition build_tfidf (df : DataFrame) : M (TfidfVectorizer F * csr) :=
  bind (getitem_text df) (fun docs => fit_transform new_vectorizer docs).

Definition similarities (query : string) (vect : TfidfVectorizer F) (X : csr)
  : list F :=
  flatten (linear_kernel (transform vect [query]) X).

(** [idx = sims.argsort()[-top_k:][::-1]] *)
Definition top_indices (sims : list F) (top_k : Z) : list nat :=
  reversed (slice_from (- top_k) (argsort fleb sims)).

Definition recommend_papers (query : string) (df : DataFrame)
           (vect : TfidfVectorizer F) (X : csr) (top_k : Z) : M DataFrame :=
  let sims := similarities query vect X in
  let idx := top_indices sims top_k in
  iloc df idx.

(** [st.selectbox(label, options)]: the option the user picked, the
    first one until they pick. *)
Definition selectbox (options : list string) (picked : nat) : string :=
  nth picked options (hd "" options).

(** [st.slider(label, lo, hi, value)]: a value between [lo] and [hi],
    [value] until the user moves the handle. *)
Definition slider (lo hi value : Z) (moved_to : option Z) : Z :=
  match moved_to with
  | None => value
  | Some v => Z.max lo (Z.min hi v)
  end.

(** What the user did on the page. *)
Record Form : Type := {
  picked : nat;            (* the subject *)
  typed : string;          (* the query *)
  moved_to : option Z;     (* the slider *)
  clicked : bool           (* the Search button *)
}.

(** One run of the script: the table it shows, if it shows one. *)
Definition page (http_get : Get) (form : Form) : M (option DataFrame) :=
  let subject := selectbox (map fst CS_SUBJECTS) (picked form) in
  match Recommender.subject_of subject CS_SUBJECTS with
  | None => raise (KeyError subject)
  | Some subject_data =>
      bind (fetch_arxiv_papers http_get subject
              (Recommender.category subject_data)
              (Recommender.keywords subject_data)) (fun df =>
      if Pd.empty df then ret None
      else
        bind (build_tfidf df) (fun vX =>
        let top_k := slider 1 20 10 (moved_to form) in
        if clicked form && negb (String.eqb (strip (typed form)) "")
        then bind (recommend_papers (typed form) df (fst vX) (snd vX) top_k)
                  (fun recs => ret (Some recs))
        else ret None))
  end.

End Ranking.

End UI.

(* ================================================================== *)
(** * The objects the functions share

    [build_tfidf] and [recommend_papers] are handed references: to a
    DataFrame, to a TfidfVectorizer, to a sparse matrix.  A method
    could change the object it is called on, and the next call would
    see the change.  This second embedding of the two functions and of
    the loop of [main] keeps the objects in a store and passes
    references, so that what each call leaves behind is part of what is
    said about it.  A library call reads the objects it is given and
    puts its result in a new object; [fit_transform] alone writes to
    an object that exists, the vectorizer it fits. *)
(* ================================================================== *)

Module Store.
Import Py Pd Sk.

Section Objects.
Context {F : Type} {FL : Float64 F} {A : ArgSort}.

Inductive Obj : Type :=
| Frame (df : DataFrame)             (* pandas.DataFrame *)
| Vectorizer (vect : TfidfVectorizer F)
| Matrix (X : @csr F)                 (* scipy.sparse.csr_matrix *)
| Dense (a : list (list F))          (* numpy.ndarray, two axes *)
| Floats (a : list F)                (* numpy.ndarray of doubles *)
| Ints (a : list nat).               (* numpy.ndarray of positions *)

(** A reference is the position of its object in the store; new
    objects are added at the end. *)
Definition ref : Type := nat.
Definition heap : Type := list Obj.

(** [h'] holds everything [h] holds, unchanged, and maybe more. *)
Definition extends (h h' : heap) : Prop := exists more, h' = (h ++ more)%list.

(** A computation on the store that returns or raises. *)
Definition St (T : Type) : Type := heap -> M T * heap.

Definition ret {T} (x : T) : St T := fun h => (inr x, h).
Definition raise {T} (e : Exn) : St T := fun h => (inl e, h).
Definition bind {T U} (m : St T) (k : T -> St U) : St U :=
  fun h => match m h with
           | (inl e, h') => (inl e, h')
           | (inr x, h') => k x h'
           end.
Definition lift {T} (m : M T) : St T := fun h => (m, h).

Notation "x <- m ;; k" := (bind m (fun x => k))
  (at level 61, m at next level, right associativity).

Definition new (o : Obj) : St ref :=
  fun h => (inr (List.length h), (h ++ [o])%list).

Definition write (r : ref) (o : Obj) : St unit :=
  fun h => (inr tt, (firstn r h ++ o :: skipn (S r) h)%list).

(** The object behind a reference, as the kind of object a method
    expects; a method called on another kind of object is not there
    ([AttributeError]). *)
Definition deref (r : ref) : St Obj :=
  fun h => match nth_error h r with
           | Some o => (inr o, h)
           | None => (inl AttributeError, h)
           end.

Definition frame (r : ref) : St DataFrame :=
  o <- deref r ;;
  match o with Frame df => ret df | _ => raise AttributeError end.

Definition vectorizer (r : ref) : St (TfidfVectorizer F) :=
  o <- deref r ;;
  match o with Vectorizer v => ret v | _ => raise AttributeError end.

Definition matrix (r : ref) : St (@csr F) :=
  o <- deref r ;;
  match o with Matrix X => ret X | _ => raise AttributeError end.

Definition dense (r : ref) : St (list (list F)) :=
  o <- deref r ;;
  match o with Dense a => ret a | _ => raise AttributeError end.

Definition floats (r : ref) : St (list F) :=
  o <- deref r ;;
  match o with Floats a => ret a | _ => raise AttributeError end.

Definition ints (r : ref) : St (list nat) :=
  o <- deref r ;;
  match o with Ints a => ret a | _ => raise AttributeError end.

(** ** The library calls *)

Variable english : list string.

(** [TfidfVectorizer(max_features=10000, stop_words='english')] *)
Definition TfidfVectorizer_new : St ref :=
  new (Vectorizer (Recommender.new_vectorizer english)).

(** [df['text']], read by [fit_transform] at once. *)
Definition getitem_text (df : ref) : St (list string) :=
  d <- frame df ;; lift (Pd.getitem_text d).

(** [vect.fit_transform(docs)] sets the vocabulary and the weights of
    [vect] and returns a new matrix. *)
Definition fit_transform (vect : ref) (docs : list string) : St ref :=
  v <- vectorizer vect ;;
  vX <- lift (Sk.fit_transform v docs) ;;
  _ <- write vect (Vectorizer (fst vX)) ;;
  new (Matrix (snd vX)).

(** [vect.transform(docs)] *)
Definition transform (vect : ref) (docs : list string) : St ref :=
  v <- vectorizer vect ;; new (Matrix (Sk.transform v docs)).

(** [linear_kernel(Q, X)] *)
Definition linear_kernel (Q X : ref) : St ref :=
  q <- matrix Q ;; x <- matrix X ;; new (Dense (Sk.linear_kernel q x)).

(** [a.flatten()], a copy. *)
Definition flatten (a : ref) : St ref :=
  d <- dense a ;; new (Floats (Sk.flatten d)).

(** [-a] *)
Definition negative (a : ref) : St ref :=
  v <- floats a ;; new (Floats (map fopp v)).

(** [np.argsort(a)] *)
Definition np_argsort (a : ref) : St ref :=
  v <- floats a ;; new (Ints (argsort fleb v)).

(** [a[:k]]: a view on [a]; nothing is written through it, and it is
    kept as an array of its own. *)
Definition slice_to (k : Z) (a : ref) : St ref :=
  v <- ints a ;; new (Ints (Py.slice_to k v)).

(** [df.iloc[idx]]: the rows at the positions [idx], in a new table. *)
Definition iloc (df idx : ref) : St ref :=
  d <- frame df ;; i <- ints idx ;;
  res <- lift (Pd.iloc d i) ;;
  new (Frame res).

(** [df.copy()] *)
Definition copy (df : ref) : St ref :=
  d <- frame df ;; new (Frame d).

(** [df.reset_index(drop=True)]: a new table, its rows renumbered from
    0 ([inplace] is left at [False]). *)
Definition reset_index (df : ref) : St ref :=
  d <- frame df ;; new (Frame d).

(** ** cs_journal_recommender.py *)

Definition build_tfidf (df : ref) : St (ref * ref) :=
  vect <- TfidfVectorizer_new ;;
  docs <- getitem_text df ;;
  X <- fit_transform vect docs ;;
  ret (vect, X).

Definition recommend_papers (query : string) (df vect X : ref) (top_k : Z)
  : St ref :=
  qv <- transform vect [query] ;;
  k <- linear_kernel qv X ;;
  sims <- flatten k ;;
  neg <- negative sims ;;
  order <- np_argsort neg ;;
  idx <- slice_to top_k order ;;
  picked <- iloc df idx ;;
  res <- copy picked ;;
  reset_index res.

(** The [while True] loop of [main]; each round prints the table
    [recommend_papers] returned, as it is when the round ends. *)
Fixpoint loop (df vect X : ref) (stdin : list string) (h : heap)
  : (list Recommender.Round * M unit) * heap :=
  match stdin with
  | [] => (([], Py.raise EOFError), h)
  | line :: stdin1 =>
      let query := strip line in
      if mem (lower query) ["exit"; "quit"] then (([], Py.ret tt), h)
      else
        match stdin1 with
        | [] => (([], Py.raise EOFError), h)
        | line2 :: stdin2 =>
            let top_k := Recommender.read_top_k (strip line2) in
            match (recs <- recommend_papers query df vect X top_k ;;
                   frame recs) h with
            | (inl e, h') => (([], inl e), h')
            | (inr recs, h') =>
                let (out, h'') := loop df vect X stdin2 h' in
                (({| Recommender.query := query;
                     Recommender.top_k := top_k;
                     Recommender.recs := recs |} :: fst out, snd out), h'')
            end
        end
  end.

End Objects.

End Store.

(* ================================================================== *)
(** * Rational scores

    The rationals with their order satisfy [Float64Order]; they are
    the instance at which the theorems that assume it are applied.
    Square roots and logarithms have no rational values: the instance
    rounds the square root down to an integer and takes [x - 1] for
    [log x]. *)
(* ================================================================== *)

Definition Qsqrt_floor (x : Q) : Q := inject_Z (Z.sqrt (Qfloor x)).

Definition Qscore : Float64 Q :=
  {| f0 := 0%Q;
     of_nat := fun n => inject_Z (Z.of_nat n);
     fadd := Qplus;
     fmul := Qmult;
     fdiv := Qdiv;
     fsqrt := Qsqrt_floor;
     flog := fun x => (x - 1)%Q;
     fopp := Qopp;
     fleb := Qle_bool |}.

(* ================================================================== *)
(** * Double scores

    IEEE binary64 with round-to-nearest, as the kernel's primitive
    floats compute it: the arithmetic the library runs for sums,
    products, quotients and square roots.  The logarithm is not a
    primitive.  [ln] computes the logarithm in fixed point with 128
    binary places, from the series of [atanh] after reducing its
    argument to [sqrt(1/2), sqrt 2), and returns the double nearest
    to what it computed: the logarithm rounded to nearest.  The
    library's logarithm is within a unit in the last place of that
    and is the same double but for rare arguments.  The runs in
    doubles below turn on scores that are exactly 0.0, on a corpus
    whose idf weights are all log 1 + 1 = 1.0, or on scores that are
    far apart; none turns on the last place of a logarithm. *)
(* ================================================================== *)

Module Binary64.

Definition of_Z (k : Z) : PrimFloat.float :=
  if k <? 0 then PrimFloat.opp (PrimFloat.of_uint63 (Uint63.of_Z (- k)))
  else PrimFloat.of_uint63 (Uint63.of_Z k).

(** Fixed point: [v] stands for [v / 2^bits]. *)
Definition bits : Z := 128.
Definition one : Z := 2 ^ bits.

(** [z/1 + z^3/3 + z^5/5 + ...], in fixed point. *)
Fixpoint atanh_series (terms : nat) (z2 pow n : Z) : Z :=
  match terms with
  | O => 0
  | S terms' => pow / n + atanh_series terms' z2 (pow * z2 / one) (n + 2)
  end.

Definition atanh (z : Z) : Z := atanh_series 40 (z * z / one) z 1.

(** [log 2 = 2 atanh (1/3)] *)
Definition ln2 : Z := Eval vm_compute in 2 * atanh (one / 3).

(** The double nearest to [v / 2^bits]: the 63 leading bits of [v],
    the last of them set when a lower bit is, rounded by the
    conversion to a double. *)
Definition round (v : Z) : PrimFloat.float :=
  let a := Z.abs v in
  let sh := Z.max 0 (Z.log2 a - 62) in
  let n := Z.shiftr a sh in
  let n := if Z.shiftl n sh =? a then n else Z.lor n 1 in
  let x := FloatOps.Z.ldexp (PrimFloat.of_uint63 (Uint63.of_Z n)) (sh - bits) in
  if v <? 0 then PrimFloat.opp x else x.

(** [log (m * 2^e) = e * log 2 + 2 atanh ((m - 1) / (m + 1))], for a
    positive double. *)
Definition ln (x : PrimFloat.float) : PrimFloat.float :=
  let (m, e) := FloatOps.Z.frexp x in
  let a := Uint63.to_Z (PrimFloat.normfr_mantissa m) in
  let (a, e) := if a * a <? 2 ^ 105 then (2 * a, e - 1) else (a, e) in
  let z := (a - 2 ^ 53) * one / (a + 2 ^ 53) in
  round (e * ln2 + 2 * atanh z).

End Binary64.

Definition binary64 : Float64 PrimFloat.float :=
  {| f0 := Binary64.of_Z 0;
     of_nat := fun n => Binary64.of_Z (Z.of_nat n);
     fadd := PrimFloat.add;
     fmul := PrimFloat.mul;
     fdiv := PrimFloat.div;
     fsqrt := PrimFloat.sqrt;
     flog := Binary64.ln;
     fopp := PrimFloat.opp;
     fleb := PrimFloat.leb |}.

(* ================================================================== *)
(** * Real scores

    The scores in exact arithmetic: the real numbers, with their square
    root and logarithm. *)
(* ================================================================== *)

Module Exact.
Import Reals.
Local Open Scope R_scope.

Definition Rleb (a b : R) : bool := if Rle_dec a b then true else false.

Definition reals : Float64 R :=
  {| f0 := 0;
     of_nat := INR;
     fadd := Rplus;
     fmul := Rmult;
     fdiv := Rdiv;
     fsqrt := sqrt;
     flog := ln;
     fopp := Ropp;
     fleb := Rleb |}.

Definition val (y : list (nat * R)) (j : nat) : R :=
  match Sk.lookup j y with
  | Some b => b
  | None => 0
  end.

Fixpoint sumprod (x y : list (nat * R)) : R :=
  match x with
  | [] => 0
  | ja :: x' => snd ja * val y (fst ja) + sumprod x' y
  end.

Fixpoint sumsq (r : list (nat * R)) : R :=
  match r with
  | [] => 0
  | jv :: r' => snd jv * snd jv + sumsq r'
  end.

Fixpoint remove_key (j : nat) (y : list (nat * R)) : list (nat * R) :=
  match y with
  | [] => []
  | kb :: y' => if Nat.eqb (fst kb) j then y' else kb :: remove_key j y'
  end.

End Exact.

(* ================================================================== *)
(** * What the properties say *)
(* ================================================================== *)

Section Orders.
Context {F : Type} {FL : Float64 F}.

(** [sims[i] >= sims[j]] *)
Definition ge_at (sims : list F) (i j : nat) : Prop := key_le fleb sims j i.

(** The positions [idx] are by non-increasing score. *)
Definition ranked (sims : list F) (idx : list nat) : Prop :=
  StronglySorted (ge_at sims) idx.

(** ... and positions of equal score are in corpus order. *)
Definition ties_in_corpus_order (sims : list F) (idx : list nat) : Prop :=
  StronglySorted (fun i j => ge_at sims i j /\ (ge_at sims j i -> (i < j)%nat)) idx.

(** ... and positions of equal score are in reverse corpus order. *)
Definition ties_in_reverse_order (sims : list F) (idx : list nat) : Prop :=
  StronglySorted (fun i j => ge_at sims i j /\ (ge_at sims j i -> (j < i)%nat)) idx.

(** No two records have the same score. *)
Definition no_ties (sims : list F) : Prop :=
  forall i j, ge_at sims i j -> ge_at sims j i -> i = j.

(** None of the records at the positions [idx] has the score of another
    record. *)
Definition untied (sims : list F) (idx : list nat) : Prop :=
  forall i j, In i idx -> ge_at sims i j -> ge_at sims j i -> i = j.

End Orders.

Section QueryRow.
Context {F : Type} {FL : Float64 F}.

(** The row of the query, and the scores as one product per record. *)
Definition query_row (vect : Sk.TfidfVectorizer F) (query : string) : Sk.csr_row :=
  Sk.tfidf_row (Sk.idf_ vect)
    (Sk.count_row (Sk.vocabulary_ vect) (Sk.analyze (Sk.stop_words vect) query)).

End QueryRow.


(** [link.attrib.get("title") == "pdf"] *)
Definition is_pdf (link : Http.attribs) : bool :=
  match Http.get "title" link with
  | Some t => String.eqb t "pdf"
  | None => false
  end.

(** The first link titled "pdf": what the specification names. *)
Definition first_pdf (links : list Http.attribs) : option Http.attribs :=
  find is_pdf links.

(** The last link titled "pdf". *)
Fixpoint last_pdf (links : list Http.attribs) : option Http.attribs :=
  match links with
  | [] => None
  | link :: links' =>
      match last_pdf links' with
      | Some l => Some l
      | None => if is_pdf link then Some link else None
      end
  end.

(** The URL of a link. *)
Definition href_of (link : option Http.attribs) : option string :=
  match link with
  | Some l => Http.get "href" l
  | None => None
  end.

(* ================================================================== *)
(** * Corpora, entries and endpoints to run the scripts on *)
(* ================================================================== *)

(** A small corpus to run the scripts on. *)
Module Demo.
Import Py Pd Sk.

Definition paper (t a : string) : Paper :=
  {| title := t; abstract := a; text := t ++ ". " ++ a;
     authors := "A. Author"; year := "2020"; pdf_link := None |}.

Definition graphs : Paper := paper "graph coloring" "the chromatic number".
Definition deadlocks : Paper := paper "deadlock detection" "the cycles of a graph".
Definition nets : Paper := paper "neural nets" "deep learning".

Definition corpus : DataFrame := DataFrame_of [graphs; deadlocks; nets].

(** Four entries of scikit-learn's English stop list. *)
Definition stop : list string := ["the"; "of"; "a"; "and"].

(** The index of [corpus] in rational arithmetic. *)
Definition vect : TfidfVectorizer Q :=
  match @Recommender.build_tfidf Q Qscore insertion_argsort stop corpus with
  | inr (v, _) => v
  | inl _ => @Recommender.new_vectorizer Q stop
  end.

Definition X : @csr Q :=
  match @Recommender.build_tfidf Q Qscore insertion_argsort stop corpus with
  | inr (_, X) => X
  | inl _ => []
  end.

(** The index of [corpus] in double arithmetic. *)
Definition vect64 : TfidfVectorizer PrimFloat.float :=
  match @Recommender.build_tfidf _ binary64 insertion_argsort stop corpus with
  | inr (v, _) => v
  | inl _ => @Recommender.new_vectorizer _ stop
  end.

Definition X64 : @csr PrimFloat.float :=
  match @Recommender.build_tfidf _ binary64 insertion_argsort stop corpus with
  | inr (_, X) => X
  | inl _ => []
  end.

(** The same texts, other authors and years. *)
Definition reprint (p : Paper) : Paper :=
  {| title := title p; abstract := abstract p; text := text p;
     authors := "B. Editor"; year := "2024"; pdf_link := Some "http://arxiv.org/pdf/2" |}.

Definition reprints : DataFrame := DataFrame_of (map reprint (rows corpus)).

(** Two records about the same two words: once each in [once], three
    times each in [thrice]. *)
Definition once : Paper := paper "Coloring" "A graph".
Definition thrice : Paper :=
  paper "Graph coloring" "Graph coloring: coloring a graph.".

Definition pair : DataFrame := DataFrame_of [once; thrice].

(** Lines typed at the prompts of the loop. *)
Definition session : list string :=
  ["graph"; "2"; "neural"; ""; "graph"; " 2 "; "exit"].

End Demo.

(** An endpoint that answers 503, and one that answers 200 with an empty
    feed. *)
Definition unavailable : Http.Get :=
  fun _ _ => inr {| Http.status_code := 503;
                    Http.entries := inl Py.ParseError |}.

Definition no_match : Http.Get :=
  fun _ _ => inr {| Http.status_code := 200; Http.entries := inr [] |}.

(** An entry with two links titled "pdf". *)
Definition two_pdfs : Http.Entry :=
  {| Http.e_title := Some "Graph coloring";
     Http.e_summary := Some "On the chromatic number.";
     Http.e_links :=
       [ [("href", "http://arxiv.org/abs/1"); ("rel", "alternate")];
         [("title", "pdf"); ("href", "http://arxiv.org/pdf/1v1")];
         [("title", "pdf"); ("href", "http://arxiv.org/pdf/1v2")] ];
     Http.e_authors := [Some (Some "A. Author"); Some (Some "B. Author")];
     Http.e_published := Some (Some "2020-01-02T03:04:05Z") |}.

Definition two_pdfs_paper : Pd.Paper :=
  {| Pd.title := "Graph coloring";
     Pd.abstract := "On the chromatic number.";
     Pd.text := "Graph coloring. On the chromatic number.";
     Pd.authors := "A. Author, B. Author";
     Pd.year := "2020";
     Pd.pdf_link := Some "http://arxiv.org/pdf/1v2" |}.

(** An endpoint that answers 200 with a feed of two entries. *)
Definition one_pdf : Http.Entry :=
  {| Http.e_title := Some "  Deadlock
detection ";
     Http.e_summary := Some "Cycles in the wait-for graph.";
     Http.e_links := [ [("title", "pdf"); ("href", "http://arxiv.org/pdf/2v1")] ];
     Http.e_authors := [Some (Some "C. Author")];
     Http.e_published := Some (Some "2021-05-06T07:08:09Z") |}.

Definition arxiv_stub : Http.Get :=
  fun _ _ => inr {| Http.status_code := 200;
                    Http.entries := inr [two_pdfs; one_pdf] |}.

Definition one_pdf_paper : Pd.Paper :=
  {| Pd.title := "Deadlock detection";
     Pd.abstract := "Cycles in the wait-for graph.";
     Pd.text := "Deadlock detection. Cycles in the wait-for graph.";
     Pd.authors := "C. Author";
     Pd.year := "2021";
     Pd.pdf_link := Some "http://arxiv.org/pdf/2v1" |}.

(** An entry one of whose authors has an empty name element, and a feed
    that holds it between two entries that parse. *)
Definition nameless : Http.Entry :=
  {| Http.e_title := Some "Routing";
     Http.e_summary := Some "Congestion in networks.";
     Http.e_links := [];
     Http.e_authors := [Some (Some "D. Author"); Some None];
     Http.e_published := Some (Some "2022-01-01T00:00:00Z") |}.

Definition broken_feed : Http.Response :=
  {| Http.status_code := 200;
     Http.entries := inr [two_pdfs; nameless; one_pdf] |}.

Definition broken_stub : Http.Get := fun _ _ => inr broken_feed.

(** An endpoint that answers like [arxiv_stub] to the search of the
    subject DSA, and 503 to every other request. *)
Definition dsa_only : Http.Get :=
  fun url params =>
    if existsb (fun kv => String.eqb (snd kv)
         "cat:cs+AND+all:(NP-complete OR graph algorithms OR dynamic programming)")
         params
    then arxiv_stub url params
    else unavailable url params.


(* ================================================================== *)
(** * Slices *)
(* ================================================================== *)

Section Slices.
Variable T : Type.
Implicit Types (l : list T) (k : Z).

Lemma clip_nonneg len k :
  0 <= k -> Py.clip len k = Nat.min (Z.to_nat k) len.
Proof.
  intros Hk. unfold Py.clip.
  destruct (Z.ltb_spec k 0); lia.
Qed.

Lemma clip_neg len k :
  k < 0 -> Py.clip len k = (len - Z.to_nat (- k))%nat.
Proof.
  intros Hk. unfold Py.clip.
  destruct (Z.ltb_spec k 0); lia.
Qed.

Lemma clip_le len k : (Py.clip len k <= len)%nat.
Proof.
  unfold Py.clip. destruct (Z.ltb_spec k 0); lia.
Qed.

Lemma length_slice_to k l :
  List.length (Py.slice_to k l) = Py.clip (List.length l) k.
Proof.
  unfold Py.slice_to. rewrite List.length_firstn.
  pose proof (clip_le (List.length l) k). lia.
Qed.

Lemma length_slice_from k l :
  List.length (Py.slice_from k l)
  = (List.length l - Py.clip (List.length l) k)%nat.
Proof.
  unfold Py.slice_from. now rewrite List.length_skipn.
Qed.

(** For a positive [k], [l[-k:][::-1]] is [l[::-1][:k]]. *)
Lemma last_reversed k l :
  0 < k ->
  Py.reversed (Py.slice_from (- k) l) = Py.slice_to k (Py.reversed l).
Proof.
  intros Hk. unfold Py.reversed, Py.slice_from, Py.slice_to.
  rewrite List.length_rev, List.firstn_rev.
  rewrite clip_neg, clip_nonneg by lia.
  f_equal. f_equal. lia.
Qed.

End Slices.

(* ================================================================== *)
(** * Sorted lists of positions *)
(* ================================================================== *)

Section Sorted.
Variable T : Type.
Implicit Type R : T -> T -> Prop.

Lemma StronglySorted_weaken R (R' : T -> T -> Prop) (l : list T) :
  (forall a b, In a l -> In b l -> R a b -> R' a b) ->
  StronglySorted R l -> StronglySorted R' l.
Proof.
  induction l as [|a l IH]; intros Himp Hs; constructor;
    inversion Hs as [|? ? Hs' Hall]; subst.
  - apply IH; [|assumption].
    intros x y Hx Hy. apply Himp; now right.
  - rewrite Forall_forall in *. intros b Hb.
    apply Himp; [now left | now right | now apply Hall].
Qed.

Lemma StronglySorted_app R (l1 l2 : list T) :
  StronglySorted R l1 -> StronglySorted R l2 ->
  (forall a b, In a l1 -> In b l2 -> R a b) ->
  StronglySorted R (l1 ++ l2).
Proof.
  induction l1 as [|a l1 IH]; simpl; intros H1 H2 H12; [assumption|].
  inversion H1 as [|? ? H1' Hall]; subst. constructor.
  - apply IH; auto.
  - apply Forall_app. split; [assumption|].
    rewrite Forall_forall. intros b Hb. apply H12; [now left | assumption].
Qed.

Lemma StronglySorted_app_inv R (l1 l2 : list T) :
  StronglySorted R (l1 ++ l2) ->
  StronglySorted R l1 /\ StronglySorted R l2 /\
  (forall a b, In a l1 -> In b l2 -> R a b).
Proof.
  induction l1 as [|a l1 IH]; simpl; intros H.
  - repeat split; [constructor | assumption | intros ? ? []].
  - inversion H as [|? ? H' Hall]; subst.
    destruct (IH H') as (H1 & H2 & H12).
    apply Forall_app in Hall. destruct Hall as [Ha1 Ha2].
    repeat split; [now constructor | assumption |].
    intros x b [<-|Hx] Hb; [|now apply H12].
    rewrite Forall_forall in Ha2. now apply Ha2.
Qed.

Lemma StronglySorted_firstn R (n : nat) (l : list T) :
  StronglySorted R l -> StronglySorted R (firstn n l).
Proof.
  intros H. rewrite <- (firstn_skipn n l) in H.
  now apply StronglySorted_app_inv in H.
Qed.

Lemma StronglySorted_skipn R (n : nat) (l : list T) :
  StronglySorted R l -> StronglySorted R (skipn n l).
Proof.
  intros H. rewrite <- (firstn_skipn n l) in H.
  now apply StronglySorted_app_inv in H.
Qed.

Lemma StronglySorted_rev R (l : list T) :
  StronglySorted R l -> StronglySorted (fun a b => R b a) (rev l).
Proof.
  induction 1 as [|a l Hs IH Hall]; simpl; [constructor|].
  apply StronglySorted_app; [assumption | repeat constructor |].
  intros x b Hx [<-|[]]. rewrite Forall_forall in Hall.
  apply Hall. now apply in_rev.
Qed.

(** Two sorted arrangements of the same elements coincide when no two
    different elements are each before the other. *)
Lemma sorted_unique R (l1 l2 : list T) :
  (forall a b, In a l1 -> In b l1 -> R a b -> R b a -> a = b) ->
  StronglySorted R l1 -> StronglySorted R l2 ->
  Permutation l1 l2 -> l1 = l2.
Proof.
  revert l2. induction l1 as [|a l1 IH]; intros l2 Hanti H1 H2 Hp.
  - now apply Permutation_nil in Hp.
  - destruct l2 as [|b l2].
    { symmetry in Hp. now apply Permutation_nil in Hp. }
    inversion H1 as [|? ? H1' Hall1]; subst.
    inversion H2 as [|? ? H2' Hall2]; subst.
    rewrite Forall_forall in Hall1, Hall2.
    assert (Hab : a = b).
    { assert (Ha : In a (b :: l2))
        by (eapply Permutation_in; [exact Hp | now left]).
      assert (Hb : In b (a :: l1))
        by (eapply Permutation_in; [symmetry; exact Hp | now left]).
      destruct Ha as [->|Ha]; [reflexivity|].
      destruct Hb as [->|Hb]; [reflexivity|].
      apply Hanti; [now left | now right | now apply Hall1 | now apply Hall2]. }
    subst b. f_equal. apply IH; try assumption.
    + intros x y Hx Hy. apply Hanti; now right.
    + now apply Permutation_cons_inv in Hp.
Qed.

(** Two sorted arrangements of the same elements start with the same
    [k] elements when none of the first [k] ties with another
    element. *)
Lemma sorted_prefix_unique R (k : nat) : forall (l1 l2 : list T),
  (forall a b, In a (firstn k l1) -> In b l1 -> R a b -> R b a -> a = b) ->
  StronglySorted R l1 -> StronglySorted R l2 -> Permutation l1 l2 ->
  firstn k l1 = firstn k l2.
Proof.
  induction k as [|k IH]; intros l1 l2 Huniq H1 H2 Hp; [reflexivity|].
  destruct l1 as [|a l1].
  - apply Permutation_nil in Hp. now subst.
  - destruct l2 as [|b l2];
      [apply Permutation_sym, Permutation_nil in Hp; discriminate|].
    inversion H1 as [|? ? H1' Ha]; subst.
    inversion H2 as [|? ? H2' Hb]; subst.
    rewrite Forall_forall in Ha, Hb.
    assert (E : a = b).
    { assert (Hb1 : In b (a :: l1))
        by (apply (Permutation_in _ (Permutation_sym Hp)); now left).
      assert (Ha2 : In a (b :: l2))
        by (apply (Permutation_in _ Hp); now left).
      destruct Hb1 as [E|Hb1]; [exact E|].
      destruct Ha2 as [E|Ha2]; [now symmetry|].
      apply Huniq; [now left | now right | now apply Ha | now apply Hb]. }
    subst b. simpl. f_equal. apply IH; try assumption.
    + intros x y Hx Hy. apply Huniq; simpl; now right.
    + now apply Permutation_cons_inv in Hp.
Qed.

End Sorted.

(* ================================================================== *)
(** * The insertion sort is a stable [argsort] *)
(* ================================================================== *)

Section InsertionSort.
Variable K : Type.
Variable leb : K -> K -> bool.
Variable v : list K.

Lemma ins_perm i l : Permutation (Insertion.ins leb v i l) (i :: l).
Proof.
  induction l as [|j l IH]; simpl; [reflexivity|].
  destruct (Insertion.lt_at leb v i j); [reflexivity|].
  rewrite IH. apply perm_swap.
Qed.

Lemma fold_ins_perm l acc :
  Permutation (fold_left (fun acc i => Insertion.ins leb v i acc) l acc)
              (l ++ acc).
Proof.
  revert acc. induction l as [|i l IH]; intros acc; simpl; [reflexivity|].
  rewrite IH, ins_perm. symmetry. apply Permutation_middle.
Qed.

Lemma sort_perm :
  Permutation (Insertion.sort leb v) (seq 0 (List.length v)).
Proof.
  unfold Insertion.sort. rewrite fold_ins_perm. now rewrite app_nil_r.
Qed.

Hypothesis leb_total : total leb.
Hypothesis leb_trans : transitive leb.

Lemma ins_stable i l :
  (i < List.length v)%nat ->
  Forall (fun a => (a < i)%nat) l ->
  StronglySorted (stable_le leb v) l ->
  StronglySorted (stable_le leb v) (Insertion.ins leb v i l).
Proof.
  intros Hi. pose proof Hi as Hi'. apply nth_error_Some in Hi'.
  destruct (nth_error v i) as [ki|] eqn:Eki; [clear Hi' | congruence].
  induction l as [|j l IH]; intros Hlt Hs; simpl.
  - repeat constructor.
  - inversion Hs as [|? ? Hs' Hall]; subst.
    inversion Hlt as [|? ? Hji Hlt']; subst.
    assert (Hj : (j < List.length v)%nat) by lia.
    apply nth_error_Some in Hj.
    destruct (nth_error v j) as [kj|] eqn:Ekj; [clear Hj | congruence].
    unfold Insertion.lt_at. rewrite Eki, Ekj.
    destruct (leb kj ki) eqn:Eji; simpl.
    + (* v[j] <= v[i]: i goes further right *)
      constructor; [now apply IH|].
      eapply Permutation_Forall; [symmetry; apply ins_perm|].
      constructor; [|assumption].
      split; unfold key_le; rewrite Eki, Ekj; auto.
    + (* v[i] < v[j]: i stops here *)
      assert (Hij : leb ki kj = true)
        by (destruct (leb_total ki kj); congruence).
      constructor; [assumption|].
      constructor.
      * split; unfold key_le; rewrite Eki, Ekj; [assumption | congruence].
      * rewrite Forall_forall in *. intros x Hx.
        destruct (Hall x Hx) as [Hjx _]. unfold key_le in Hjx.
        rewrite Ekj in Hjx.
        destruct (nth_error v x) as [kx|] eqn:Ekx; [|contradiction].
        split; unfold key_le; rewrite Eki, Ekx.
        -- eapply leb_trans; eassumption.
        -- intros Hxi.
           assert (leb kj ki = true) by (eapply leb_trans; eassumption).
           congruence.
Qed.

Lemma fold_ins_stable len : forall m acc,
  (m + len <= List.length v)%nat ->
  Forall (fun a => (a < m)%nat) acc ->
  StronglySorted (stable_le leb v) acc ->
  StronglySorted (stable_le leb v)
    (fold_left (fun acc i => Insertion.ins leb v i acc) (seq m len) acc).
Proof.
  induction len as [|len IH]; intros m acc Hm Hlt Hs; simpl; [assumption|].
  apply IH; [lia | |].
  - eapply Permutation_Forall; [symmetry; apply ins_perm|].
    constructor; [lia|].
    eapply Forall_impl; [|exact Hlt]. simpl. intros; lia.
  - apply ins_stable; [lia | assumption | assumption].
Qed.

Lemma sort_stable : StronglySorted (stable_le leb v) (Insertion.sort leb v).
Proof.
  unfold Insertion.sort. apply fold_ins_stable; [lia | constructor | constructor].
Qed.

Lemma sort_sorted : StronglySorted (key_le leb v) (Insertion.sort leb v).
Proof.
  eapply StronglySorted_weaken; [|apply sort_stable].
  intros a b _ _ [H _]. exact H.
Qed.

End InsertionSort.

Lemma insertion_argsort_spec : ArgSortSpec insertion_argsort.
Proof.
  constructor.
  - intros K leb v. apply sort_perm.
  - intros K leb v Ht Htr. now apply sort_sorted.
Qed.

Lemma insertion_is_stable : Stable insertion_argsort.
Proof.
  intros K leb v Ht Htr. now apply sort_stable.
Qed.

(* ================================================================== *)
(** * The order of the rationals *)
(* ================================================================== *)

Lemma Qle_bool_total (a b : Q) : Qle_bool a b = true \/ Qle_bool b a = true.
Proof.
  rewrite !Qle_bool_iff. destruct (Qlt_le_dec a b) as [H|H].
  - left. now apply Qlt_le_weak.
  - now right.
Qed.

Lemma Qle_bool_trans (a b c : Q) :
  Qle_bool a b = true -> Qle_bool b c = true -> Qle_bool a c = true.
Proof.
  rewrite !Qle_bool_iff. apply Qle_trans.
Qed.

Lemma Qle_bool_opp (a b : Q) : Qle_bool (- a) (- b) = Qle_bool b a.
Proof.
  apply eq_true_iff_eq. rewrite !Qle_bool_iff. split; intros H.
  - apply Qopp_le_compat in H. now rewrite !Qopp_involutive in H.
  - now apply Qopp_le_compat.
Qed.

Lemma Qscore_order : Float64Order Qscore.
Proof.
  constructor.
  - exact Qle_bool_total.
  - exact Qle_bool_trans.
  - exact Qle_bool_opp.
Qed.


(* ================================================================== *)
(** * Facts about the two [recommend_papers] *)
(* ================================================================== *)

Lemma in_firstn_in {T} (n : nat) (l : list T) (x : T) :
  In x (firstn n l) -> In x l.
Proof.
  intros H. rewrite <- (firstn_skipn n l). apply in_or_app. now left.
Qed.

Lemma in_skipn_in {T} (n : nat) (l : list T) (x : T) :
  In x (skipn n l) -> In x l.
Proof.
  intros H. rewrite <- (firstn_skipn n l). apply in_or_app. now right.
Qed.

Lemma iloc_ok (df : Pd.DataFrame) (idx : list nat) :
  Forall (fun i => (i < Pd.len df)%nat) idx ->
  exists rs,
    Pd.iloc df idx = inr {| Pd.columns := Pd.columns df; Pd.rows := rs |} /\
    Forall2 (fun i r => nth_error (Pd.rows df) i = Some r) idx rs.
Proof.
  unfold Pd.iloc, Pd.len.
  induction 1 as [|i idx Hi _ (rs & Hrs & Hall)]; simpl.
  - exists []. split; [reflexivity | constructor].
  - apply nth_error_Some in Hi.
    destruct (nth_error (Pd.rows df) i) as [r|] eqn:Er; [|congruence].
    simpl. unfold Py.bind in *.
    destruct (Py.mapM _ idx) as [e|rs'] eqn:Em; [discriminate|].
    simpl in *. injection Hrs as <-.
    exists (r :: rs'). split; [reflexivity | now constructor].
Qed.

Section RankingFacts.
Context {F : Type} {FL : Float64 F} {FO : Float64Order FL} {A : ArgSort} {AS : ArgSortSpec A}.
Implicit Types (sims : list F) (top_k : Z).

Lemma fleb_is_total : total (fleb (F := F)).
Proof. exact fleb_total. Qed.

Lemma fleb_is_transitive : transitive (fleb (F := F)).
Proof. exact fleb_trans. Qed.

Lemma fleb_refl (a : F) : fleb a a = true.
Proof. now destruct (fleb_total a a). Qed.

Lemma length_argsort K (leb : K -> K -> bool) (v : list K) :
  List.length (argsort leb v) = List.length v.
Proof.
  rewrite (Permutation_length (argsort_perm leb v)). apply List.length_seq.
Qed.

Lemma argsort_in_range K (leb : K -> K -> bool) (v : list K) i :
  In i (argsort leb v) -> (i < List.length v)%nat.
Proof.
  intros H. apply (Permutation_in _ (argsort_perm leb v)) in H.
  apply in_seq in H. lia.
Qed.

Lemma similarities_eq query (vect : Sk.TfidfVectorizer F) X :
  Recommender.similarities query vect X = map (Sk.dot (query_row vect query)) X.
Proof.
  unfold Recommender.similarities, Sk.flatten, Sk.linear_kernel, Sk.transform.
  simpl. apply app_nil_r.
Qed.

Lemma length_similarities query (vect : Sk.TfidfVectorizer F) X :
  List.length (Recommender.similarities query vect X) = List.length X.
Proof. rewrite similarities_eq. apply List.length_map. Qed.

(** The matrix [build_tfidf] returns has one row per record. *)
Lemma build_tfidf_rows english df (vect : Sk.TfidfVectorizer F) X :
  Recommender.build_tfidf english df = inr (vect, X) ->
  List.length X = Pd.len df.
Proof.
  unfold Recommender.build_tfidf, Pd.getitem_text, Pd.len.
  destruct (existsb _ _); simpl; [|discriminate].
  unfold Sk.fit_transform.
  destruct (Sk.sorted_terms _); simpl; [discriminate|].
  intros [= <- <-]. unfold Sk.transform. now rewrite !List.length_map.
Qed.

Lemma line_in_range sims top_k i :
  In i (Recommender.top_indices sims top_k) -> (i < List.length sims)%nat.
Proof.
  unfold Recommender.top_indices, Py.slice_to. intros H.
  apply in_firstn_in, argsort_in_range in H. now rewrite List.length_map in H.
Qed.

Lemma ui_in_range sims top_k i :
  In i (UI.top_indices sims top_k) -> (i < List.length sims)%nat.
Proof.
  unfold UI.top_indices, Py.reversed, Py.slice_from. intros H.
  apply in_rev, in_skipn_in in H. now apply argsort_in_range in H.
Qed.

Lemma length_line sims top_k :
  0 < top_k ->
  List.length (Recommender.top_indices sims top_k)
  = Nat.min (Z.to_nat top_k) (List.length sims).
Proof.
  intros Hk. unfold Recommender.top_indices.
  rewrite length_slice_to, length_argsort, List.length_map.
  apply clip_nonneg. lia.
Qed.

Lemma length_ui sims top_k :
  0 < top_k ->
  List.length (UI.top_indices sims top_k)
  = Nat.min (Z.to_nat top_k) (List.length sims).
Proof.
  intros Hk. unfold UI.top_indices, Py.reversed.
  rewrite List.length_rev, length_slice_from, length_argsort.
  rewrite clip_neg by lia. lia.
Qed.

(** Ascending order of the negated scores is descending order of the
    scores. *)
Lemma key_le_opp sims i j :
  key_le fleb (map fopp sims) i j <-> ge_at sims i j.
Proof.
  unfold ge_at, key_le. rewrite !nth_error_map.
  destruct (nth_error sims i), (nth_error sims j); simpl; try tauto.
  now rewrite fopp_leb.
Qed.

Lemma line_ranked sims top_k : ranked sims (Recommender.top_indices sims top_k).
Proof.
  unfold ranked, Recommender.top_indices, Py.slice_to.
  apply StronglySorted_firstn.
  eapply StronglySorted_weaken;
    [|apply argsort_sorted; [apply fleb_is_total | apply fleb_is_transitive]].
  intros a b _ _. apply key_le_opp.
Qed.

Lemma ui_ranked sims top_k : ranked sims (UI.top_indices sims top_k).
Proof.
  unfold ranked, UI.top_indices, Py.reversed, Py.slice_from.
  apply (StronglySorted_rev (R := key_le fleb sims)).
  apply StronglySorted_skipn.
  apply argsort_sorted; [apply fleb_is_total | apply fleb_is_transitive].
Qed.

Lemma line_stable sims top_k :
  Stable A -> ties_in_corpus_order sims (Recommender.top_indices sims top_k).
Proof.
  intros Hst.
  unfold ties_in_corpus_order, Recommender.top_indices, Py.slice_to.
  apply StronglySorted_firstn.
  eapply StronglySorted_weaken;
    [|apply Hst; [apply fleb_is_total | apply fleb_is_transitive]].
  intros a b _ _ [H1 H2]. split; [now apply key_le_opp|].
  intros H. apply H2. now apply key_le_opp.
Qed.

Lemma ui_stable sims top_k :
  Stable A -> ties_in_reverse_order sims (UI.top_indices sims top_k).
Proof.
  intros Hst.
  unfold ties_in_reverse_order, UI.top_indices, Py.reversed, Py.slice_from.
  apply (StronglySorted_rev (R := stable_le fleb sims)).
  apply StronglySorted_skipn.
  apply Hst; [apply fleb_is_total | apply fleb_is_transitive].
Qed.

End RankingFacts.

(* ================================================================== *)
(** * The number of records returned *)
(* ================================================================== *)

Section HowMany.
Context {F : Type} {FL : Float64 F} {A : ArgSort} {AS : ArgSortSpec A}.

Lemma line_returns query df (vect : Sk.TfidfVectorizer F) X top_k :
  List.length X = Pd.len df ->
  exists res,
    Recommender.recommend_papers query df vect X top_k = inr res /\
    Pd.len res
    = List.length (Recommender.top_indices
                     (Recommender.similarities query vect X) top_k).
Proof.
  intros HX. unfold Recommender.recommend_papers.
  assert (Hrange : Forall (fun i => (i < Pd.len df)%nat)
                     (Recommender.top_indices
                        (Recommender.similarities query vect X) top_k)).
  { rewrite Forall_forall. intros i Hi. apply line_in_range in Hi.
    now rewrite length_similarities, HX in Hi. }
  destruct (iloc_ok df Hrange) as (rs & Hrs & Hall).
  eexists. split; [exact Hrs|]. unfold Pd.len. simpl.
  symmetry. eapply Forall2_length. exact Hall.
Qed.

Lemma ui_returns query df (vect : Sk.TfidfVectorizer F) X top_k :
  List.length X = Pd.len df ->
  exists res,
    UI.recommend_papers query df vect X top_k = inr res /\
    Pd.len res
    = List.length (UI.top_indices (UI.similarities query vect X) top_k).
Proof.
  intros HX. unfold UI.recommend_papers.
  assert (Hrange : Forall (fun i => (i < Pd.len df)%nat)
                     (UI.top_indices (UI.similarities query vect X) top_k)).
  { rewrite Forall_forall. intros i Hi. apply ui_in_range in Hi.
    change (UI.similarities query vect X)
      with (Recommender.similarities query vect X) in Hi.
    now rewrite length_similarities, HX in Hi. }
  destruct (iloc_ok df Hrange) as (rs & Hrs & Hall).
  eexists. split; [exact Hrs|]. unfold Pd.len. simpl.
  symmetry. eapply Forall2_length. exact Hall.
Qed.

(** C1. For a corpus of n records indexed by a matrix of n rows, any
    query and any top_k > 0, [recommend_papers] returns, on the line-mode
    surface and on the form-based one, exactly min(top_k, n) records; so
    all n of them when top_k exceeds n. *)
Theorem rank_returns_min_topk_n query df (vect : Sk.TfidfVectorizer F) X top_k :
  List.length X = Pd.len df ->
  0 < top_k ->
  (exists res,
      Recommender.recommend_papers query df vect X top_k = inr res /\
      Pd.len res = Nat.min (Z.to_nat top_k) (Pd.len df)) /\
  (exists res,
      UI.recommend_papers query df vect X top_k = inr res /\
      Pd.len res = Nat.min (Z.to_nat top_k) (Pd.len df)).
Proof.
  intros HX Hk. split.
  - destruct (line_returns query df vect X top_k HX) as (res & Hres & Hlen).
    exists res. split; [assumption|].
    now rewrite Hlen, length_line, length_similarities, HX.
  - destruct (ui_returns query df vect X top_k HX) as (res & Hres & Hlen).
    exists res. split; [assumption|].
    change (UI.similarities query vect X)
      with (Recommender.similarities query vect X) in Hlen.
    now rewrite Hlen, length_ui, length_similarities, HX.
Qed.

End HowMany.

(** top_k = 5 against the three records of [Demo.corpus]: three records. *)
Lemma rank_returns_min_topk_n_witness :
  (exists res,
      @Recommender.recommend_papers Q Qscore insertion_argsort
        "graph" Demo.corpus Demo.vect Demo.X 5 = inr res /\
      Pd.len res = 3%nat) /\
  (exists res,
      @UI.recommend_papers Q Qscore insertion_argsort
        "graph" Demo.corpus Demo.vect Demo.X 5 = inr res /\
      Pd.len res = 3%nat).
Proof.
  exact (@rank_returns_min_topk_n Q Qscore insertion_argsort insertion_argsort_spec
           "graph" Demo.corpus Demo.vect Demo.X 5 eq_refl eq_refl).
Defined.

(* ================================================================== *)
(** * The order of the records returned *)
(* ================================================================== *)

Section Order.
Context {F : Type} {FL : Float64 F} {FO : Float64Order FL} {A : ArgSort} {AS : ArgSortSpec A}.

(** C2, as the code has it.  On both surfaces the records come by
    non-increasing score.  Among equal scores the order is the one the
    library's sort leaves: with a stable sort, corpus order on the
    line-mode surface and reverse corpus order on the form-based one. *)
Theorem ranking_is_non_increasing query df (vect : Sk.TfidfVectorizer F) X top_k :
  let sims := Recommender.similarities query vect X in
  let line := Recommender.top_indices sims top_k in
  let ui := UI.top_indices sims top_k in
  Recommender.recommend_papers query df vect X top_k = Pd.iloc df line /\
  UI.recommend_papers query df vect X top_k = Pd.iloc df ui /\
  ranked sims line /\
  ranked sims ui /\
  (Stable A -> ties_in_corpus_order sims line /\ ties_in_reverse_order sims ui).
Proof.
  intros sims line ui. repeat split.
  - apply line_ranked.
  - apply ui_ranked.
  - now apply line_stable.
  - now apply ui_stable.
Qed.

End Order.

Lemma ranking_is_non_increasing_witness :
  let sims := @Recommender.similarities Q Qscore "graph" Demo.vect Demo.X in
  let line := @Recommender.top_indices Q Qscore insertion_argsort sims 2 in
  let ui := @UI.top_indices Q Qscore insertion_argsort sims 2 in
  @Recommender.recommend_papers Q Qscore insertion_argsort
    "graph" Demo.corpus Demo.vect Demo.X 2 = Pd.iloc Demo.corpus line /\
  @UI.recommend_papers Q Qscore insertion_argsort
    "graph" Demo.corpus Demo.vect Demo.X 2 = Pd.iloc Demo.corpus ui /\
  @ranked Q Qscore sims line /\
  @ranked Q Qscore sims ui /\
  (Stable insertion_argsort ->
   @ties_in_corpus_order Q Qscore sims line /\
   @ties_in_reverse_order Q Qscore sims ui).
Proof.
  exact (@ranking_is_non_increasing Q Qscore Qscore_order insertion_argsort insertion_argsort_spec
           "graph" Demo.corpus Demo.vect Demo.X 2).
Defined.

(** Against [Demo.corpus], in double arithmetic, the query "neural"
    scores the first two records zero; the form-based surface returns
    them second and third, the later one first. *)
Lemma ui_breaks_corpus_order_of_ties :
  let sims := @UI.similarities _ binary64 "neural" Demo.vect64 Demo.X64 in
  @UI.recommend_papers _ binary64 insertion_argsort
    "neural" Demo.corpus Demo.vect64 Demo.X64 3
  = inr (Pd.DataFrame_of [Demo.nets; Demo.deadlocks; Demo.graphs]) /\
  nth_error sims 0 = Some (Binary64.of_Z 0) /\
  nth_error sims 1 = Some (Binary64.of_Z 0) /\
  ~ @ties_in_corpus_order _ binary64 sims
      (@UI.top_indices _ binary64 insertion_argsort sims 3).
Proof.
  cbv zeta. split; [vm_compute; reflexivity|].
  split; [vm_compute; reflexivity|].
  split; [vm_compute; reflexivity|].
  assert (E : @UI.top_indices _ binary64 insertion_argsort
                (@UI.similarities _ binary64 "neural" Demo.vect64 Demo.X64) 3
              = [2; 1; 0]%nat) by (vm_compute; reflexivity).
  rewrite E. unfold ties_in_corpus_order. intros H.
  inversion H as [|? ? H1 _]; subst.
  inversion H1 as [|? ? _ H10]; subst.
  inversion H10 as [|? ? [_ Hlt] _]; subst.
  assert (Hge : @ge_at _ binary64
                  (@UI.similarities _ binary64 "neural" Demo.vect64 Demo.X64)
                  0 1)
    by (vm_compute; reflexivity).
  apply Hlt in Hge. lia.
Qed.

(* ================================================================== *)
(** * Rows picked by position *)
(* ================================================================== *)

Lemma mapM_map {T U} (f : T -> option U) (e : Py.Exn) (l : list T) (us : list U) :
  map f l = map Some us ->
  Py.mapM (fun x => match f x with
                    | Some u => Py.ret u
                    | None => Py.raise e
                    end) l = inr us.
Proof.
  revert us. induction l as [|x l IH]; intros [|u us] E; simpl in *;
    try discriminate; [reflexivity|].
  injection E as E1 E2. rewrite E1. simpl. now rewrite (IH us E2).
Qed.

Lemma nth_error_seq_slice {T} (l : list T) (b : nat) : forall a,
  (a + b <= List.length l)%nat ->
  map (nth_error l) (seq a b) = map Some (firstn b (skipn a l)).
Proof.
  induction b as [|b IH]; intros a Hab; simpl; [reflexivity|].
  destruct (skipn a l) as [|x r] eqn:Es.
  - assert (List.length (skipn a l) = 0%nat) by now rewrite Es.
    rewrite List.length_skipn in *. lia.
  - simpl. f_equal.
    + rewrite <- (firstn_skipn a l) at 1.
      rewrite nth_error_app2; rewrite List.length_firstn; [|lia].
      replace (a - Nat.min a (List.length l))%nat with 0%nat by lia.
      now rewrite Es.
    + rewrite IH by lia. do 2 f_equal.
      replace (S a) with (1 + a)%nat by lia.
      now rewrite <- skipn_skipn, Es.
Qed.

(** The rows at the positions [a, a+1, ..., a+b-1]. *)
Lemma iloc_seq (df : Pd.DataFrame) (a b : nat) :
  (a + b <= Pd.len df)%nat ->
  Pd.iloc df (seq a b)
  = inr {| Pd.columns := Pd.columns df;
           Pd.rows := firstn b (skipn a (Pd.rows df)) |}.
Proof.
  intros Hab. unfold Pd.iloc.
  rewrite (mapM_map (nth_error (Pd.rows df)) Py.IndexError (seq a b)
             (firstn b (skipn a (Pd.rows df)))); [reflexivity|].
  now apply nth_error_seq_slice.
Qed.

(** The same rows, last first. *)
Lemma iloc_rev_seq (df : Pd.DataFrame) (a b : nat) :
  (a + b <= Pd.len df)%nat ->
  Pd.iloc df (rev (seq a b))
  = inr {| Pd.columns := Pd.columns df;
           Pd.rows := rev (firstn b (skipn a (Pd.rows df))) |}.
Proof.
  intros Hab. unfold Pd.iloc.
  rewrite (mapM_map (nth_error (Pd.rows df)) Py.IndexError (rev (seq a b))
             (rev (firstn b (skipn a (Pd.rows df))))); [reflexivity|].
  rewrite !map_rev. f_equal. now apply nth_error_seq_slice.
Qed.

Lemma firstn_of_seq (k : nat) : forall a n,
  firstn k (seq a n) = seq a (Nat.min k n).
Proof.
  induction k as [|k IH]; intros a [|n]; simpl; try reflexivity.
  now rewrite IH.
Qed.

Lemma StronglySorted_lt_seq (b : nat) : forall a, StronglySorted lt (seq a b).
Proof.
  induction b as [|b IH]; intros a; simpl; constructor; [apply IH|].
  rewrite Forall_forall. intros x Hx. apply in_seq in Hx. lia.
Qed.

(* ================================================================== *)
(** * A query that shares no term with the vocabulary *)
(* ================================================================== *)

Lemma mem_In (t : string) (l : list string) : Sk.mem t l = true <-> In t l.
Proof.
  unfold Sk.mem. rewrite existsb_exists. split.
  - intros (u & Hu & E). apply String.eqb_eq in E. now subst.
  - intros H. exists t. split; [assumption | apply String.eqb_refl].
Qed.

Lemma count_absent (t : string) (tokens : list string) :
  Sk.mem t tokens = false -> Sk.count t tokens = 0%nat.
Proof.
  unfold Sk.mem, Sk.count. induction tokens as [|u tokens IH]; simpl;
    [reflexivity|].
  destruct (String.eqb t u); simpl; [discriminate | exact IH].
Qed.

Lemma count_row_absent (vocab tokens : list string) :
  forallb (fun t => negb (Sk.mem t vocab)) tokens = true ->
  Sk.count_row vocab tokens = [].
Proof.
  intros Habs. unfold Sk.count_row.
  assert (Hzero : Forall (fun c => c = 0%nat)
                    (map (fun t => Sk.count t tokens) vocab)).
  { rewrite Forall_forall. intros c Hc. apply in_map_iff in Hc.
    destruct Hc as (t & <- & Ht). apply count_absent.
    destruct (Sk.mem t tokens) eqn:Em; [|reflexivity].
    apply mem_In in Em. rewrite forallb_forall in Habs.
    apply Habs in Em. apply negb_true_iff in Em.
    apply mem_In in Ht. congruence. }
  revert Hzero. generalize (map (fun t => Sk.count t tokens) vocab).
  generalize (seq 0 (List.length vocab)).
  intros js cs. revert js. induction cs as [|c cs IH]; intros [|j js] Hz;
    simpl; try reflexivity.
  inversion Hz; subst. simpl. now apply IH.
Qed.

Section UnknownQuery.
Context {F : Type} {FL : Float64 F} {FO : Float64Order FL} {A : ArgSort} {AS : ArgSortSpec A}.

Lemma tfidf_row_nil (idfs : list F) : Sk.tfidf_row idfs [] = [].
Proof.
  unfold Sk.tfidf_row, Sk.normalize. simpl. now destruct (feqb f0 f0).
Qed.

(** Sorting an array of equal values with a stable sort moves nothing. *)
Lemma stable_argsort_repeat (c : F) (n : nat) :
  Stable A -> argsort fleb (repeat c n) = seq 0 n.
Proof.
  intros Hst.
  apply (sorted_unique (R := lt)).
  - intros; lia.
  - eapply StronglySorted_weaken;
      [|apply Hst; [apply fleb_is_total | apply fleb_is_transitive]].
    intros a b Ha Hb [_ Hlt]. apply Hlt.
    apply argsort_in_range in Ha, Hb. rewrite repeat_length in Ha, Hb.
    unfold key_le. rewrite !nth_error_repeat by assumption.
    apply fleb_refl.
  - apply StronglySorted_lt_seq.
  - rewrite <- (repeat_length c n) at 2. apply argsort_perm.
Qed.

(** C3, as the code has it.  When no token of the query, stop words
    removed, is in the vocabulary, every record scores exactly zero.
    With a stable sort the line-mode surface then returns the first
    min(top_k, n) records in corpus order, and the form-based surface
    the last min(top_k, n) records in reverse corpus order. *)
Theorem unknown_query_scores_zero query df (vect : Sk.TfidfVectorizer F) X top_k :
  forallb (fun t => negb (Sk.mem t (Sk.vocabulary_ vect)))
          (Sk.analyze (Sk.stop_words vect) query) = true ->
  List.length X = Pd.len df ->
  0 < top_k ->
  let n := Pd.len df in
  let k := Nat.min (Z.to_nat top_k) n in
  Recommender.similarities query vect X = repeat f0 n /\
  UI.similarities query vect X = repeat f0 n /\
  (Stable A ->
   Recommender.recommend_papers query df vect X top_k
   = inr {| Pd.columns := Pd.columns df;
            Pd.rows := firstn k (Pd.rows df) |} /\
   UI.recommend_papers query df vect X top_k
   = inr {| Pd.columns := Pd.columns df;
            Pd.rows := rev (skipn (n - k) (Pd.rows df)) |}).
Proof.
  intros Habs HX Hk n k.
  assert (Hsims : Recommender.similarities query vect X = repeat f0 n).
  { rewrite similarities_eq. unfold query_row.
    rewrite (count_row_absent _ _ Habs), tfidf_row_nil.
    simpl. unfold n. rewrite <- HX. apply map_const. }
  split; [exact Hsims|]. split; [exact Hsims|].
  intros Hst. split.
  - unfold Recommender.recommend_papers, Recommender.top_indices.
    rewrite Hsims, map_repeat, stable_argsort_repeat by assumption.
    unfold Py.slice_to. rewrite List.length_seq, clip_nonneg by lia.
    fold k. rewrite firstn_of_seq.
    replace (Nat.min k n) with k by (unfold k; lia).
    rewrite iloc_seq by (unfold k, n; lia). reflexivity.
  - unfold UI.recommend_papers, UI.top_indices.
    change (UI.similarities query vect X)
      with (Recommender.similarities query vect X).
    rewrite Hsims, stable_argsort_repeat by assumption.
    unfold Py.reversed, Py.slice_from.
    rewrite List.length_seq, clip_neg by lia.
    replace (n - Z.to_nat (- - top_k))%nat with (n - k)%nat
      by (unfold k; lia).
    rewrite skipn_seq.
    replace (n - (n - k))%nat with k by (unfold k; lia).
    rewrite iloc_rev_seq by (unfold k, n; lia).
    do 3 f_equal. simpl.
    rewrite firstn_all2; [reflexivity|].
    rewrite List.length_skipn. unfold k, n, Pd.len. lia.
Qed.

End UnknownQuery.

(** "the zzz" against [Demo.corpus]: a stop word and a word the corpus
    does not have. *)
Lemma unknown_query_scores_zero_witness :
  @Recommender.similarities Q Qscore "the zzz" Demo.vect Demo.X
  = [0%Q; 0%Q; 0%Q] /\
  @UI.similarities Q Qscore "the zzz" Demo.vect Demo.X = [0%Q; 0%Q; 0%Q] /\
  (Stable insertion_argsort ->
   @Recommender.recommend_papers Q Qscore insertion_argsort
     "the zzz" Demo.corpus Demo.vect Demo.X 2
   = inr {| Pd.columns := Pd.paper_keys;
            Pd.rows := [Demo.graphs; Demo.deadlocks] |} /\
   @UI.recommend_papers Q Qscore insertion_argsort
     "the zzz" Demo.corpus Demo.vect Demo.X 2
   = inr {| Pd.columns := Pd.paper_keys;
            Pd.rows := [Demo.nets; Demo.deadlocks] |}).
Proof.
  exact (@unknown_query_scores_zero Q Qscore Qscore_order insertion_argsort insertion_argsort_spec
           "the zzz" Demo.corpus Demo.vect Demo.X 2 eq_refl eq_refl eq_refl).
Defined.

(** The form-based surface does not return the records of equal (zero)
    score in corpus order: asked for two, in double arithmetic, it
    returns the third record and then the second. *)
Lemma ui_reverses_unknown_query :
  @UI.similarities _ binary64 "the zzz" Demo.vect64 Demo.X64
  = [Binary64.of_Z 0; Binary64.of_Z 0; Binary64.of_Z 0] /\
  @UI.recommend_papers _ binary64 insertion_argsort
    "the zzz" Demo.corpus Demo.vect64 Demo.X64 2
  = inr (Pd.DataFrame_of [Demo.nets; Demo.deadlocks]) /\
  @UI.recommend_papers _ binary64 insertion_argsort
    "the zzz" Demo.corpus Demo.vect64 Demo.X64 2
  <> inr (Pd.DataFrame_of [Demo.graphs; Demo.deadlocks]).
Proof.
  split; [vm_compute; reflexivity|].
  split; [vm_compute; reflexivity|].
  vm_compute. discriminate.
Qed.

(* ================================================================== *)
(** * The two surfaces compared *)
(* ================================================================== *)

Section Surfaces.
Context {F : Type} {FL : Float64 F} {FO : Float64Order FL} {A : ArgSort} {AS : ArgSortSpec A}.

(** Without ties, sorting the negated scores upwards is sorting the
    scores upwards and reversing. *)
Lemma argsort_opp_rev (sims : list F) :
  no_ties sims ->
  argsort fleb (map fopp sims) = rev (argsort fleb sims).
Proof.
  intros Hnt. apply (sorted_unique (R := ge_at sims)).
  - intros a b _ _. apply Hnt.
  - eapply StronglySorted_weaken;
      [|apply argsort_sorted; [apply fleb_is_total | apply fleb_is_transitive]].
    intros a b _ _. apply key_le_opp.
  - apply (StronglySorted_rev (R := key_le fleb sims)).
    apply argsort_sorted; [apply fleb_is_total | apply fleb_is_transitive].
  - rewrite <- Permutation_rev.
    rewrite (argsort_perm fleb (map fopp sims)), List.length_map.
    symmetry. apply argsort_perm.
Qed.

(** Ascending order, reversed, is descending order. *)
Lemma rev_argsort_ranked (sims : list F) :
  StronglySorted (ge_at sims) (rev (argsort fleb sims)).
Proof.
  apply (StronglySorted_rev (R := key_le fleb sims)).
  apply argsort_sorted; [apply fleb_is_total | apply fleb_is_transitive].
Qed.

Lemma argsort_opp_ranked (sims : list F) :
  StronglySorted (ge_at sims) (argsort fleb (map fopp sims)).
Proof.
  eapply StronglySorted_weaken;
    [|apply argsort_sorted; [apply fleb_is_total | apply fleb_is_transitive]].
  intros a b _ _. apply key_le_opp.
Qed.

(** C7, as the code has it.  For top_k > 0 the two surfaces return the
    same number of records, min(top_k, n); and they return the same
    records in the same order whenever none of the records the
    line-mode surface returns has the score of another record of the
    corpus.  Ties among the records that are left out do not matter. *)
Theorem surfaces_agree_on_untied_records
        query df (vect : Sk.TfidfVectorizer F) X top_k :
  List.length X = Pd.len df ->
  0 < top_k ->
  let sims := Recommender.similarities query vect X in
  (exists line form,
      Recommender.recommend_papers query df vect X top_k = inr line /\
      UI.recommend_papers query df vect X top_k = inr form /\
      Pd.len line = Nat.min (Z.to_nat top_k) (Pd.len df) /\
      Pd.len form = Pd.len line) /\
  (untied sims (Recommender.top_indices sims top_k) ->
   UI.recommend_papers query df vect X top_k
   = Recommender.recommend_papers query df vect X top_k).
Proof.
  intros HX Hk sims. split.
  - destruct (line_returns query df vect X top_k HX) as (line & Hline & Hl).
    destruct (ui_returns query df vect X top_k HX) as (form & Hform & Hf).
    exists line, form. split; [exact Hline|]. split; [exact Hform|].
    change (UI.similarities query vect X) with sims in Hf.
    fold sims in Hl.
    rewrite length_line in Hl by assumption.
    rewrite length_ui in Hf by assumption.
    unfold sims in Hl, Hf. rewrite length_similarities, HX in Hl, Hf.
    split; congruence.
  - intros Hu.
    unfold UI.recommend_papers, Recommender.recommend_papers.
    change (UI.similarities query vect X) with sims.
    fold sims. f_equal.
    unfold UI.top_indices. rewrite last_reversed by assumption.
    unfold Recommender.top_indices, Py.slice_to, Py.reversed in *.
    rewrite List.length_rev, !length_argsort, List.length_map in *.
    symmetry. apply (sorted_prefix_unique (R := ge_at sims)).
    + intros a b Ha _. now apply Hu.
    + apply argsort_opp_ranked.
    + apply rev_argsort_ranked.
    + rewrite <- Permutation_rev.
      rewrite (argsort_perm fleb (map fopp sims)), List.length_map.
      symmetry. apply argsort_perm.
Qed.

End Surfaces.

(** "neural" scores the last record of [Demo.corpus] above the two
    others, which tie at zero: asked for one record, both surfaces
    return the last. *)
Lemma demo_untied :
  @untied Q Qscore
    (@Recommender.similarities Q Qscore "neural" Demo.vect Demo.X)
    (@Recommender.top_indices Q Qscore insertion_argsort
       (@Recommender.similarities Q Qscore "neural" Demo.vect Demo.X) 1).
Proof.
  intros i j Hi. vm_compute in Hi. destruct Hi as [<-|[]].
  destruct j as [|[|[|[|j]]]]; vm_compute; intros H1 H2;
    try reflexivity; try discriminate; try contradiction.
Qed.

Lemma surfaces_agree_on_untied_records_witness :
  (exists line form,
      @Recommender.recommend_papers Q Qscore insertion_argsort
        "neural" Demo.corpus Demo.vect Demo.X 1 = inr line /\
      @UI.recommend_papers Q Qscore insertion_argsort
        "neural" Demo.corpus Demo.vect Demo.X 1 = inr form /\
      Pd.len line = Nat.min (Z.to_nat 1) (Pd.len Demo.corpus) /\
      Pd.len form = Pd.len line) /\
  @UI.recommend_papers Q Qscore insertion_argsort
    "neural" Demo.corpus Demo.vect Demo.X 1
  = @Recommender.recommend_papers Q Qscore insertion_argsort
      "neural" Demo.corpus Demo.vect Demo.X 1.
Proof.
  destruct (@surfaces_agree_on_untied_records Q Qscore Qscore_order
              insertion_argsort insertion_argsort_spec
              "neural" Demo.corpus Demo.vect Demo.X 1 eq_refl eq_refl)
    as [Hsame Hagree].
  split; [exact Hsame | exact (Hagree demo_untied)].
Defined.

(** In double arithmetic "neural" scores the first two records of
    [Demo.corpus] zero: the line-mode surface returns them in corpus
    order, the form-based one in the opposite order. *)
Lemma surfaces_differ_on_ties :
  @Recommender.recommend_papers _ binary64 insertion_argsort
    "neural" Demo.corpus Demo.vect64 Demo.X64 3
  = inr (Pd.DataFrame_of [Demo.nets; Demo.graphs; Demo.deadlocks]) /\
  @UI.recommend_papers _ binary64 insertion_argsort
    "neural" Demo.corpus Demo.vect64 Demo.X64 3
  = inr (Pd.DataFrame_of [Demo.nets; Demo.deadlocks; Demo.graphs]) /\
  @UI.recommend_papers _ binary64 insertion_argsort
    "neural" Demo.corpus Demo.vect64 Demo.X64 3
  <> @Recommender.recommend_papers _ binary64 insertion_argsort
       "neural" Demo.corpus Demo.vect64 Demo.X64 3.
Proof.
  split; [vm_compute; reflexivity|].
  split; [vm_compute; reflexivity|].
  vm_compute. discriminate.
Qed.

(* ================================================================== *)
(** * Fetching *)
(* ================================================================== *)

Section Fetch.
Context {F : Type} {FL : Float64 F} {A : ArgSort} {AS : ArgSortSpec A}.

(** C5. When the API answers every request with a status other than
    200, [fetch_arxiv_papers] returns, on both surfaces, the empty table:
    zero records, and the very value it returns when the API answers 200
    with no entry.  [build_tfidf] on that table raises (a [KeyError],
    the empty table having no 'text' column) and returns no index. *)
Theorem failed_fetch_is_empty_corpus
        (failing nothing : Http.Get) (english : list string)
        (topic category keywords : string) :
  (forall url params, exists r,
      failing url params = inr r /\ Http.status_code r <> 200) ->
  (forall url params, exists r,
      nothing url params = inr r /\ Http.status_code r = 200 /\
      Http.entries r = inr []) ->
  Recommender.fetch_arxiv_papers failing topic category keywords
  = inr (Pd.DataFrame_of []) /\
  UI.fetch_arxiv_papers failing topic category keywords
  = inr (Pd.DataFrame_of []) /\
  Pd.len (Pd.DataFrame_of []) = 0%nat /\
  Recommender.fetch_arxiv_papers nothing topic category keywords
  = Recommender.fetch_arxiv_papers failing topic category keywords /\
  UI.fetch_arxiv_papers nothing topic category keywords
  = UI.fetch_arxiv_papers failing topic category keywords /\
  Recommender.build_tfidf english (Pd.DataFrame_of [])
  = inl (Py.KeyError "text") /\
  UI.build_tfidf english (Pd.DataFrame_of []) = inl (Py.KeyError "text").
Proof.
  intros Hfail Hnone.
  assert (E1 : Recommender.fetch_arxiv_papers failing topic category keywords
               = inr (Pd.DataFrame_of [])).
  { unfold Recommender.fetch_arxiv_papers.
    destruct (Hfail Recommender.ARXIV_URL
                (Recommender.search_params Recommender.MAX_RESULTS
                   category keywords)) as (r & -> & Hr).
    simpl. now destruct (Z.eqb_spec (Http.status_code r) 200). }
  assert (E2 : UI.fetch_arxiv_papers failing topic category keywords
               = inr (Pd.DataFrame_of [])).
  { unfold UI.fetch_arxiv_papers.
    destruct (Hfail UI.ARXIV_URL
                (Recommender.search_params UI.MAX_RESULTS
                   category keywords)) as (r & -> & Hr).
    simpl. now destruct (Z.eqb_spec (Http.status_code r) 200). }
  rewrite E1, E2. repeat split.
  - unfold Recommender.fetch_arxiv_papers.
    destruct (Hnone Recommender.ARXIV_URL
                (Recommender.search_params Recommender.MAX_RESULTS
                   category keywords)) as (r & -> & Hr & He).
    simpl. now rewrite Hr, He.
  - unfold UI.fetch_arxiv_papers.
    destruct (Hnone UI.ARXIV_URL
                (Recommender.search_params UI.MAX_RESULTS
                   category keywords)) as (r & -> & Hr & He).
    simpl. now rewrite Hr, He.
Qed.

End Fetch.

Lemma failed_fetch_is_empty_corpus_witness :
  Recommender.fetch_arxiv_papers unavailable "DSA" "cs" "graph algorithms"
  = inr (Pd.DataFrame_of []) /\
  UI.fetch_arxiv_papers unavailable "DSA" "cs" "graph algorithms"
  = inr (Pd.DataFrame_of []) /\
  Pd.len (Pd.DataFrame_of []) = 0%nat /\
  Recommender.fetch_arxiv_papers no_match "DSA" "cs" "graph algorithms"
  = Recommender.fetch_arxiv_papers unavailable "DSA" "cs" "graph algorithms" /\
  UI.fetch_arxiv_papers no_match "DSA" "cs" "graph algorithms"
  = UI.fetch_arxiv_papers unavailable "DSA" "cs" "graph algorithms" /\
  @Recommender.build_tfidf Q Qscore insertion_argsort Demo.stop
    (Pd.DataFrame_of []) = inl (Py.KeyError "text") /\
  @UI.build_tfidf Q Qscore insertion_argsort Demo.stop
    (Pd.DataFrame_of []) = inl (Py.KeyError "text").
Proof.
  refine (@failed_fetch_is_empty_corpus Q Qscore insertion_argsort
            unavailable no_match Demo.stop "DSA" "cs" "graph algorithms" _ _).
  - intros url params. eexists. split; [reflexivity|]. simpl. discriminate.
  - intros url params. eexists. split; [reflexivity|]. split; reflexivity.
Defined.

(* ================================================================== *)
(** * The PDF link of an entry *)
(* ================================================================== *)

Lemma pdf_link_loop_step (acc : option string) link links :
  Recommender.pdf_link_loop acc (link :: links)
  = if is_pdf link
    then match Http.get "href" link with
         | Some href => Recommender.pdf_link_loop (Some href) links
         | None => Py.raise (Py.KeyError "href")
         end
    else Recommender.pdf_link_loop acc links.
Proof.
  unfold is_pdf. simpl. destruct (Http.get "title" link) as [t|]; [|reflexivity].
  now destruct (String.eqb t "pdf").
Qed.

Lemma pdf_link_loop_last links : forall acc r,
  Recommender.pdf_link_loop acc links = inr r ->
  r = match last_pdf links with
      | Some l => Http.get "href" l
      | None => acc
      end /\
  (forall l, last_pdf links = Some l -> Http.get "href" l <> None).
Proof.
  induction links as [|link links IH]; intros acc r H.
  - simpl in *. injection H as <-. split; [reflexivity | discriminate].
  - rewrite pdf_link_loop_step in H. simpl.
    destruct (is_pdf link) eqn:Ep.
    + destruct (Http.get "href" link) as [href|] eqn:Eh; [|discriminate].
      destruct (IH _ _ H) as [Hr Hl].
      destruct (last_pdf links) as [l|]; split; try assumption.
      * subst r. now rewrite Eh.
      * intros l [= <-]. congruence.
    + destruct (IH _ _ H) as [Hr Hl].
      destruct (last_pdf links) as [l|]; split; assumption.
Qed.

Lemma last_pdf_none links :
  last_pdf links = None <-> (forall l, In l links -> is_pdf l = false).
Proof.
  induction links as [|link links IH]; simpl.
  - split; [intros _ l [] | reflexivity].
  - destruct (last_pdf links) as [l|].
    + split; [discriminate|]. intros H.
      assert (Some l = None); [|discriminate].
      apply IH. intros l' Hl'. apply H. now right.
    + destruct (is_pdf link) eqn:Ep.
      * split; [discriminate|]. intros H.
        rewrite (H link) in Ep by now left. discriminate.
      * split; [|reflexivity]. intros _ l [<-|Hl]; [assumption|].
        now apply IH.
Qed.

(** When every link titled "pdf" has a URL, the loop returns. *)
Lemma pdf_link_loop_returns links : forall acc,
  (forall l, In l links -> is_pdf l = true -> Http.get "href" l <> None) ->
  exists r, Recommender.pdf_link_loop acc links = inr r.
Proof.
  induction links as [|link links IH]; intros acc Hh.
  - now exists acc.
  - rewrite pdf_link_loop_step. destruct (is_pdf link) eqn:Ep.
    + destruct (Http.get "href" link) as [href|] eqn:Eh.
      * apply IH. intros l Hl. apply Hh. now right.
      * exfalso. exact (Hh link (or_introl eq_refl) Ep Eh).
    + apply IH. intros l Hl. apply Hh. now right.
Qed.

Lemma parse_entry_pdf_link (e : Http.Entry) (p : Pd.Paper) :
  Recommender.parse_entry e = inr p ->
  Recommender.pdf_link_loop None (Http.e_links e) = inr (Pd.pdf_link p).
Proof.
  unfold Recommender.parse_entry, Py.bind.
  destruct (Recommender.clean_text (Http.e_title e)); [discriminate|].
  destruct (Recommender.clean_text (Http.e_summary e)); [discriminate|].
  destruct (Recommender.pdf_link_loop None (Http.e_links e)); [discriminate|].
  destruct (Recommender.author_names (Http.e_authors e)); [discriminate|].
  destruct (Recommender.published_date (Http.e_published e)); [discriminate|].
  now intros [= <-].
Qed.

(** C6, as the code has it.  The [pdf_link] of a parsed entry is the URL
    of the LAST link whose title is "pdf" (the loop does not stop at the
    first), and it is [None] exactly when the entry has no link with
    that title.  Both surfaces parse an entry with the same code. *)
Theorem pdf_link_is_last_pdf_titled_link (e : Http.Entry) (p : Pd.Paper) :
  Recommender.parse_entry e = inr p ->
  UI.parse_entry e = inr p /\
  Pd.pdf_link p = href_of (last_pdf (Http.e_links e)) /\
  (Pd.pdf_link p = None <->
   forall l, In l (Http.e_links e) -> Http.get "title" l <> Some "pdf").
Proof.
  intros Hp. split; [exact Hp|].
  apply parse_entry_pdf_link, pdf_link_loop_last in Hp.
  destruct Hp as [Hr Hl].
  assert (Hnone : last_pdf (Http.e_links e) = None <->
                  forall l, In l (Http.e_links e) ->
                            Http.get "title" l <> Some "pdf").
  { rewrite last_pdf_none. split; intros H l Hin; specialize (H l Hin).
    - unfold is_pdf in H. intros E. rewrite E in H. discriminate.
    - unfold is_pdf. destruct (Http.get "title" l) as [t|]; [|reflexivity].
      destruct (String.eqb_spec t "pdf"); [subst; congruence | reflexivity]. }
  rewrite <- Hnone.
  destruct (last_pdf (Http.e_links e)) as [l|] eqn:El; simpl.
  - split; [assumption|]. split; [|discriminate].
    intros E. rewrite E in Hr. symmetry in Hr. now apply Hl in Hr.
  - split; [assumption|]. now split.
Qed.

Lemma pdf_link_is_last_pdf_titled_link_witness :
  UI.parse_entry two_pdfs = inr two_pdfs_paper /\
  Pd.pdf_link two_pdfs_paper = Some "http://arxiv.org/pdf/1v2" /\
  (Pd.pdf_link two_pdfs_paper = None <->
   forall l, In l (Http.e_links two_pdfs) -> Http.get "title" l <> Some "pdf").
Proof.
  exact (@pdf_link_is_last_pdf_titled_link two_pdfs two_pdfs_paper eq_refl).
Defined.

(** The record does not carry the URL of the first link titled "pdf". *)
Lemma pdf_link_is_not_the_first :
  Recommender.parse_entry two_pdfs = inr two_pdfs_paper /\
  href_of (first_pdf (Http.e_links two_pdfs)) = Some "http://arxiv.org/pdf/1v1" /\
  Pd.pdf_link two_pdfs_paper <> href_of (first_pdf (Http.e_links two_pdfs)).
Proof.
  split; [reflexivity|]. split; [reflexivity|]. vm_compute. discriminate.
Qed.

(* ================================================================== *)
(** * Decimal numerals read back *)
(* ================================================================== *)

Lemma digit_char_facts (d : nat) :
  (d < 10)%nat ->
  Py.isdigit (Py.digit_char d) = true /\
  Py.digit_val (Py.digit_char d) = Z.of_nat d /\
  Py.isspace (Py.digit_char d) = false.
Proof.
  intros Hd.
  destruct d as [|[|[|[|[|[|[|[|[|[|d]]]]]]]]]];
    [repeat split; reflexivity .. | lia].
Qed.

Lemma nat_digits_step (fuel n : nat) (acc : list ascii) :
  Py.nat_digits (S fuel) n acc
  = if (n <? 10)%nat then Py.digit_char (n mod 10) :: acc
    else Py.nat_digits fuel (n / 10) (Py.digit_char (n mod 10) :: acc).
Proof. reflexivity. Qed.

Lemma int_digits_digit (a : Z) (b : bool) (d : nat) (l : list ascii) :
  (d < 10)%nat ->
  Py.int_digits a b (Py.digit_char d :: l)
  = Py.int_digits (10 * a + Z.of_nat d) true l.
Proof.
  intros Hd. destruct (digit_char_facts Hd) as (H1 & H2 & _).
  cbn [Py.int_digits]. now rewrite H1, H2.
Qed.

Lemma int_digits_nat_digits (fuel : nat) : forall n acc b,
  (n < fuel)%nat ->
  Py.int_digits 0 b (Py.nat_digits fuel n acc)
  = Py.int_digits (Z.of_nat n) true acc.
Proof.
  induction fuel as [|fuel IH]; intros n acc b Hn; [lia|].
  rewrite nat_digits_step.
  assert (Hm : (n mod 10 < 10)%nat) by (apply Nat.mod_upper_bound; lia).
  destruct (Nat.ltb_spec n 10) as [Hlt|Hge].
  - rewrite int_digits_digit by assumption.
    f_equal. rewrite Nat.mod_small by assumption. lia.
  - assert (Hdiv : (n / 10 < fuel)%nat).
    { pose proof (Nat.div_lt n 10). lia. }
    rewrite (IH _ _ _ Hdiv), int_digits_digit by assumption.
    f_equal. pose proof (Nat.div_mod_eq n 10). lia.
Qed.

Lemma nat_digits_nonspace (fuel : nat) : forall n acc,
  Forall (fun c => Py.isspace c = false) acc ->
  Forall (fun c => Py.isspace c = false) (Py.nat_digits fuel n acc).
Proof.
  induction fuel as [|fuel IH]; intros n acc Hacc; [assumption|].
  rewrite nat_digits_step.
  assert (Hm : (n mod 10 < 10)%nat) by (apply Nat.mod_upper_bound; lia).
  destruct (digit_char_facts Hm) as (_ & _ & Hs).
  destruct (n <? 10)%nat; [|apply IH]; now constructor.
Qed.

Lemma lstrip_nonspace (l : list ascii) :
  Forall (fun c => Py.isspace c = false) l -> Py.lstrip_chars l = l.
Proof.
  intros H. destruct H as [|c l Hc _]; simpl; [reflexivity|]. now rewrite Hc.
Qed.

Lemma strip_nonspace (s : string) :
  Forall (fun c => Py.isspace c = false) (Py.chars s) -> Py.strip s = s.
Proof.
  intros H. unfold Py.strip.
  rewrite (lstrip_nonspace H), lstrip_nonspace by now apply Forall_rev.
  rewrite rev_involutive. apply string_of_list_ascii_of_string.
Qed.

Lemma nat_digits_isdigit (fuel : nat) : forall n acc,
  Forall (fun c => Py.isdigit c = true) acc ->
  Forall (fun c => Py.isdigit c = true) (Py.nat_digits fuel n acc).
Proof.
  induction fuel as [|fuel IH]; intros n acc Hacc; [assumption|].
  rewrite nat_digits_step.
  assert (Hm : (n mod 10 < 10)%nat) by (apply Nat.mod_upper_bound; lia).
  destruct (digit_char_facts Hm) as (Hd & _ & _).
  destruct (n <? 10)%nat; [|apply IH]; now constructor.
Qed.

Lemma filter_all {T} (f : T -> bool) (l : list T) :
  Forall (fun x => f x = true) l -> filter f l = l.
Proof.
  induction 1 as [|x l Hx _ IH]; simpl; [reflexivity|].
  now rewrite Hx, IH.
Qed.

Lemma nat_digits_head (fuel : nat) : forall n acc,
  exists d l, (d < 10)%nat /\
              Py.nat_digits (S fuel) n acc = Py.digit_char d :: l.
Proof.
  induction fuel as [|fuel IH]; intros n acc; rewrite nat_digits_step.
  - exists (n mod 10)%nat, acc.
    split; [apply Nat.mod_upper_bound; lia|]. now destruct (n <? 10)%nat.
  - destruct (n <? 10)%nat; [|apply IH].
    exists (n mod 10)%nat, acc.
    split; [apply Nat.mod_upper_bound; lia | reflexivity].
Qed.

(** A number below 10^(d+1) is written with d+1 digits at most, a
    number from 10^d on with more than d. *)
Lemma nat_digits_short (fuel : nat) : forall n acc d,
  (n < fuel)%nat ->
  Z.of_nat n < 10 ^ Z.of_nat (S d) ->
  (List.length (Py.nat_digits fuel n acc) <= S d + List.length acc)%nat.
Proof.
  induction fuel as [|fuel IH]; intros n acc d Hn Hd; [lia|].
  rewrite nat_digits_step.
  destruct (Nat.ltb_spec n 10) as [Hlt|Hge]; [simpl; lia|].
  assert (Hdiv : (n / 10 < fuel)%nat).
  { pose proof (Nat.div_lt n 10). lia. }
  rewrite Nat2Z.inj_succ, Z.pow_succ_r in Hd by lia.
  destruct d as [|d]; [simpl in Hd; lia|].
  eapply Nat.le_trans; [apply (IH _ _ d Hdiv)|simpl; lia].
  rewrite Nat2Z.inj_div. apply Z.div_lt_upper_bound; [lia|].
  exact Hd.
Qed.

Lemma nat_digits_long (fuel : nat) : forall n acc d,
  (n < fuel)%nat ->
  10 ^ Z.of_nat d <= Z.of_nat n ->
  (d + List.length acc < List.length (Py.nat_digits fuel n acc))%nat.
Proof.
  induction fuel as [|fuel IH]; intros n acc d Hn Hd; [lia|].
  rewrite nat_digits_step.
  destruct (Nat.ltb_spec n 10) as [Hlt|Hge].
  - destruct d as [|d]; [simpl; lia|].
    rewrite Nat2Z.inj_succ, Z.pow_succ_r in Hd by lia.
    assert (0 < 10 ^ Z.of_nat d) by (apply Z.pow_pos_nonneg; lia). lia.
  - assert (Hdiv : (n / 10 < fuel)%nat).
    { pose proof (Nat.div_lt n 10). lia. }
    destruct d as [|d].
    + eapply Nat.lt_trans; [|apply (IH _ _ 0%nat Hdiv)]; [simpl; lia|].
      rewrite Nat2Z.inj_div. simpl. apply Z.div_le_lower_bound; lia.
    + eapply Nat.le_lt_trans; [|apply (IH _ _ d Hdiv)]; [simpl; lia|].
      rewrite Nat2Z.inj_div. apply Z.div_le_lower_bound; [lia|].
      rewrite Nat2Z.inj_succ, Z.pow_succ_r in Hd by lia. exact Hd.
Qed.

(** The digits of a natural number are read back as the number when
    there are 4300 of them at most, and refused otherwise. *)
Lemma int_numeral_nat_digits (n : nat) :
  Py.int_numeral (Py.nat_digits (S n) n [])
  = if Z.of_nat n <? 10 ^ 4300 then Some (Z.of_nat n) else None.
Proof.
  unfold Py.int_numeral.
  rewrite filter_all by (apply nat_digits_isdigit; constructor).
  change (10 ^ 4300) with (10 ^ Z.of_nat (S 4299)).
  change Py.int_max_str_digits with (S 4299).
  generalize 4299%nat. intros m.
  destruct (Z.ltb_spec (Z.of_nat n) (10 ^ Z.of_nat (S m))) as [Hlt|Hge].
  - pose proof (@nat_digits_short (S n) n [] m (Nat.lt_succ_diag_r n) Hlt) as H.
    change (List.length (@nil ascii)) with 0%nat in H.
    rewrite Nat.add_0_r in H.
    apply Nat.leb_le in H. rewrite H.
    rewrite int_digits_nat_digits by lia. reflexivity.
  - pose proof (@nat_digits_long (S n) n [] (S m) (Nat.lt_succ_diag_r n) Hge) as H.
    change (List.length (@nil ascii)) with 0%nat in H.
    rewrite Nat.add_0_r in H.
    apply Nat.leb_gt in H. now rewrite H.
Qed.

Lemma int_of_digits (s : string) (c : ascii) (l : list ascii) :
  Py.chars (Py.strip s) = c :: l ->
  Py.isdigit c = true ->
  Py.int s = Py.int_numeral (c :: l).
Proof.
  unfold Py.int. intros -> Hc.
  destruct c as [[] [] [] [] [] [] [] []]; try discriminate Hc; reflexivity.
Qed.

(** [int(str(k))]: [k] when its numeral has 4300 digits at most, that
    is when |k| < 10^4300, and an exception otherwise; stripping the
    numeral changes nothing. *)
Lemma int_str_of_Z (k : Z) :
  Py.strip (Py.str_of_Z k) = Py.str_of_Z k /\
  String.eqb (Py.str_of_Z k) "" = false /\
  Py.int (Py.str_of_Z k)
  = if Z.abs k <? 10 ^ 4300 then Some k else None.
Proof.
  unfold Py.str_of_Z. destruct (Z.ltb_spec k 0) as [Hneg|Hpos].
  - unfold Py.str_of_nat, Py.str.
    set (n := Z.to_nat (- k)).
    set (ds := Py.nat_digits (S n) n []).
    assert (Hchars : Py.chars (String "-" (string_of_list_ascii ds))
                     = "-"%char :: ds).
    { unfold Py.chars. simpl. now rewrite list_ascii_of_string_of_list_ascii. }
    assert (Hstrip : Py.strip (String "-" (string_of_list_ascii ds))
                     = String "-" (string_of_list_ascii ds)).
    { apply strip_nonspace. rewrite Hchars. constructor; [reflexivity|].
      apply nat_digits_nonspace. constructor. }
    split; [exact Hstrip|]. split; [reflexivity|].
    unfold Py.int. rewrite Hstrip, Hchars.
    unfold ds. rewrite int_numeral_nat_digits.
    replace (Z.of_nat n) with (Z.abs k) by (unfold n; lia).
    destruct (Z.abs k <? 10 ^ 4300); simpl; [f_equal; lia | reflexivity].
  - unfold Py.str_of_nat, Py.str.
    set (n := Z.to_nat k).
    destruct (nat_digits_head n n []) as (d & l & Hd & Hds).
    assert (Hns : Forall (fun c => Py.isspace c = false)
                         (Py.nat_digits (S n) n []))
      by (apply nat_digits_nonspace; constructor).
    assert (Hchars : Py.chars (string_of_list_ascii (Py.nat_digits (S n) n []))
                     = Py.nat_digits (S n) n [])
      by apply list_ascii_of_string_of_list_ascii.
    assert (Hstrip : Py.strip (string_of_list_ascii (Py.nat_digits (S n) n []))
                     = string_of_list_ascii (Py.nat_digits (S n) n [])).
    { apply strip_nonspace. now rewrite Hchars. }
    split; [exact Hstrip|]. split; [rewrite Hds; reflexivity|].
    destruct (digit_char_facts Hd) as (Hdig & _ & _).
    rewrite (@int_of_digits _ (Py.digit_char d) l);
      [|now rewrite Hstrip, Hchars | exact Hdig].
    rewrite <- Hds, int_numeral_nat_digits.
    replace (Z.of_nat n) with (Z.abs k) by (unfold n; lia).
    destruct (Z.abs k <? 10 ^ 4300); [f_equal; lia | reflexivity].
Qed.

(* ================================================================== *)
(** * The line-mode loop *)
(* ================================================================== *)

Section Loop.
Context {F : Type} {FL : Float64 F} {A : ArgSort} {AS : ArgSortSpec A}.
Implicit Types (df : Pd.DataFrame) (vect : Sk.TfidfVectorizer F)
         (X : Sk.csr (F := F)) (stdin : list string).

(** What is not a numeral, and the empty line, read as 10. *)
Lemma unparsable_top_k_defaults (topk_s : string) :
  topk_s = "" \/ Py.int topk_s = None ->
  Recommender.read_top_k topk_s = 10.
Proof.
  unfold Recommender.read_top_k. intros [->|H]; [reflexivity|].
  rewrite H. now destruct (String.eqb topk_s "").
Qed.

(** A numeral is read as its value, whatever its sign. *)
Lemma parsable_top_k_is_kept (topk_s : string) (k : Z) :
  Py.int topk_s = Some k -> Recommender.read_top_k topk_s = k.
Proof.
  unfold Recommender.read_top_k. intros H. rewrite H.
  destruct (String.eqb_spec topk_s ""); [subst; discriminate | reflexivity].
Qed.

(** Each round of the loop reports what [recommend_papers] returns for
    its query on the index the loop was started with. *)
Lemma loop_rounds df vect X stdin :
  Forall (fun r => Recommender.recommend_papers
                     (Recommender.query r) df vect X (Recommender.top_k r)
                   = inr (Recommender.recs r))
         (fst (Recommender.loop df vect X stdin)).
Proof.
  enough (H : Forall (fun r => Recommender.recommend_papers
                            (Recommender.query r) df vect X (Recommender.top_k r)
                          = inr (Recommender.recs r))
                     (fst (Recommender.loop df vect X stdin)) /\
              forall line,
                Forall (fun r => Recommender.recommend_papers
                            (Recommender.query r) df vect X (Recommender.top_k r)
                          = inr (Recommender.recs r))
                       (fst (Recommender.loop df vect X (line :: stdin))))
    by apply H.
  induction stdin as [|line2 stdin [IH1 IH2]].
  - split; [constructor|]. intros line. cbn [Recommender.loop].
    destruct (Sk.mem (Py.lower (Py.strip line)) ["exit"; "quit"]); constructor.
  - split; [apply IH2|]. intros line.
    cbn [Recommender.loop].
    destruct (Sk.mem (Py.lower (Py.strip line)) ["exit"; "quit"]); [constructor|].
    destruct (Recommender.recommend_papers _ df vect X _) as [e|recs] eqn:Er;
      [constructor|].
    destruct (Recommender.loop df vect X stdin) as [rounds ending].
    simpl in *. constructor; assumption.
Qed.

(** C10.  For a corpus of n records and a negative t with |t| < n,
    [recommend_papers] called with top_k = t returns n - |t| records;
    and the line-mode loop reads the numeral of t as t and makes that
    call, t having 4300 digits at most (t > -10^4300: [int] refuses a
    longer numeral, and no corpus is that large). *)
Theorem negative_top_k_drops_last_records line df vect X (t : Z) :
  List.length X = Pd.len df ->
  t < 0 ->
  (Z.to_nat (- t) < Pd.len df)%nat ->
  Sk.mem (Py.lower (Py.strip line)) ["exit"; "quit"] = false ->
  exists res,
    Recommender.recommend_papers (Py.strip line) df vect X t = inr res /\
    Pd.len res = (Pd.len df - Z.to_nat (- t))%nat /\
    (- 10 ^ 4300 < t ->
     Recommender.loop df vect X [line; Py.str_of_Z t]
     = ([ {| Recommender.query := Py.strip line;
             Recommender.top_k := t;
             Recommender.recs := res |} ],
        Py.raise Py.EOFError)).
Proof.
  intros HX Ht Hn Hexit.
  destruct (line_returns (Py.strip line) df vect X t HX) as (res & Hres & Hlen).
  exists res. split; [exact Hres|]. split.
  - rewrite Hlen. unfold Recommender.top_indices.
    rewrite length_slice_to, length_argsort, List.length_map.
    rewrite length_similarities, HX. now apply clip_neg.
  - intros Hdigits.
    destruct (int_str_of_Z t) as (Hstrip & _ & Hint).
    assert (Hshort : (Z.abs t <? 10 ^ 4300) = true).
    { apply Z.ltb_lt. generalize dependent (10 ^ 4300). intros; lia. }
    rewrite Hshort in Hint.
    cbn [Recommender.loop]. rewrite Hexit, Hstrip.
    rewrite (parsable_top_k_is_kept _ Hint), Hres. reflexivity.
Qed.

End Loop.

(** top_k = -1 against the three records of [Demo.corpus]: two records. *)
Lemma negative_top_k_drops_last_records_witness :
  exists res,
    @Recommender.recommend_papers Q Qscore insertion_argsort
      "graph" Demo.corpus Demo.vect Demo.X (-1) = inr res /\
    Pd.len res = 2%nat /\
    @Recommender.loop Q Qscore insertion_argsort
      Demo.corpus Demo.vect Demo.X ["graph"; "-1"]
    = ([ {| Recommender.query := "graph";
            Recommender.top_k := -1;
            Recommender.recs := res |} ],
       Py.raise Py.EOFError).
Proof.
  assert (Hn : (Z.to_nat (- -1) < Pd.len Demo.corpus)%nat)
    by (vm_compute; lia).
  destruct (@negative_top_k_drops_last_records Q Qscore insertion_argsort
              insertion_argsort_spec
              "graph" Demo.corpus Demo.vect Demo.X (-1) eq_refl eq_refl Hn eq_refl)
    as (res & Hres & Hlen & Hloop).
  exists res. split; [exact Hres|]. split; [exact Hlen|].
  apply Hloop. vm_compute. reflexivity.
Defined.

(* ================================================================== *)
(** * The functions on shared objects *)
(* ================================================================== *)

Section StoreFacts.
Context {F : Type} {FL : Float64 F} {A : ArgSort}.
Local Open Scope list_scope.
Unset Implicit Arguments.
Implicit Types (h : Store.heap (F := F)) (o : Store.Obj (F := F))
         (df vect X : Store.ref).

Lemma extends_refl h : Store.extends h h.
Proof. exists []. now rewrite app_nil_r. Qed.

Lemma extends_trans h1 h2 h3 :
  Store.extends h1 h2 -> Store.extends h2 h3 -> Store.extends h1 h3.
Proof.
  intros (m1 & ->) (m2 & ->). exists (m1 ++ m2)%list. now rewrite app_assoc.
Qed.

Lemma extends_app h more : Store.extends h (h ++ more).
Proof. now exists more. Qed.

(** What a store holds, a store that extends it holds too. *)
Lemma holds_app h more r o :
  nth_error h r = Some o -> nth_error (h ++ more) r = Some o.
Proof.
  intros H. rewrite nth_error_app1; [exact H|].
  apply nth_error_Some. congruence.
Qed.

Lemma holds_extends h h' r o :
  Store.extends h h' -> nth_error h r = Some o -> nth_error h' r = Some o.
Proof. intros (more & ->). apply holds_app. Qed.

Lemma holds_last h o : nth_error (h ++ [o]) (List.length h) = Some o.
Proof. rewrite nth_error_app2, Nat.sub_diag by lia. reflexivity. Qed.

Lemma bind_run {T U} (m : Store.St T) (k : T -> Store.St U) h x h' :
  m h = (inr x, h') -> Store.bind m k h = k x h'.
Proof. unfold Store.bind. now intros ->. Qed.

Lemma bind_raise {T U} (m : Store.St T) (k : T -> Store.St U) h e h' :
  m h = (inl e, h') -> Store.bind m k h = (inl e, h').
Proof. unfold Store.bind. now intros ->. Qed.

Lemma run_frame h r d :
  nth_error h r = Some (Store.Frame d) -> Store.frame r h = (inr d, h).
Proof. intros H. unfold Store.frame, Store.bind, Store.deref. now rewrite H. Qed.

Lemma run_vectorizer h r v :
  nth_error h r = Some (Store.Vectorizer v) -> Store.vectorizer r h = (inr v, h).
Proof.
  intros H. unfold Store.vectorizer, Store.bind, Store.deref. now rewrite H.
Qed.

Lemma run_matrix h r m :
  nth_error h r = Some (Store.Matrix m) -> Store.matrix r h = (inr m, h).
Proof. intros H. unfold Store.matrix, Store.bind, Store.deref. now rewrite H. Qed.

Lemma run_dense h r a :
  nth_error h r = Some (Store.Dense a) -> Store.dense r h = (inr a, h).
Proof. intros H. unfold Store.dense, Store.bind, Store.deref. now rewrite H. Qed.

Lemma run_floats h r a :
  nth_error h r = Some (Store.Floats a) -> Store.floats r h = (inr a, h).
Proof. intros H. unfold Store.floats, Store.bind, Store.deref. now rewrite H. Qed.

Lemma run_ints h r a :
  nth_error h r = Some (Store.Ints a) -> Store.ints r h = (inr a, h).
Proof. intros H. unfold Store.ints, Store.bind, Store.deref. now rewrite H. Qed.

(** Each library call of [recommend_papers] leaves the store as it was
    and adds its result. *)
Lemma run_transform h vect v docs :
  nth_error h vect = Some (Store.Vectorizer v) ->
  Store.transform vect docs h
  = (inr (List.length h), h ++ [Store.Matrix (Sk.transform v docs)])%list.
Proof.
  intros H. unfold Store.transform.
  now rewrite (bind_run _ _ _ _ _ (run_vectorizer _ _ _ H)).
Qed.

Lemma run_linear_kernel h Q X q x :
  nth_error h Q = Some (Store.Matrix q) ->
  nth_error h X = Some (Store.Matrix x) ->
  Store.linear_kernel Q X h
  = (inr (List.length h), h ++ [Store.Dense (Sk.linear_kernel q x)])%list.
Proof.
  intros HQ HX. unfold Store.linear_kernel.
  rewrite (bind_run _ _ _ _ _ (run_matrix _ _ _ HQ)).
  now rewrite (bind_run _ _ _ _ _ (run_matrix _ _ _ HX)).
Qed.

Lemma run_flatten h r a :
  nth_error h r = Some (Store.Dense a) ->
  Store.flatten r h
  = (inr (List.length h), h ++ [Store.Floats (Sk.flatten a)])%list.
Proof.
  intros H. unfold Store.flatten. now rewrite (bind_run _ _ _ _ _ (run_dense _ _ _ H)).
Qed.

Lemma run_negative h r a :
  nth_error h r = Some (Store.Floats a) ->
  Store.negative r h
  = (inr (List.length h), h ++ [Store.Floats (map fopp a)])%list.
Proof.
  intros H. unfold Store.negative. now rewrite (bind_run _ _ _ _ _ (run_floats _ _ _ H)).
Qed.

Lemma run_np_argsort h r a :
  nth_error h r = Some (Store.Floats a) ->
  Store.np_argsort r h
  = (inr (List.length h), h ++ [Store.Ints (argsort fleb a)])%list.
Proof.
  intros H. unfold Store.np_argsort. now rewrite (bind_run _ _ _ _ _ (run_floats _ _ _ H)).
Qed.

Lemma run_slice_to h r a k :
  nth_error h r = Some (Store.Ints a) ->
  Store.slice_to k r h
  = (inr (List.length h), h ++ [Store.Ints (Py.slice_to k a)])%list.
Proof.
  intros H. unfold Store.slice_to. now rewrite (bind_run _ _ _ _ _ (run_ints _ _ _ H)).
Qed.

Lemma run_iloc h df idx d i :
  nth_error h df = Some (Store.Frame d) ->
  nth_error h idx = Some (Store.Ints i) ->
  Store.iloc df idx h
  = match Pd.iloc d i with
    | inl e => (inl e, h)
    | inr res => (inr (List.length h), h ++ [Store.Frame res])%list
    end.
Proof.
  intros Hd Hi. unfold Store.iloc.
  rewrite (bind_run _ _ _ _ _ (run_frame _ _ _ Hd)), (bind_run _ _ _ _ _ (run_ints _ _ _ Hi)).
  unfold Store.bind, Store.lift. now destruct (Pd.iloc d i).
Qed.

Lemma run_copy h r d :
  nth_error h r = Some (Store.Frame d) ->
  Store.copy r h = (inr (List.length h), h ++ [Store.Frame d])%list.
Proof.
  intros H. unfold Store.copy. now rewrite (bind_run _ _ _ _ _ (run_frame _ _ _ H)).
Qed.

Lemma run_reset_index h r d :
  nth_error h r = Some (Store.Frame d) ->
  Store.reset_index r h = (inr (List.length h), h ++ [Store.Frame d])%list.
Proof.
  intros H. unfold Store.reset_index. now rewrite (bind_run _ _ _ _ _ (run_frame _ _ _ H)).
Qed.

(** [recommend_papers] on references returns what [recommend_papers]
    on the objects' values returns, in a new object, and changes none
    of the objects that were there. *)
Lemma recommend_papers_run h df vect X d v m query top_k :
  nth_error h df = Some (Store.Frame d) ->
  nth_error h vect = Some (Store.Vectorizer v) ->
  nth_error h X = Some (Store.Matrix m) ->
  exists h',
    Store.extends h h' /\
    Store.bind (Store.recommend_papers query df vect X top_k)
               (fun recs => Store.frame recs) h
    = (Recommender.recommend_papers query d v m top_k, h').
Proof.
  intros Hd Hv Hm. unfold Store.recommend_papers.
  set (qv := Sk.transform v [query]).
  set (sims := Sk.flatten (Sk.linear_kernel qv m)).
  set (idx := Py.slice_to top_k (argsort fleb (map fopp sims))).
  set (h1 := (h ++ [Store.Matrix qv])%list).
  set (h2 := (h1 ++ [Store.Dense (Sk.linear_kernel qv m)])%list).
  set (h3 := (h2 ++ [Store.Floats sims])%list).
  set (h4 := (h3 ++ [Store.Floats (map fopp sims)])%list).
  set (h5 := (h4 ++ [Store.Ints (argsort fleb (map fopp sims))])%list).
  set (h6 := (h5 ++ [Store.Ints idx])%list).
  assert (E1 : Store.extends h h1) by apply extends_app.
  assert (E2 : Store.extends h h2) by (eapply extends_trans; [exact E1 | apply extends_app]).
  assert (E3 : Store.extends h h3) by (eapply extends_trans; [exact E2 | apply extends_app]).
  assert (E4 : Store.extends h h4) by (eapply extends_trans; [exact E3 | apply extends_app]).
  assert (E5 : Store.extends h h5) by (eapply extends_trans; [exact E4 | apply extends_app]).
  assert (E6 : Store.extends h h6) by (eapply extends_trans; [exact E5 | apply extends_app]).
  assert (R1 : Store.transform vect [query] h = (inr (List.length h), h1))
    by (apply run_transform; exact Hv).
  assert (R2 : Store.linear_kernel (List.length h) X h1 = (inr (List.length h1), h2)).
  { apply run_linear_kernel; [apply holds_last | exact (holds_extends _ _ _ _ E1 Hm)]. }
  assert (R3 : Store.flatten (List.length h1) h2 = (inr (List.length h2), h3))
    by (apply run_flatten, holds_last).
  assert (R4 : Store.negative (List.length h2) h3 = (inr (List.length h3), h4))
    by (apply run_negative, holds_last).
  assert (R5 : Store.np_argsort (List.length h3) h4 = (inr (List.length h4), h5))
    by (apply run_np_argsort, holds_last).
  assert (R6 : Store.slice_to top_k (List.length h4) h5 = (inr (List.length h5), h6))
    by (apply run_slice_to, holds_last).
  pose proof (run_iloc h6 df (List.length h5) d idx
                (holds_extends _ _ _ _ E6 Hd) (holds_last _ _)) as R7.
  unfold Store.bind at 1.
  rewrite (bind_run _ _ _ _ _ R1), (bind_run _ _ _ _ _ R2),
    (bind_run _ _ _ _ _ R3), (bind_run _ _ _ _ _ R4),
    (bind_run _ _ _ _ _ R5), (bind_run _ _ _ _ _ R6).
  change (Recommender.recommend_papers query d v m top_k) with (Pd.iloc d idx).
  destruct (Pd.iloc d idx) as [e|res].
  - rewrite (bind_raise _ _ _ _ _ R7). exists h6. now split.
  - rewrite (bind_run _ _ _ _ _ R7).
    rewrite (bind_run _ _ _ _ _
               (run_copy _ _ _ (holds_last h6 (Store.Frame res)))).
    rewrite (run_reset_index _ _ _ (holds_last _ (Store.Frame res))).
    cbv iota beta.
    rewrite (run_frame _ _ _ (holds_last _ (Store.Frame res))).
    eexists. split; [|reflexivity].
    eapply extends_trans; [exact E6|].
    eapply extends_trans; [apply extends_app|].
    eapply extends_trans; apply extends_app.
Qed.

(** The loop on references reports, round after round, what the loop
    on the values the references had at the start reports: no round
    sees anything of the rounds before it. *)
Lemma loop_run df vect X d v m stdin : forall h,
  nth_error h df = Some (Store.Frame d) ->
  nth_error h vect = Some (Store.Vectorizer v) ->
  nth_error h X = Some (Store.Matrix m) ->
  exists h',
    Store.extends h h' /\
    Store.loop df vect X stdin h = (Recommender.loop d v m stdin, h').
Proof.
  enough (H : (forall h,
                 nth_error h df = Some (Store.Frame d) ->
                 nth_error h vect = Some (Store.Vectorizer v) ->
                 nth_error h X = Some (Store.Matrix m) ->
                 exists h',
                   Store.extends h h' /\
                   Store.loop df vect X stdin h
                   = (Recommender.loop d v m stdin, h')) /\
              (forall line h,
                 nth_error h df = Some (Store.Frame d) ->
                 nth_error h vect = Some (Store.Vectorizer v) ->
                 nth_error h X = Some (Store.Matrix m) ->
                 exists h',
                   Store.extends h h' /\
                   Store.loop df vect X (line :: stdin) h
                   = (Recommender.loop d v m (line :: stdin), h')))
    by apply H.
  induction stdin as [|line2 stdin [IH1 IH2]].
  - split.
    + intros h _ _ _. exists h. split; [apply extends_refl | reflexivity].
    + intros line h _ _ _. exists h. split; [apply extends_refl|].
      cbn [Store.loop Recommender.loop].
      now destruct (Sk.mem (Py.lower (Py.strip line)) ["exit"; "quit"]).
  - split; [apply IH2|]. intros line h Hd Hv Hm.
    cbn [Store.loop Recommender.loop].
    destruct (Sk.mem (Py.lower (Py.strip line)) ["exit"; "quit"]).
    { exists h. split; [apply extends_refl | reflexivity]. }
    destruct (recommend_papers_run h df vect X d v m (Py.strip line)
                (Recommender.read_top_k (Py.strip line2)) Hd Hv Hm)
      as (h1 & E1 & ->).
    destruct (Recommender.recommend_papers (Py.strip line) d v m
                (Recommender.read_top_k (Py.strip line2))) as [e|recs].
    { exists h1. now split. }
    destruct (IH1 h1 (holds_extends _ _ _ _ E1 Hd) (holds_extends _ _ _ _ E1 Hv)
                (holds_extends _ _ _ _ E1 Hm)) as (h2 & E2 & ->).
    exists h2. split; [exact (extends_trans _ _ _ E1 E2)|].
    now destruct (Recommender.loop d v m stdin).
Qed.

Lemma write_last h o o' :
  Store.write (List.length h) o' (h ++ [o]) = (inr tt, (h ++ [o'])%list).
Proof.
  unfold Store.write. f_equal.
  rewrite skipn_all2 by (rewrite List.length_app; simpl; lia).
  rewrite firstn_app, Nat.sub_diag, firstn_all. simpl.
  now rewrite app_nil_r.
Qed.

Lemma run_getitem_text h df d :
  nth_error h df = Some (Store.Frame d) ->
  Store.getitem_text df h = (Pd.getitem_text d, h).
Proof.
  intros H. unfold Store.getitem_text.
  now rewrite (bind_run _ _ _ _ _ (run_frame _ _ _ H)).
Qed.

(** [fit_transform] writes the fitted vocabulary and weights to the
    vectorizer it is called on, here the newest object, and adds the
    matrix. *)
Lemma run_fit_transform h (v0 : Sk.TfidfVectorizer F) docs :
  Store.fit_transform (List.length h) docs (h ++ [Store.Vectorizer v0])
  = match Sk.fit_transform v0 docs with
    | inl e => (inl e, h ++ [Store.Vectorizer v0])
    | inr vX =>
        (inr (S (List.length h)),
         h ++ [Store.Vectorizer (fst vX); Store.Matrix (snd vX)])
    end.
Proof.
  unfold Store.fit_transform.
  rewrite (bind_run _ _ _ _ _
             (run_vectorizer _ _ _ (holds_last h (Store.Vectorizer v0)))).
  cbv beta. unfold Store.bind at 1, Store.lift.
  destruct (Sk.fit_transform v0 docs) as [e|vX]; [reflexivity|].
  rewrite (bind_run _ _ _ _ _ (write_last h _ (Store.Vectorizer (fst vX)))).
  unfold Store.new. rewrite List.length_app, <- app_assoc. simpl.
  now rewrite Nat.add_1_r.
Qed.

(** [build_tfidf] on a reference makes a new vectorizer, fits it, and
    leaves everything else as it was: the table it reads too. *)
Lemma build_tfidf_run english h df d :
  nth_error h df = Some (Store.Frame d) ->
  Store.build_tfidf english df h
  = match Recommender.build_tfidf english d with
    | inr (v, m) =>
        (inr (List.length h, S (List.length h)),
         h ++ [Store.Vectorizer v; Store.Matrix m])
    | inl e =>
        (inl e, h ++ [Store.Vectorizer (Recommender.new_vectorizer english)])
    end.
Proof.
  intros Hd. unfold Store.build_tfidf, Store.TfidfVectorizer_new.
  set (v0 := Recommender.new_vectorizer english).
  assert (R1 : Store.new (Store.Vectorizer v0) h
               = (inr (List.length h), h ++ [Store.Vectorizer v0]))
    by reflexivity.
  rewrite (bind_run _ _ _ _ _ R1). cbv beta.
  unfold Recommender.build_tfidf, Py.bind. fold v0.
  pose proof (run_getitem_text _ _ _
                (holds_app _ [Store.Vectorizer v0] _ _ Hd)) as R2.
  destruct (Pd.getitem_text d) as [e|docs].
  - now rewrite (bind_raise _ _ _ _ _ R2).
  - rewrite (bind_run _ _ _ _ _ R2). cbv beta.
    pose proof (run_fit_transform h v0 docs) as R3.
    destruct (Sk.fit_transform v0 docs) as [e|[v m]].
    + now rewrite (bind_raise _ _ _ _ _ R3).
    + now rewrite (bind_run _ _ _ _ _ R3).
Qed.

(** C8.  Take a store that holds a table, and let [build_tfidf] return
    an index (v, m) on the table's value.  Run on a reference to the
    table twice in a row, [build_tfidf] returns two indexes in new
    objects, both with the vocabulary and weights v and the matrix m,
    and changes no object that was there, the table and the first
    index included; any table with the same 'text' column gives the
    same index, on both surfaces.  A session of the line-mode loop on
    the first index changes no object either (the table, the
    vectorizer and the matrix are after it what they were before), and
    every round reports what [recommend_papers] returns on the table
    and the index as built, whatever was asked before: two rounds with
    the same query and top_k report the same ranking. *)
Theorem index_and_ranking_are_deterministic
        english h df (d : Pd.DataFrame) (v : Sk.TfidfVectorizer F) m :
  nth_error h df = Some (Store.Frame d) ->
  Recommender.build_tfidf english d = inr (v, m) ->
  exists vect1 X1 h1 vect2 X2 h2,
    Store.build_tfidf english df h = (inr (vect1, X1), h1) /\
    Store.build_tfidf english df h1 = (inr (vect2, X2), h2) /\
    Store.extends h h1 /\ Store.extends h1 h2 /\
    nth_error h2 vect1 = Some (Store.Vectorizer v) /\
    nth_error h2 X1 = Some (Store.Matrix m) /\
    nth_error h2 vect2 = Some (Store.Vectorizer v) /\
    nth_error h2 X2 = Some (Store.Matrix m) /\
    (forall d', Pd.getitem_text d' = Pd.getitem_text d ->
                Recommender.build_tfidf english d' = inr (v, m) /\
                UI.build_tfidf english d' = inr (v, m)) /\
    forall stdin,
      let rounds := fst (Recommender.loop d v m stdin) in
      exists h3,
        Store.loop df vect1 X1 stdin h2 = (Recommender.loop d v m stdin, h3) /\
        Store.extends h2 h3 /\
        (forall r, In r rounds ->
           Recommender.recommend_papers
             (Recommender.query r) d v m (Recommender.top_k r)
           = inr (Recommender.recs r)) /\
        (forall r1 r2, In r1 rounds -> In r2 rounds ->
           Recommender.query r1 = Recommender.query r2 ->
           Recommender.top_k r1 = Recommender.top_k r2 ->
           Recommender.recs r1 = Recommender.recs r2).
Proof.
  intros Hd Hb.
  pose proof (build_tfidf_run english _ _ _ Hd) as R1. rewrite Hb in R1.
  set (h1 := (h ++ [Store.Vectorizer v; Store.Matrix m])%list) in *.
  assert (E1 : Store.extends h h1) by apply extends_app.
  pose proof (build_tfidf_run english _ _ _ (holds_extends _ _ _ _ E1 Hd)) as R2.
  rewrite Hb in R2.
  set (h2 := (h1 ++ [Store.Vectorizer v; Store.Matrix m])%list) in *.
  assert (E2 : Store.extends h1 h2) by apply extends_app.
  assert (Hv1 : nth_error h1 (List.length h) = Some (Store.Vectorizer v)).
  { unfold h1. rewrite nth_error_app2, Nat.sub_diag by lia. reflexivity. }
  assert (Hm1 : nth_error h1 (S (List.length h)) = Some (Store.Matrix m)).
  { unfold h1. rewrite nth_error_app2 by lia.
    replace (S (List.length h) - List.length h)%nat with 1%nat by lia.
    reflexivity. }
  assert (Hv2 : nth_error h2 (List.length h1) = Some (Store.Vectorizer v)).
  { unfold h2. rewrite nth_error_app2, Nat.sub_diag by lia. reflexivity. }
  assert (Hm2 : nth_error h2 (S (List.length h1)) = Some (Store.Matrix m)).
  { unfold h2. rewrite nth_error_app2 by lia.
    replace (S (List.length h1) - List.length h1)%nat with 1%nat by lia.
    reflexivity. }
  exists (List.length h), (S (List.length h)), h1,
         (List.length h1), (S (List.length h1)), h2.
  split; [exact R1|]. split; [exact R2|].
  split; [exact E1|]. split; [exact E2|].
  split; [exact (holds_extends _ _ _ _ E2 Hv1)|].
  split; [exact (holds_extends _ _ _ _ E2 Hm1)|].
  split; [exact Hv2|]. split; [exact Hm2|]. split.
  - intros d' Htext. unfold UI.build_tfidf.
    unfold Recommender.build_tfidf in *. rewrite Htext. now split.
  - intros stdin rounds.
    destruct (loop_run df (List.length h) (S (List.length h)) d v m stdin h2
                (holds_extends _ _ _ _ (extends_trans _ _ _ E1 E2) Hd)
                (holds_extends _ _ _ _ E2 Hv1) (holds_extends _ _ _ _ E2 Hm1))
      as (h3 & E3 & Hloop).
    exists h3. split; [exact Hloop|]. split; [exact E3|].
    pose proof (loop_rounds d v m stdin) as Hrounds.
    fold rounds in Hrounds. rewrite Forall_forall in Hrounds.
    split; [exact Hrounds|].
    intros r1 r2 H1 H2 Eq Ek.
    apply Hrounds in H1, H2. rewrite Eq, Ek in H1. congruence.
Qed.

End StoreFacts.

Set Implicit Arguments.

(** The store holds [Demo.corpus] and nothing else. *)
Lemma index_and_ranking_are_deterministic_witness :
  exists vect1 X1 h1 vect2 X2 h2,
    @Store.build_tfidf Q Qscore insertion_argsort Demo.stop 0%nat
      [Store.Frame Demo.corpus] = (inr (vect1, X1), h1) /\
    @Store.build_tfidf Q Qscore insertion_argsort Demo.stop 0%nat h1
    = (inr (vect2, X2), h2) /\
    Store.extends [Store.Frame Demo.corpus] h1 /\ Store.extends h1 h2 /\
    nth_error h2 vect1 = Some (Store.Vectorizer Demo.vect) /\
    nth_error h2 X1 = Some (Store.Matrix Demo.X) /\
    nth_error h2 vect2 = Some (Store.Vectorizer Demo.vect) /\
    nth_error h2 X2 = Some (Store.Matrix Demo.X) /\
    (forall d', Pd.getitem_text d' = Pd.getitem_text Demo.corpus ->
                @Recommender.build_tfidf Q Qscore insertion_argsort Demo.stop d'
                = inr (Demo.vect, Demo.X) /\
                @UI.build_tfidf Q Qscore insertion_argsort Demo.stop d'
                = inr (Demo.vect, Demo.X)) /\
    forall stdin,
      let rounds := fst (@Recommender.loop Q Qscore insertion_argsort
                           Demo.corpus Demo.vect Demo.X stdin) in
      exists h3,
        @Store.loop Q Qscore insertion_argsort 0%nat vect1 X1 stdin h2
        = (@Recommender.loop Q Qscore insertion_argsort
             Demo.corpus Demo.vect Demo.X stdin, h3) /\
        Store.extends h2 h3 /\
        (forall r, In r rounds ->
           @Recommender.recommend_papers Q Qscore insertion_argsort
             (Recommender.query r) Demo.corpus Demo.vect Demo.X
             (Recommender.top_k r)
           = inr (Recommender.recs r)) /\
        (forall r1 r2, In r1 rounds -> In r2 rounds ->
           Recommender.query r1 = Recommender.query r2 ->
           Recommender.top_k r1 = Recommender.top_k r2 ->
           Recommender.recs r1 = Recommender.recs r2).
Proof.
  refine (@index_and_ranking_are_deterministic Q Qscore insertion_argsort
            Demo.stop [Store.Frame Demo.corpus] 0%nat
            Demo.corpus Demo.vect Demo.X eq_refl _).
  vm_compute. reflexivity.
Defined.

(** A session on shared objects: the second "coloring" round reports
    what the first did, and the table, the vectorizer and the matrix
    are after the session what they were before it. *)
Example store_session :
  match @Store.build_tfidf _ binary64 insertion_argsort Demo.stop 0%nat
          [Store.Frame Demo.corpus] with
  | (inr (vect, X), h) =>
      let (out, h') := @Store.loop _ binary64 insertion_argsort 0%nat vect X
                         ["coloring"; "1"; "neural"; "1"; "coloring"; "1"; "exit"]
                         h in
      map (fun r => (Recommender.query r, Recommender.top_k r,
                     map Pd.title (Pd.rows (Recommender.recs r)))) (fst out)
      = [ ("coloring", 1, ["graph coloring"]);
          ("neural", 1, ["neural nets"]);
          ("coloring", 1, ["graph coloring"]) ] /\
      snd out = Py.ret tt /\
      nth_error h' 0 = Some (Store.Frame Demo.corpus) /\
      nth_error h' vect = nth_error h vect /\
      nth_error h' X = nth_error h X
  | _ => False
  end.
Proof. vm_compute. repeat split; reflexivity. Qed.

(** C9, at the inputs where the loop departs from it.  The lines "0" and
    "-3" are numerals: the loop does not put 10 in their place, and calls
    [recommend_papers] with top_k = 0 and with top_k = -3. *)
Theorem nonpositive_top_k_reaches_rank :
  Recommender.read_top_k "0" = 0 /\
  Recommender.read_top_k "-3" = -3 /\
  map (fun r => (Recommender.top_k r, Pd.len (Recommender.recs r)))
      (fst (@Recommender.loop _ binary64 insertion_argsort
              Demo.corpus Demo.vect64 Demo.X64
              ["graph"; "0"; "graph"; "-3"; "graph"; "-1"; "quit"]))
  = [(0, 0%nat); (-3, 0%nat); (-1, 2%nat)].
Proof.
  split; [reflexivity|]. split; [reflexivity|]. vm_compute. reflexivity.
Qed.

Lemma NoDup_fst_filter {T U} (f : T * U -> bool) (l : list (T * U)) :
  NoDup (map fst l) -> NoDup (map fst (filter f l)).
Proof.
  induction l as [|x l IH]; simpl; intros H; [constructor|].
  inversion H as [|? ? Hx Hl]; subst.
  destruct (f x); simpl; [|now apply IH].
  constructor; [|now apply IH].
  intros Hin. apply Hx. apply in_map_iff in Hin.
  destruct Hin as (y & Ey & Hy). apply filter_In in Hy.
  apply in_map_iff. exists y. tauto.
Qed.

Lemma NoDup_fst_combine {T U} (l1 : list T) : forall (l2 : list U),
  NoDup l1 -> NoDup (map fst (combine l1 l2)).
Proof.
  induction l1 as [|a l1 IH]; intros [|b l2] H; simpl; try constructor.
  - inversion H as [|? ? Ha _]; subst. intros Hin. apply Ha.
    apply in_map_iff in Hin. destruct Hin as ([a' b'] & <- & Hin).
    simpl. eapply in_combine_l. exact Hin.
  - inversion H; subst. now apply IH.
Qed.

(** The columns of a count row are all different. *)
Lemma count_row_columns (vocab tokens : list string) :
  NoDup (map fst (Sk.count_row vocab tokens)).
Proof.
  unfold Sk.count_row. apply NoDup_fst_filter, NoDup_fst_combine, seq_NoDup.
Qed.

(* ================================================================== *)
(** * Sparse products over the reals *)
(* ================================================================== *)

Module ExactFacts.
Import Reals Lra Exact.
Local Open Scope R_scope.
#[local] Existing Instance reals.

Lemma dot_sumprod (x y : list (nat * R)) : @Sk.dot R reals x y = sumprod x y.
Proof.
  unfold Sk.dot.
  enough (H : forall acc,
             fold_left (fun acc jx => match Sk.lookup (fst jx) y with
                                      | Some b => fadd acc (fmul (snd jx) b)
                                      | None => acc
                                      end) x acc = acc + sumprod x y).
  { rewrite H. simpl. lra. }
  induction x as [|[j a] x IH]; intros acc; simpl.
  - lra.
  - rewrite IH. unfold val. simpl. destruct (Sk.lookup j y); lra.
Qed.

Lemma fold_sumsq (r : list (nat * R)) :
  fold_left (fun s jx => fadd s (fmul (snd jx) (snd jx))) r f0 = sumsq r.
Proof.
  enough (H : forall acc,
             fold_left (fun s (jx : nat * R) => fadd s (fmul (snd jx) (snd jx))) r acc
             = acc + sumsq r).
  { rewrite H. simpl. lra. }
  induction r as [|[j v] r IH]; intros acc; simpl.
  - lra.
  - rewrite IH. simpl. lra.
Qed.

Lemma sumsq_nonneg r : 0 <= sumsq r.
Proof.
  induction r as [|[j v] r IH]; simpl; [lra|].
  pose proof (Rle_0_sqr v) as Hsq. unfold Rsqr in Hsq. lra.
Qed.

Lemma val_cons_same j a y : val ((j, a) :: y) j = a.
Proof. unfold val, Sk.lookup. simpl. now rewrite Nat.eqb_refl. Qed.

Lemma val_cons_other j k a y : k <> j -> val ((j, a) :: y) k = val y k.
Proof.
  intros H. unfold val, Sk.lookup. simpl.
  destruct (Nat.eqb_spec j k); [congruence | reflexivity].
Qed.

Lemma val_remove_key j k y : k <> j -> val (remove_key j y) k = val y k.
Proof.
  intros H. induction y as [|[i b] y IH]; simpl; [reflexivity|].
  destruct (Nat.eqb_spec i j) as [->|Hij].
  - now rewrite val_cons_other.
  - destruct (Nat.eq_dec k i) as [->|Hki].
    + now rewrite !val_cons_same.
    + now rewrite !val_cons_other.
Qed.

Lemma sumsq_remove_key j y b :
  Sk.lookup j y = Some b -> sumsq y = b * b + sumsq (remove_key j y).
Proof.
  unfold Sk.lookup. induction y as [|[i c] y IH]; simpl; [discriminate|].
  destruct (Nat.eqb_spec i j) as [->|Hij]; simpl.
  - intros [= ->]. lra.
  - intros H. rewrite (IH H). lra.
Qed.

Lemma sumprod_ext x y y' :
  (forall j, In j (map fst x) -> val y j = val y' j) ->
  sumprod x y = sumprod x y'.
Proof.
  induction x as [|[j a] x IH]; intros H; simpl; [reflexivity|].
  rewrite (H j) by now left. rewrite IH; [reflexivity|].
  intros k Hk. apply H. now right.
Qed.

Lemma cauchy_schwarz x : forall y,
  NoDup (map fst x) -> 2 * sumprod x y <= sumsq x + sumsq y.
Proof.
  induction x as [|[j a] x IH]; intros y Hnd; simpl.
  - pose proof (sumsq_nonneg y). lra.
  - inversion Hnd as [|? ? Hj Hnd']; subst.
    unfold val at 1. destruct (Sk.lookup j y) as [b|] eqn:El.
    + rewrite (@sumprod_ext x y (remove_key j y)).
      * specialize (IH (remove_key j y) Hnd').
        rewrite (@sumsq_remove_key j y b El).
        pose proof (Rle_0_sqr (a - b)) as Hsq. unfold Rsqr in Hsq. simpl in *. lra.
      * intros k Hk. symmetry. apply val_remove_key. intros ->. contradiction.
    + specialize (IH y Hnd'). pose proof (Rle_0_sqr a) as Hsq. unfold Rsqr in Hsq.
      simpl in *. lra.
Qed.

Lemma sumprod_self x : NoDup (map fst x) -> sumprod x x = sumsq x.
Proof.
  induction x as [|[j a] x IH]; intros Hnd; simpl; [reflexivity|].
  inversion Hnd as [|? ? Hj Hnd']; subst.
  rewrite val_cons_same. f_equal. rewrite <- IH by assumption.
  apply sumprod_ext. intros k Hk. apply val_cons_other. intros ->. contradiction.
Qed.


Lemma sumsq_zero r : sumsq r = 0 -> Forall (fun jv => snd jv = 0) r.
Proof.
  induction r as [|[j v] r IH]; simpl; intros H; constructor.
  - simpl. pose proof (sumsq_nonneg r). pose proof (Rle_0_sqr v) as Hsq.
    unfold Rsqr in Hsq. assert (Hv : v * v = 0) by lra.
    apply Rmult_integral in Hv. tauto.
  - apply IH. pose proof (sumsq_nonneg r). pose proof (Rle_0_sqr v) as Hsq.
    unfold Rsqr in Hsq. lra.
Qed.

Lemma sumprod_zero_left x y :
  Forall (fun jv => snd jv = 0) x -> sumprod x y = 0.
Proof.
  induction 1 as [|[j a] x Ha _ IH]; simpl in *; [reflexivity|].
  rewrite Ha, IH. lra.
Qed.

Lemma val_zero y j : Forall (fun jv => snd jv = 0) y -> val y j = 0.
Proof.
  intros H. unfold val, Sk.lookup.
  destruct (find _ y) as [[k b]|] eqn:Ef; simpl; [|reflexivity].
  apply find_some in Ef. destruct Ef as [Hin _].
  rewrite Forall_forall in H. exact (H _ Hin).
Qed.

Lemma sumprod_zero_right x y :
  Forall (fun jv => snd jv = 0) y -> sumprod x y = 0.
Proof.
  intros H. induction x as [|[j a] x IH]; simpl; [reflexivity|].
  rewrite (val_zero j H), IH. lra.
Qed.

(** A normalised row has norm 1, unless it is all zeros. *)
Lemma normalize_cases (r : list (nat * R)) :
  map fst (Sk.normalize r) = map fst r /\
  (Forall (fun jv => snd jv = 0) (Sk.normalize r) \/
   sumsq (Sk.normalize r) = 1).
Proof.
  unfold Sk.normalize. rewrite fold_sumsq.
  pose proof (sumsq_nonneg r) as Hnn.
  unfold feqb. simpl. unfold Rleb.
  destruct (Rle_dec (sumsq r) 0) as [Hle|Hgt]; simpl.
  - destruct (Rle_dec 0 (sumsq r)); [|lra].
    split; [reflexivity|]. left. apply sumsq_zero. lra.
  - split; [now rewrite map_map|]. right.
    assert (Hpos : 0 < sumsq r) by lra.
    assert (Hs : sqrt (sumsq r) * sqrt (sumsq r) = sumsq r)
      by (apply sqrt_sqrt; lra).
    assert (Hne : sqrt (sumsq r) <> 0).
    { intros E. rewrite E in Hs. lra. }
    set (t := sqrt (sumsq r)) in *.
    assert (Hscaled : forall l : list (nat * R),
               sumsq (map (fun jx => (fst jx, snd jx / t)) l) * (t * t) = sumsq l).
    { induction l as [|[j v] l IH]; simpl; [lra|].
      rewrite Rmult_plus_distr_r, IH. field. exact Hne. }
    specialize (Hscaled r). rewrite Hs in Hscaled.
    apply (Rmult_eq_reg_r (sumsq r)); lra.
Qed.


(** Over the reals the order in which a row is stored does not matter:
    the sum of the squares, the normalised weights and the weight under
    each column are the same. *)
Lemma sumsq_perm (r r' : list (nat * R)) :
  Permutation r r' -> sumsq r = sumsq r'.
Proof.
  induction 1 as [|x l l' _ IH|x y l|l l' l'' _ IH1 _ IH2]; simpl;
    [reflexivity | rewrite IH; reflexivity | lra | congruence].
Qed.

Lemma normalize_perm (r r' : list (nat * R)) :
  Permutation r r' -> Permutation (Sk.normalize r) (Sk.normalize r').
Proof.
  intros Hp. unfold Sk.normalize. rewrite !fold_sumsq, (sumsq_perm Hp).
  destruct (feqb _ _); [exact Hp | now apply Permutation_map].
Qed.

Lemma lookup_in (r : list (nat * R)) (j : nat) (b : R) :
  NoDup (map fst r) -> In (j, b) r -> Sk.lookup j r = Some b.
Proof.
  unfold Sk.lookup. induction r as [|[k c] r IH]; simpl; intros Hnd Hin;
    [contradiction|].
  inversion Hnd as [|? ? Hk Hnd']; subst.
  destruct Hin as [[= -> ->]|Hin].
  - now rewrite Nat.eqb_refl.
  - destruct (Nat.eqb_spec k j) as [->|_]; [|now apply IH].
    exfalso. apply Hk. apply in_map_iff. now exists (j, b).
Qed.

Lemma val_perm (r r' : list (nat * R)) (j : nat) :
  Permutation r r' -> NoDup (map fst r) -> val r j = val r' j.
Proof.
  intros Hp Hnd.
  assert (Hnd' : NoDup (map fst r'))
    by (eapply Permutation_NoDup; [apply Permutation_map; exact Hp | exact Hnd]).
  unfold val. destruct (Sk.lookup j r) as [b|] eqn:El.
  - assert (Hin : In (j, b) r).
    { unfold Sk.lookup in El. destruct (find _ r) as [[k c]|] eqn:Ef; [|discriminate].
      apply find_some in Ef. destruct Ef as [Hin E]. simpl in *.
      apply Nat.eqb_eq in E. injection El as <-. now subst. }
    now rewrite (@lookup_in r' j b Hnd' (Permutation_in _ Hp Hin)).
  - destruct (Sk.lookup j r') as [b|] eqn:El'; [|reflexivity].
    assert (Hin : In (j, b) r').
    { unfold Sk.lookup in El'. destruct (find _ r') as [[k c]|] eqn:Ef; [|discriminate].
      apply find_some in Ef. destruct Ef as [Hin E]. simpl in *.
      apply Nat.eqb_eq in E. injection El' as <-. now subst. }
    rewrite (@lookup_in r j b Hnd (Permutation_in _ (Permutation_sym Hp) Hin)) in El.
    discriminate.
Qed.

(** Cauchy-Schwarz for the rows of the index: the product of the row of
    a text with the stored row of any record is at most its product
    with the stored row of the same text, whatever the order it is
    stored in. *)
Lemma row_product_le (idfs : list R) (a a' b : list (nat * nat)) :
  NoDup (map fst a) ->
  Permutation a a' ->
  Sk.dot (Sk.tfidf_row idfs a) (Sk.tfidf_row idfs b)
  <= Sk.dot (Sk.tfidf_row idfs a) (Sk.tfidf_row idfs a').
Proof.
  intros Hnd Hperm. unfold Sk.tfidf_row.
  set (w := fun jc : nat * nat =>
              (fst jc, fmul (of_nat (snd jc)) (nth (fst jc) idfs f0))).
  set (ra := map w a). set (ra' := map w a'). set (rb := map w b).
  destruct (normalize_cases ra) as [Hcols Hx].
  destruct (normalize_cases rb) as [_ Hy].
  assert (Hndx : NoDup (map fst (Sk.normalize ra))).
  { rewrite Hcols. unfold ra. now rewrite map_map. }
  assert (Hp : Permutation (Sk.normalize ra) (Sk.normalize ra'))
    by (apply normalize_perm, Permutation_map, Hperm).
  rewrite !dot_sumprod.
  rewrite <- (@sumprod_ext (Sk.normalize ra) (Sk.normalize ra) (Sk.normalize ra'))
    by (intros j _; now apply val_perm).
  rewrite (@sumprod_self (Sk.normalize ra) Hndx).
  pose proof (sumsq_nonneg (Sk.normalize ra)) as Hnn.
  pose proof (@cauchy_schwarz (Sk.normalize ra) (Sk.normalize rb) Hndx) as Hcs.
  destruct Hx as [Hx|Hx].
  - rewrite (@sumprod_zero_left (Sk.normalize ra) (Sk.normalize rb) Hx). exact Hnn.
  - destruct Hy as [Hy|Hy].
    + rewrite (@sumprod_zero_right (Sk.normalize ra) (Sk.normalize rb) Hy). lra.
    + lra.
Qed.

End ExactFacts.

(** In doubles the record whose text is the query can come second.
    [Demo.once] has the words "coloring" and "graph" once each,
    [Demo.thrice] three times each.  Both words being in both records,
    their idf is log(3/3) + 1 = 1.0, and the rows are (1, 1) and (3, 3)
    divided by their norms: 1/sqrt 2 rounds to 0.70710678118654746, and
    3/sqrt 18 to 0.70710678118654757.  For the query "Coloring. A graph",
    the text of [Demo.once], the scores are 0.99999999999999978 for
    [Demo.once] and 1.0 for [Demo.thrice]: both surfaces return
    [Demo.thrice] first. *)
Lemma own_text_outranked_in_doubles :
  match @Recommender.build_tfidf _ binary64 insertion_argsort
          Demo.stop Demo.pair with
  | inr (vect, X) =>
      let query := Pd.text Demo.once in
      match @Recommender.similarities _ binary64 query vect X with
      | [s_once; s_thrice] =>
          query = "Coloring. A graph" /\
          PrimFloat.ltb s_once s_thrice = true /\
          s_thrice = Binary64.of_Z 1 /\
          @Recommender.recommend_papers _ binary64 insertion_argsort
            query Demo.pair vect X 2
          = inr (Pd.DataFrame_of [Demo.thrice; Demo.once]) /\
          @UI.recommend_papers _ binary64 insertion_argsort
            query Demo.pair vect X 2
          = inr (Pd.DataFrame_of [Demo.thrice; Demo.once])
      | _ => False
      end
  | inl _ => False
  end.
Proof.
  vm_compute. repeat split; reflexivity.
Qed.

(* ================================================================== *)
(** * The scripts run *)
(* ================================================================== *)

(** The form-based surface keeps top_k between 1 and 20. *)
Lemma slider_in_range (moved_to : option Z) :
  1 <= UI.slider 1 20 10 moved_to <= 20.
Proof. unfold UI.slider. destruct moved_to; lia. Qed.

Example int_plain : Py.int " 42 " = Some 42.
Proof. reflexivity. Qed.

Example int_underscore : Py.int "1_000" = Some 1000.
Proof. reflexivity. Qed.

Example int_double_underscore : Py.int "1__0" = None.
Proof. reflexivity. Qed.

Example int_word : Py.int "ten" = None.
Proof. reflexivity. Qed.

Example str_of_negative : Py.str_of_Z (-120) = "-120".
Proof. reflexivity. Qed.

Example slice_to_negative : Py.slice_to (-1) [1; 2; 3] = [1; 2].
Proof. reflexivity. Qed.

Example slice_from_zero : Py.slice_from (- 0) [1; 2; 3] = [1; 2; 3].
Proof. reflexivity. Qed.

Example tokens : Sk.tokenize "hello, world_1 a b2 -- x" = ["hello"; "world_1"; "b2"].
Proof. reflexivity. Qed.

Example demo_vocabulary :
  Sk.vocabulary_ Demo.vect
  = ["chromatic"; "coloring"; "cycles"; "deadlock"; "deep"; "detection";
     "graph"; "learning"; "nets"; "neural"; "number"].
Proof. vm_compute. reflexivity. Qed.

Section Logarithms.
Import PrimFloat.

Example ln_samples :
  map Binary64.ln [Binary64.of_Z 1; Binary64.of_Z 2; Binary64.of_Z 3]
  = [0x0p+0%float; 0x1.62e42fefa39efp-1%float; 0x1.193ea7aad030bp+0%float].
Proof. vm_compute. reflexivity. Qed.

End Logarithms.

(** The first row of the matrix stores its terms as the corpus first
    shows them: graph, coloring, chromatic, number. *)
Example demo_stored_row :
  map fst (hd [] Demo.X64) = [6; 1; 0; 10]%nat /\
  map fst (@query_row _ binary64 Demo.vect64 (Pd.text Demo.graphs))
  = [0; 1; 6; 10]%nat.
Proof. vm_compute. split; reflexivity. Qed.

Example main_unavailable :
  @Recommender.main Q Qscore insertion_argsort Demo.stop unavailable
    ["DSA"; "graph"; "5"; "exit"] = ([], Py.ret tt).
Proof. vm_compute. reflexivity. Qed.

Example page_unavailable :
  @UI.page Q Qscore insertion_argsort Demo.stop unavailable
    {| UI.picked := 0; UI.typed := "graph"; UI.moved_to := Some 5;
       UI.clicked := true |} = inr None.
Proof. vm_compute. reflexivity. Qed.

Example main_session :
  let (rounds, ending) :=
    @Recommender.main _ binary64 insertion_argsort Demo.stop arxiv_stub
      ["DSA"; "deadlock"; "1"; "graph"; "many"; "exit"] in
  map (fun r => (Recommender.query r, Recommender.top_k r,
                 map Pd.title (Pd.rows (Recommender.recs r)))) rounds
  = [("deadlock", 1, ["Deadlock detection"]);
     ("graph", 10, ["Graph coloring"; "Deadlock detection"])] /\
  ending = Py.ret tt.
Proof. vm_compute. split; reflexivity. Qed.

Example page_session :
  match @UI.page _ binary64 insertion_argsort Demo.stop arxiv_stub
          {| UI.picked := 0; UI.typed := "deadlock"; UI.moved_to := Some 0;
             UI.clicked := true |} with
  | inr (Some recs) => map Pd.title (Pd.rows recs) = ["Deadlock detection"]
  | _ => False
  end.
Proof. vm_compute. reflexivity. Qed.

(* ================================================================== *)
(** * Which records are returned *)
(* ================================================================== *)

Lemma Forall2_nth_error_in_range {T} (l : list T) (idx : list nat) (rs : list T) :
  Forall2 (fun i r => nth_error l i = Some r) idx rs ->
  Forall (fun r => In r l) rs.
Proof.
  induction 1 as [|i r idx rs Hi _ IH]; constructor; [|assumption].
  eapply nth_error_In. exact Hi.
Qed.

Section Selection.
Context {F : Type} {FL : Float64 F} {FO : Float64Order FL}
        {A : ArgSort} {AS : ArgSortSpec A}.
Implicit Types (sims : list F) (top_k : Z).

Lemma NoDup_argsort K (leb : K -> K -> bool) (v : list K) :
  NoDup (argsort leb v).
Proof.
  eapply Permutation_NoDup; [symmetry; apply argsort_perm | apply seq_NoDup].
Qed.

Lemma NoDup_line sims top_k : NoDup (Recommender.top_indices sims top_k).
Proof.
  unfold Recommender.top_indices, Py.slice_to.
  eapply NoDup_app_remove_r. rewrite firstn_skipn. apply NoDup_argsort.
Qed.

Lemma NoDup_ui sims top_k : NoDup (UI.top_indices sims top_k).
Proof.
  unfold UI.top_indices, Py.reversed, Py.slice_from.
  apply NoDup_rev. eapply NoDup_app_remove_l.
  rewrite firstn_skipn. apply NoDup_argsort.
Qed.

(** X1. Whatever the value of top_k, [recommend_papers] returns: it picks
    rows of the corpus at positions that are all different, so no
    record is returned twice and nothing is returned that the corpus
    does not hold. *)
Theorem recommend_picks_distinct_rows
        query df (vect : Sk.TfidfVectorizer F) X top_k :
  List.length X = Pd.len df ->
  (exists idx rs,
      Recommender.recommend_papers query df vect X top_k
      = inr {| Pd.columns := Pd.columns df; Pd.rows := rs |} /\
      NoDup idx /\
      Forall2 (fun i r => nth_error (Pd.rows df) i = Some r) idx rs /\
      Forall (fun r => In r (Pd.rows df)) rs) /\
  (exists idx rs,
      UI.recommend_papers query df vect X top_k
      = inr {| Pd.columns := Pd.columns df; Pd.rows := rs |} /\
      NoDup idx /\
      Forall2 (fun i r => nth_error (Pd.rows df) i = Some r) idx rs /\
      Forall (fun r => In r (Pd.rows df)) rs).
Proof.
  intros HX. split.
  - assert (Hrange : Forall (fun i => (i < Pd.len df)%nat)
                       (Recommender.top_indices
                          (Recommender.similarities query vect X) top_k)).
    { rewrite Forall_forall. intros i Hi. apply line_in_range in Hi.
      now rewrite length_similarities, HX in Hi. }
    destruct (iloc_ok df Hrange) as (rs & Hrs & Hall).
    exists (Recommender.top_indices (Recommender.similarities query vect X) top_k), rs.
    repeat split; [exact Hrs | apply NoDup_line | exact Hall |].
    eapply Forall2_nth_error_in_range. exact Hall.
  - assert (Hrange : Forall (fun i => (i < Pd.len df)%nat)
                       (UI.top_indices (UI.similarities query vect X) top_k)).
    { rewrite Forall_forall. intros i Hi. apply ui_in_range in Hi.
      change (UI.similarities query vect X)
        with (Recommender.similarities query vect X) in Hi.
      now rewrite length_similarities, HX in Hi. }
    destruct (iloc_ok df Hrange) as (rs & Hrs & Hall).
    exists (UI.top_indices (UI.similarities query vect X) top_k), rs.
    repeat split; [exact Hrs | apply NoDup_ui | exact Hall |].
    eapply Forall2_nth_error_in_range. exact Hall.
Qed.

(** X2. The records left out score no more than the records returned: on
    both surfaces, for every top_k, a position that is not picked has a
    score below or equal to that of every position that is. *)
Theorem left_out_records_score_no_more sims top_k (i j : nat) :
  (j < List.length sims)%nat ->
  (In i (Recommender.top_indices sims top_k) ->
   ~ In j (Recommender.top_indices sims top_k) ->
   ge_at sims i j) /\
  (In i (UI.top_indices sims top_k) ->
   ~ In j (UI.top_indices sims top_k) ->
   ge_at sims i j).
Proof.
  intros Hj. split.
  - unfold Recommender.top_indices, Py.slice_to.
    set (L := argsort fleb (map fopp sims)).
    set (c := Py.clip (List.length L) top_k).
    intros Hi Hnj.
    assert (Hs : StronglySorted (ge_at sims) (firstn c L ++ skipn c L)).
    { rewrite firstn_skipn. unfold L.
      eapply StronglySorted_weaken;
        [|apply argsort_sorted; [apply fleb_is_total | apply fleb_is_transitive]].
      intros a b _ _. apply key_le_opp. }
    apply StronglySorted_app_inv in Hs. destruct Hs as (_ & _ & H12).
    apply H12; [exact Hi|].
    assert (HjL : In j L).
    { unfold L. eapply Permutation_in; [symmetry; apply argsort_perm|].
      rewrite List.length_map. apply in_seq. lia. }
    rewrite <- (firstn_skipn c L) in HjL. apply in_app_or in HjL.
    destruct HjL; [contradiction | assumption].
  - unfold UI.top_indices, Py.reversed, Py.slice_from.
    set (M := argsort fleb sims).
    set (c := Py.clip (List.length M) (- top_k)).
    intros Hi Hnj. apply in_rev in Hi.
    assert (Hs : StronglySorted (key_le fleb sims) (firstn c M ++ skipn c M)).
    { rewrite firstn_skipn. unfold M.
      apply argsort_sorted; [apply fleb_is_total | apply fleb_is_transitive]. }
    apply StronglySorted_app_inv in Hs. destruct Hs as (_ & _ & H12).
    unfold ge_at. apply H12; [|exact Hi].
    assert (HjM : In j M).
    { unfold M. eapply Permutation_in; [symmetry; apply argsort_perm|].
      apply in_seq. lia. }
    rewrite <- (firstn_skipn c M) in HjM. apply in_app_or in HjM.
    destruct HjM as [H|H]; [assumption|].
    exfalso. apply Hnj. now apply in_rev in H.
Qed.

(** X3. Asked for zero records, the line-mode surface returns none and the
    form-based surface returns them all: [a[:0]] is empty, [a[-0:]] is
    [a]. *)
Theorem zero_top_k_on_the_two_surfaces query df (vect : Sk.TfidfVectorizer F) X :
  List.length X = Pd.len df ->
  Recommender.recommend_papers query df vect X 0
  = inr {| Pd.columns := Pd.columns df; Pd.rows := [] |} /\
  (exists res, UI.recommend_papers query df vect X 0 = inr res /\
               Pd.len res = Pd.len df).
Proof.
  intros HX. split.
  - unfold Recommender.recommend_papers, Recommender.top_indices, Py.slice_to.
    rewrite clip_nonneg by lia. reflexivity.
  - destruct (ui_returns query df vect X 0 HX) as (res & Hres & Hlen).
    exists res. split; [exact Hres|]. rewrite Hlen.
    unfold UI.top_indices, Py.reversed.
    rewrite List.length_rev, length_slice_from, length_argsort.
    change (UI.similarities query vect X)
      with (Recommender.similarities query vect X).
    rewrite length_similarities, HX. simpl (- 0).
    rewrite clip_nonneg by lia. simpl. lia.
Qed.






End Selection.

Lemma recommend_picks_distinct_rows_witness :
  (exists idx rs,
      @Recommender.recommend_papers Q Qscore insertion_argsort
        "graph" Demo.corpus Demo.vect Demo.X (-7)
      = inr {| Pd.columns := Pd.columns Demo.corpus; Pd.rows := rs |} /\
      NoDup idx /\
      Forall2 (fun i r => nth_error (Pd.rows Demo.corpus) i = Some r) idx rs /\
      Forall (fun r => In r (Pd.rows Demo.corpus)) rs) /\
  (exists idx rs,
      @UI.recommend_papers Q Qscore insertion_argsort
        "graph" Demo.corpus Demo.vect Demo.X (-7)
      = inr {| Pd.columns := Pd.columns Demo.corpus; Pd.rows := rs |} /\
      NoDup idx /\
      Forall2 (fun i r => nth_error (Pd.rows Demo.corpus) i = Some r) idx rs /\
      Forall (fun r => In r (Pd.rows Demo.corpus)) rs).
Proof.
  exact (@recommend_picks_distinct_rows Q Qscore insertion_argsort
           insertion_argsort_spec "graph" Demo.corpus Demo.vect Demo.X (-7)
           eq_refl).
Defined.

Lemma left_out_records_score_no_more_witness :
  let sims := @Recommender.similarities Q Qscore "neural" Demo.vect Demo.X in
  (In 2%nat (@Recommender.top_indices Q Qscore insertion_argsort sims 1) ->
   ~ In 0%nat (@Recommender.top_indices Q Qscore insertion_argsort sims 1) ->
   @ge_at Q Qscore sims 2 0) /\
  (In 2%nat (@UI.top_indices Q Qscore insertion_argsort sims 1) ->
   ~ In 0%nat (@UI.top_indices Q Qscore insertion_argsort sims 1) ->
   @ge_at Q Qscore sims 2 0).
Proof.
  refine (@left_out_records_score_no_more Q Qscore Qscore_order
            insertion_argsort insertion_argsort_spec
            (@Recommender.similarities Q Qscore "neural" Demo.vect Demo.X)
            1 2%nat 0%nat _).
  vm_compute. lia.
Defined.

Lemma zero_top_k_on_the_two_surfaces_witness :
  @Recommender.recommend_papers Q Qscore insertion_argsort
    "graph" Demo.corpus Demo.vect Demo.X 0
  = inr {| Pd.columns := Pd.columns Demo.corpus; Pd.rows := [] |} /\
  (exists res, @UI.recommend_papers Q Qscore insertion_argsort
                 "graph" Demo.corpus Demo.vect Demo.X 0 = inr res /\
               Pd.len res = 3%nat).
Proof.
  exact (@zero_top_k_on_the_two_surfaces Q Qscore insertion_argsort
           insertion_argsort_spec "graph" Demo.corpus Demo.vect Demo.X eq_refl).
Defined.


(* ================================================================== *)
(** * The index [build_tfidf] builds *)
(* ================================================================== *)

Lemma distinct_spec (l : list string) : forall seen,
  NoDup (Sk.distinct seen l) /\
  (forall t, In t (Sk.distinct seen l) <-> In t l /\ ~ In t seen).
Proof.
  induction l as [|t0 l IH]; intros seen; simpl.
  - split; [constructor | intros t; tauto].
  - destruct (Sk.mem t0 seen) eqn:Em.
    + apply mem_In in Em. destruct (IH seen) as [Hnd Hin].
      split; [assumption|]. intros t. rewrite Hin.
      split; [tauto|]. intros [[<-|H] Hn]; [contradiction | tauto].
    + assert (Hn0 : ~ In t0 seen).
      { intros H. apply mem_In in H. congruence. }
      destruct (IH (t0 :: seen)) as [Hnd Hin]. split.
      * constructor; [|assumption]. rewrite Hin. simpl. tauto.
      * intros t. simpl. rewrite Hin. simpl.
        destruct (string_dec t0 t) as [<-|Hne]; tauto.
Qed.

Lemma insert_term_perm (t : string) (l : list string) :
  Permutation (Sk.insert_term t l) (t :: l).
Proof.
  induction l as [|u l IH]; simpl; [reflexivity|].
  destruct (String.leb t u); [reflexivity|].
  rewrite IH. apply perm_swap.
Qed.

Lemma sorted_terms_perm (l : list string) : Permutation (Sk.sorted_terms l) l.
Proof.
  unfold Sk.sorted_terms. induction l as [|t l IH]; simpl; [reflexivity|].
  rewrite insert_term_perm. now constructor.
Qed.

Lemma NoDup_snd_filter {T U} (f : T * U -> bool) (l : list (T * U)) :
  NoDup (map snd l) -> NoDup (map snd (filter f l)).
Proof.
  induction l as [|x l IH]; simpl; intros H; [constructor|].
  inversion H as [|? ? Hx Hl]; subst.
  destruct (f x); simpl; [|now apply IH].
  constructor; [|now apply IH].
  intros Hin. apply Hx. apply in_map_iff in Hin.
  destruct Hin as (y & Ey & Hy). apply filter_In in Hy.
  apply in_map_iff. exists y. tauto.
Qed.

Lemma NoDup_snd_combine {T U} (l1 : list T) : forall (l2 : list U),
  NoDup l2 -> NoDup (map snd (combine l1 l2)).
Proof.
  induction l1 as [|a l1 IH]; intros [|b l2] H; simpl; try constructor.
  - inversion H as [|? ? Hb _]; subst. intros Hin. apply Hb.
    apply in_map_iff in Hin. destruct Hin as ([a' b'] & <- & Hin).
    simpl. eapply in_combine_r. exact Hin.
  - inversion H; subst. now apply IH.
Qed.

Section Index.
Context {F : Type} {FL : Float64 F} {A : ArgSort}.

(** [_limit_features] keeps terms of the vocabulary, each once, and no
    more of them than the limit. *)
Lemma limit_features_spec (n : nat) (vocab : list string)
      (docs : list (list string)) :
  NoDup vocab ->
  let kept := Sk.limit_features (Some n) vocab docs in
  NoDup kept /\ incl kept vocab /\ (List.length kept <= n)%nat /\
  ((List.length vocab <= n)%nat -> kept = vocab).
Proof.
  intros Hnd. simpl. destruct (Nat.leb_spec (List.length vocab) n) as [Hle|Hgt].
  - repeat split; auto. apply incl_refl.
  - set (mask_inds := Py.slice_to (Z.of_nat n) _).
    set (f := fun jt : nat * string => existsb (Nat.eqb (fst jt)) mask_inds).
    repeat split.
    + apply NoDup_snd_filter, NoDup_snd_combine, Hnd.
    + intros t Ht. apply in_map_iff in Ht. destruct Ht as ([j t'] & <- & Hin).
      apply filter_In in Hin. destruct Hin as [Hin _].
      eapply in_combine_r. exact Hin.
    + rewrite List.length_map.
      rewrite <- (List.length_map fst).
      transitivity (List.length mask_inds).
      * apply NoDup_incl_length.
        -- apply NoDup_fst_filter, NoDup_fst_combine, seq_NoDup.
        -- intros j Hj. apply in_map_iff in Hj.
           destruct Hj as ([j' t] & <- & Hin). apply filter_In in Hin.
           destruct Hin as [_ Hf]. unfold f in Hf. simpl in Hf.
           apply existsb_exists in Hf. destruct Hf as (k & Hk & E).
           apply Nat.eqb_eq in E. simpl. now subst.
      * unfold mask_inds. rewrite length_slice_to, clip_nonneg by lia. lia.
    + lia.
Qed.

(** What [build_tfidf] returns, spelled out. *)
Lemma build_tfidf_inv english df (vect : Sk.TfidfVectorizer F) X :
  Recommender.build_tfidf english df = inr (vect, X) ->
  let docs := map Pd.text (Pd.rows df) in
  let toks := map (Sk.analyze english) docs in
  let vocab0 := Sk.sorted_terms (Sk.distinct [] (List.concat toks)) in
  vocab0 <> [] /\
  Sk.stop_words vect = english /\
  Sk.vocabulary_ vect = Sk.limit_features (Some (100 * 100)%nat) vocab0 toks /\
  Sk.idf_ vect
  = map (fun t => Sk.idf (List.length docs) (Sk.doc_freq t toks))
        (Sk.vocabulary_ vect) /\
  X = map (fun d => Sk.tfidf_row (Sk.idf_ vect)
                      (Sk.stored_row (Sk.distinct [] (List.concat toks))
                                     (Sk.vocabulary_ vect) d))
          toks.
Proof.
  unfold Recommender.build_tfidf, Pd.getitem_text.
  destruct (existsb _ _); simpl; [|discriminate].
  unfold Sk.fit_transform.
  destruct (Sk.sorted_terms _) eqn:Ev; simpl; [discriminate|].
  intros [= <- <-]. simpl. repeat split. discriminate.
Qed.

(** X5. The vocabulary of the index.  No term occurs twice in it; each
    is a token of the text of some record and is not a stop word; there
    are at most 10000 terms, each with one idf weight; and when the
    corpus has no more than 10000 different tokens, every token of every
    record is a term. *)
Theorem vocabulary_of_the_index english df (vect : Sk.TfidfVectorizer F) X :
  Recommender.build_tfidf english df = inr (vect, X) ->
  let vocab := Sk.vocabulary_ vect in
  let tokens := List.concat (map (fun p => Sk.analyze english (Pd.text p))
                                 (Pd.rows df)) in
  NoDup vocab /\
  (forall t, In t vocab ->
     ~ In t english /\
     exists p, In p (Pd.rows df) /\ In t (Sk.analyze english (Pd.text p))) /\
  (List.length vocab <= 100 * 100)%nat /\
  List.length (Sk.idf_ vect) = List.length vocab /\
  ((List.length (Sk.distinct [] tokens) <= 100 * 100)%nat ->
   forall p t, In p (Pd.rows df) -> In t (Sk.analyze english (Pd.text p)) ->
               In t vocab).
Proof.
  intros Hb vocab tokens.
  destruct (build_tfidf_inv _ _ Hb) as (_ & _ & Hv & Hidf & _).
  rewrite map_map in Hv. fold tokens in Hv.
  destruct (distinct_spec tokens []) as [Hnd Hin].
  assert (Hnd0 : NoDup (Sk.sorted_terms (Sk.distinct [] tokens))).
  { eapply Permutation_NoDup; [symmetry; apply sorted_terms_perm | exact Hnd]. }
  destruct (limit_features_spec (100 * 100)
              (map (Sk.analyze english) (map Pd.text (Pd.rows df))) Hnd0)
    as (Hk1 & Hk2 & Hk3 & Hk4).
  rewrite map_map in Hk1, Hk2, Hk3, Hk4.
  rewrite <- Hv in Hk1, Hk2, Hk3, Hk4. fold vocab in Hk1, Hk2, Hk3, Hk4.
  assert (Htok : forall t, In t tokens <->
                   exists p, In p (Pd.rows df) /\
                             In t (Sk.analyze english (Pd.text p))).
  { intros t. unfold tokens. rewrite in_concat. split.
    - intros (l & Hl & Ht). apply in_map_iff in Hl.
      destruct Hl as (p & <- & Hp). eauto.
    - intros (p & Hp & Ht). eexists. split; [|exact Ht].
      apply in_map_iff. eauto. }
  split; [exact Hk1|]. split; [|split; [exact Hk3|split]].
  - intros t Ht. apply Hk2 in Ht.
    apply (Permutation_in _ (sorted_terms_perm _)) in Ht.
    apply Hin in Ht. destruct Ht as [Ht _]. apply Htok in Ht.
    split; [|exact Ht]. destruct Ht as (p & _ & Ht).
    unfold Sk.analyze in Ht. apply filter_In in Ht. destruct Ht as [_ Hs].
    apply negb_true_iff in Hs. intros H. apply mem_In in H. congruence.
  - fold vocab in Hidf. rewrite Hidf. apply List.length_map.
  - intros Hsmall p t Hp Ht. rewrite Hk4.
    + apply (Permutation_in _ (Permutation_sym (sorted_terms_perm _))).
      apply Hin. split; [|intros []]. apply Htok. eauto.
    + now rewrite (Permutation_length (sorted_terms_perm _)).
Qed.

(** X6. When [build_tfidf] fails.  On a table of one record or more it
    returns an index exactly when the text of some record has a token
    that is not a stop word; otherwise it raises the [ValueError] of an
    empty vocabulary, and nothing else. *)
Theorem build_tfidf_needs_a_term english (p : Pd.Paper) (ps : list Pd.Paper) :
  let df := Pd.DataFrame_of (p :: ps) in
  ((exists vX : Sk.TfidfVectorizer F * Sk.csr,
       Recommender.build_tfidf english df = inr vX) <->
   Exists (fun r => Sk.analyze english (Pd.text r) <> []) (p :: ps)) /\
  (forall e, Recommender.build_tfidf english df = inl e ->
             e = Py.ValueError
                   "empty vocabulary; perhaps the documents only contain stop words") /\
  UI.build_tfidf english df = Recommender.build_tfidf english df.
Proof.
  intros df.
  assert (Hempty : forall l : list Pd.Paper,
             List.concat (map (Sk.analyze english) (map Pd.text l)) = [] <->
             ~ Exists (fun r => Sk.analyze english (Pd.text r) <> []) l).
  { induction l as [|r l IH]; simpl.
    - split; [intros _ H; inversion H | reflexivity].
    - rewrite Exists_cons. split.
      + intros H. apply app_eq_nil in H. destruct H as [H1 H2].
        apply IH in H2. tauto.
      + intros H. destruct (Sk.analyze english (Pd.text r)) eqn:Ea.
        * simpl. apply IH. tauto.
        * exfalso. apply H. left. discriminate. }
  assert (Hvocab : forall l : list string, Sk.sorted_terms (Sk.distinct [] l) = []
                                           <-> l = []).
  { intros l. split.
    - intros H. destruct l as [|t l]; [reflexivity|].
      pose proof (sorted_terms_perm (Sk.distinct [] (t :: l))) as Hp.
      rewrite H in Hp. apply Permutation_nil in Hp. simpl in Hp. discriminate.
    - intros ->. reflexivity. }
  unfold Recommender.build_tfidf, UI.build_tfidf, Pd.getitem_text. simpl.
  unfold Sk.fit_transform. simpl Sk.stop_words.
  specialize (Hempty (p :: ps)). simpl map in Hempty.
  destruct (Sk.sorted_terms _) eqn:Ev.
  - apply (proj1 (Hvocab _)) in Ev. apply (proj1 Hempty) in Ev.
    repeat split.
    + intros (vX & H). discriminate.
    + intros H. contradiction.
    + intros e [= <-]. reflexivity.
  - repeat split.
    + intros _.
      assert (Hdec : forall r : Pd.Paper,
                 {Sk.analyze english (Pd.text r) <> []}
                 + {~ Sk.analyze english (Pd.text r) <> []}).
      { intros r. destruct (Sk.analyze english (Pd.text r));
          [right; tauto | left; discriminate]. }
      destruct (Exists_dec _ (p :: ps) Hdec) as [H|H]; [exact H|].
      apply (proj2 Hempty) in H. apply (proj2 (Hvocab _)) in H.
      pose proof (eq_trans (eq_sym Ev) H) as E. discriminate E.
    + intros _. eexists. reflexivity.
    + intros e. discriminate.
Qed.

End Index.

Lemma filter_combine_seq {U} (f : nat * U -> bool) (n : nat) :
  forall (a : nat) (cs : list U),
    let l := map fst (filter f (combine (seq a n) cs)) in
    StronglySorted lt l /\ Forall (fun j => (a <= j < a + n)%nat) l.
Proof.
  induction n as [|n IH]; intros a cs; simpl.
  - split; constructor.
  - destruct cs as [|c cs]; simpl; [split; constructor|].
    destruct (IH (S a) cs) as [Hs Hr].
    assert (Hr' : Forall (fun j => (a <= j < a + S n)%nat)
                    (map fst (filter f (combine (seq (S a) n) cs)))).
    { eapply Forall_impl; [|exact Hr]. simpl. intros; lia. }
    destruct (f (a, c)); simpl; [|split; assumption].
    split.
    + constructor; [assumption|].
      eapply Forall_impl; [|exact Hr]. simpl. intros; lia.
    + constructor; [lia | assumption].
Qed.

Lemma index_of_nth (t : string) (vocab : list string) : forall j,
  Sk.index_of t vocab = Some j -> nth_error vocab j = Some t.
Proof.
  induction vocab as [|u vocab IH]; simpl; intros j; [discriminate|].
  destruct (String.eqb_spec t u) as [->|_].
  - intros [= <-]. reflexivity.
  - destruct (Sk.index_of t vocab) as [k|]; simpl; [|discriminate].
    intros [= <-]. simpl. now apply IH.
Qed.

Lemma nth_index_of (t : string) (vocab : list string) : forall j,
  NoDup vocab -> nth_error vocab j = Some t -> Sk.index_of t vocab = Some j.
Proof.
  induction vocab as [|u vocab IH]; intros [|j] Hnd Hj; simpl in *;
    try discriminate.
  - injection Hj as ->. now rewrite String.eqb_refl.
  - inversion Hnd as [|? ? Hu Hnd']; subst.
    destruct (String.eqb_spec t u) as [->|_].
    + exfalso. apply Hu. eapply nth_error_In. exact Hj.
    + now rewrite (IH j Hnd' Hj).
Qed.

(** What a stored row holds: one entry for each term of the vocabulary
    that the tokens have, under the column of the term. *)
Lemma stored_row_spec (seen vocab tokens : list string) (j c : nat) :
  In (j, c) (Sk.stored_row seen vocab tokens) <->
  exists t, In t seen /\ Sk.index_of t vocab = Some j /\
            c = Sk.count t tokens /\ (0 < c)%nat.
Proof.
  unfold Sk.stored_row. rewrite in_flat_map. split.
  - intros (t & Ht & Hin). exists t. split; [exact Ht|].
    destruct (Sk.index_of t vocab) as [k|]; [|contradiction].
    destruct (Nat.ltb_spec 0 (Sk.count t tokens)); [|contradiction].
    destruct Hin as [[= <- <-]|[]]. auto.
  - intros (t & Ht & Hj & -> & Hc). exists t. split; [exact Ht|].
    rewrite Hj. destruct (Nat.ltb_spec 0 (Sk.count t tokens)); [|lia].
    now left.
Qed.

Lemma stored_row_columns (seen vocab tokens : list string) :
  NoDup seen ->
  NoDup (map fst (Sk.stored_row seen vocab tokens)) /\
  Forall (fun j => (j < List.length vocab)%nat)
         (map fst (Sk.stored_row seen vocab tokens)).
Proof.
  intros Hnd. split.
  - unfold Sk.stored_row. induction Hnd as [|t seen Ht _ IH]; simpl;
      [constructor|].
    destruct (Sk.index_of t vocab) as [j|] eqn:Ej; [|exact IH].
    destruct (0 <? Sk.count t tokens)%nat; [|exact IH].
    simpl. constructor; [|exact IH].
    intros Hin. apply in_map_iff in Hin. destruct Hin as ([j' c] & E & Hin).
    simpl in E. subst j'.
    change (In (j, c) (Sk.stored_row seen vocab tokens)) in Hin.
    apply stored_row_spec in Hin. destruct Hin as (u & Hu & Eu & _).
    apply index_of_nth in Ej, Eu.
    assert (u = t) by congruence. subst u. contradiction.
  - rewrite Forall_forall. intros j Hj. apply in_map_iff in Hj.
    destruct Hj as ([j' c] & E & Hin). simpl in E. subst j'.
    apply stored_row_spec in Hin. destruct Hin as (u & _ & Eu & _).
    apply index_of_nth in Eu. apply nth_error_Some. congruence.
Qed.

Lemma count_row_spec (vocab tokens : list string) (j c : nat) :
  In (j, c) (Sk.count_row vocab tokens) <->
  exists t, nth_error vocab j = Some t /\ c = Sk.count t tokens /\ (0 < c)%nat.
Proof.
  unfold Sk.count_row. rewrite filter_In. simpl.
  rewrite Nat.ltb_lt. split.
  - intros [Hin Hc].
    assert (H : forall a (l : list string),
               In (j, c) (combine (seq a (List.length l))
                                  (map (fun t => Sk.count t tokens) l)) ->
               exists t, nth_error l (j - a) = Some t /\ (a <= j)%nat /\
                         c = Sk.count t tokens).
    { intros a l. revert a. induction l as [|u l IH]; simpl; intros a H;
        [contradiction|].
      destruct H as [[= <- <-]|H].
      - exists u. rewrite Nat.sub_diag. auto.
      - apply IH in H. destruct H as (t & Ht & Ha & Ec).
        exists t. replace (j - a)%nat with (S (j - S a)) by lia. simpl.
        split; [exact Ht|]. split; [lia | exact Ec]. }
    apply H in Hin. destruct Hin as (t & Ht & _ & Ec).
    rewrite Nat.sub_0_r in Ht. eauto.
  - intros (t & Ht & -> & Hc). split; [|exact Hc].
    assert (H : forall a (l : list string) k,
               nth_error l k = Some t ->
               In ((a + k)%nat, Sk.count t tokens)
                  (combine (seq a (List.length l))
                           (map (fun t => Sk.count t tokens) l))).
    { intros a l. revert a. induction l as [|u l IH]; intros a [|k] Hk;
        simpl in *; try discriminate.
      - injection Hk as ->. left. f_equal. lia.
      - right. replace (a + S k)%nat with (S a + k)%nat by lia. now apply IH. }
    exact (H 0%nat vocab j Ht).
Qed.

(** A stored row holds the entries of the row [transform] builds from
    the same tokens, in another order. *)
Lemma stored_row_perm (seen vocab tokens : list string) :
  NoDup seen -> NoDup vocab -> incl vocab seen ->
  Permutation (Sk.count_row vocab tokens) (Sk.stored_row seen vocab tokens).
Proof.
  intros Hseen Hvocab Hincl. apply NoDup_Permutation.
  - eapply NoDup_map_inv. apply count_row_columns.
  - eapply NoDup_map_inv. apply (stored_row_columns vocab tokens Hseen).
  - intros [j c]. rewrite stored_row_spec, count_row_spec. split.
    + intros (t & Ht & Hc). exists t. split.
      * apply Hincl. eapply nth_error_In. exact Ht.
      * split; [now apply nth_index_of | exact Hc].
    + intros (t & _ & Ht & Hc). exists t. split; [|exact Hc].
      now apply index_of_nth.
Qed.

Section Matrix.
Context {F : Type} {FL : Float64 F} {A : ArgSort}.

Lemma normalize_columns (r : Sk.csr_row (F := F)) :
  map fst (Sk.normalize r) = map fst r.
Proof.
  unfold Sk.normalize. destruct (feqb _ _); [reflexivity|].
  now rewrite map_map.
Qed.

Lemma tfidf_row_columns_of (idfs : list F) (counts : list (nat * nat)) :
  map fst (Sk.tfidf_row idfs counts) = map fst counts.
Proof.
  unfold Sk.tfidf_row. rewrite normalize_columns, map_map. reflexivity.
Qed.

Lemma tfidf_row_columns (idfs : list F) (vocab tokens : list string) :
  let cols := map fst (Sk.tfidf_row idfs (Sk.count_row vocab tokens)) in
  StronglySorted lt cols /\
  Forall (fun j => (j < List.length vocab)%nat) cols.
Proof.
  simpl. rewrite tfidf_row_columns_of.
  unfold Sk.count_row.
  destruct (filter_combine_seq (fun jc : nat * nat => (0 <? snd jc)%nat)
              (List.length vocab) 0
              (map (fun t => Sk.count t tokens) vocab)) as [Hs Hr].
  split; [exact Hs|]. eapply Forall_impl; [|exact Hr]. simpl. intros; lia.
Qed.

(** The rows of the matrix, one per record: the stored row of the
    record's tokens, over a list [seen] of terms that holds the
    vocabulary. *)
Lemma built_rows english df (vect : Sk.TfidfVectorizer F) X :
  Recommender.build_tfidf english df = inr (vect, X) ->
  exists seen,
    NoDup seen /\ NoDup (Sk.vocabulary_ vect) /\
    incl (Sk.vocabulary_ vect) seen /\
    X = map (fun p => Sk.tfidf_row (Sk.idf_ vect)
                        (Sk.stored_row seen (Sk.vocabulary_ vect)
                           (Sk.analyze (Sk.stop_words vect) (Pd.text p))))
            (Pd.rows df).
Proof.
  intros Hb.
  destruct (build_tfidf_inv _ _ Hb) as (_ & Hstop & Hv & _ & HX).
  set (toks := map (Sk.analyze english) (map Pd.text (Pd.rows df))) in *.
  destruct (distinct_spec (List.concat toks) []) as [Hnd _].
  assert (Hnd0 : NoDup (Sk.sorted_terms (Sk.distinct [] (List.concat toks)))).
  { eapply Permutation_NoDup; [symmetry; apply sorted_terms_perm | exact Hnd]. }
  destruct (limit_features_spec (100 * 100) toks Hnd0) as (Hk1 & Hk2 & _).
  rewrite <- Hv in Hk1, Hk2.
  exists (Sk.distinct [] (List.concat toks)).
  split; [exact Hnd|]. split; [exact Hk1|]. split.
  - intros t Ht. apply Hk2 in Ht.
    exact (Permutation_in _ (sorted_terms_perm _) Ht).
  - rewrite HX, Hstop. unfold toks. now rewrite !map_map.
Qed.

(** X7. The weight matrix of the index.  It has one row per record.
    In every row no column is stored twice and each column is the
    position of a term of the vocabulary; the row of a record stores
    the same columns as the row [transform] gives the record's text,
    not always in the same order.  In the row of a query the columns
    are strictly increasing. *)
Theorem matrix_of_the_index english df (vect : Sk.TfidfVectorizer F) X :
  Recommender.build_tfidf english df = inr (vect, X) ->
  let in_vocabulary (r : Sk.csr_row (F := F)) :=
    Forall (fun j => (j < List.length (Sk.vocabulary_ vect))%nat) (map fst r) in
  List.length X = Pd.len df /\
  Forall (fun r => NoDup (map fst r) /\ in_vocabulary r) X /\
  (forall d p, nth_error (Pd.rows df) d = Some p ->
     exists r, nth_error X d = Some r /\
               Permutation (map fst (query_row vect (Pd.text p))) (map fst r)) /\
  (forall query,
     StronglySorted lt (map fst (query_row vect query)) /\
     in_vocabulary (query_row vect query)).
Proof.
  intros Hb in_voc. split; [now apply (build_tfidf_rows _ _ Hb)|].
  destruct (built_rows _ _ Hb) as (seen & Hseen & Hvocab & Hincl & ->).
  split; [|split].
  - rewrite Forall_forall. intros r Hr. apply in_map_iff in Hr.
    destruct Hr as (p & <- & _). unfold in_voc.
    rewrite tfidf_row_columns_of. now apply stored_row_columns.
  - intros d p Hd. rewrite nth_error_map, Hd. simpl.
    eexists. split; [reflexivity|].
    unfold query_row. rewrite !tfidf_row_columns_of.
    apply Permutation_map. now apply stored_row_perm.
  - intros query. apply tfidf_row_columns.
Qed.

End Matrix.

(* ================================================================== *)
(** * A query that is a record's text *)
(* ================================================================== *)

(** C4, as the code has it.  Let the query be the combined text of a
    record d of the indexed corpus.  In exact (real) arithmetic, on both
    surfaces, d has a score and no record scores more than d: d ranks
    first or ties for first.  (In doubles another record can score
    more: [own_text_outranked_in_doubles].) *)
Theorem own_text_ranks_first_in_exact_arithmetic
        (english : list string) (df : Pd.DataFrame) (d : nat) (p : Pd.Paper) :
  nth_error (Pd.rows df) d = Some p ->
  forall (A : ArgSort) (vect : Sk.TfidfVectorizer Rdefinitions.R)
         (X : Sk.csr (F := Rdefinitions.R)),
    @Recommender.build_tfidf _ Exact.reals A english df = inr (vect, X) ->
    let sims := @Recommender.similarities _ Exact.reals (Pd.text p) vect X in
    @UI.similarities _ Exact.reals (Pd.text p) vect X = sims /\
    exists s_d,
      nth_error sims d = Some s_d /\
      forall j s_j, nth_error sims j = Some s_j -> Rdefinitions.Rle s_j s_d.
Proof.
  intros Hd A vect X Hb sims. split; [reflexivity|].
  destruct (built_rows _ _ Hb) as (seen & Hseen & Hvocab & Hincl & HX).
  unfold sims. rewrite similarities_eq, HX, map_map.
  rewrite nth_error_map, Hd. simpl. eexists. split; [reflexivity|].
  intros j s_j Hj. rewrite nth_error_map in Hj.
  destruct (nth_error (Pd.rows df) j) as [q|]; [|discriminate].
  simpl in Hj. injection Hj as <-.
  unfold query_row. apply ExactFacts.row_product_le.
  - apply count_row_columns.
  - now apply stored_row_perm.
Qed.

Lemma vocabulary_of_the_index_witness :
  let vocab := Sk.vocabulary_ Demo.vect in
  let tokens := List.concat (map (fun p => Sk.analyze Demo.stop (Pd.text p))
                                 (Pd.rows Demo.corpus)) in
  NoDup vocab /\
  (forall t, In t vocab ->
     ~ In t Demo.stop /\
     exists p, In p (Pd.rows Demo.corpus) /\
               In t (Sk.analyze Demo.stop (Pd.text p))) /\
  (List.length vocab <= 100 * 100)%nat /\
  List.length (Sk.idf_ Demo.vect) = List.length vocab /\
  ((List.length (Sk.distinct [] tokens) <= 100 * 100)%nat ->
   forall p t, In p (Pd.rows Demo.corpus) ->
               In t (Sk.analyze Demo.stop (Pd.text p)) ->
               In t vocab).
Proof.
  refine (@vocabulary_of_the_index Q Qscore insertion_argsort
            Demo.stop Demo.corpus Demo.vect Demo.X _).
  vm_compute. reflexivity.
Defined.

Lemma matrix_of_the_index_witness :
  let in_vocabulary (r : Sk.csr_row (F := Q)) :=
    Forall (fun j => (j < List.length (Sk.vocabulary_ Demo.vect))%nat)
           (map fst r) in
  List.length Demo.X = Pd.len Demo.corpus /\
  Forall (fun r => NoDup (map fst r) /\ in_vocabulary r) Demo.X /\
  (forall d p, nth_error (Pd.rows Demo.corpus) d = Some p ->
     exists r, nth_error Demo.X d = Some r /\
               Permutation (map fst (@query_row Q Qscore Demo.vect (Pd.text p)))
                           (map fst r)) /\
  (forall query,
     StronglySorted lt (map fst (@query_row Q Qscore Demo.vect query)) /\
     in_vocabulary (@query_row Q Qscore Demo.vect query)).
Proof.
  refine (@matrix_of_the_index Q Qscore insertion_argsort
            Demo.stop Demo.corpus Demo.vect Demo.X _).
  vm_compute. reflexivity.
Defined.

(* ================================================================== *)
(** * What [fetch_arxiv_papers] returns and raises *)
(* ================================================================== *)

Lemma mapM_inr {T U} (f : T -> Py.M U) (l : list T) : forall ys,
  Py.mapM f l = inr ys <-> Forall2 (fun x y => f x = inr y) l ys.
Proof.
  induction l as [|x l IH]; intros ys; simpl.
  - split.
    + intros [= <-]. constructor.
    + intros H. inversion H. reflexivity.
  - unfold Py.bind. destruct (f x) as [e|y] eqn:Ef.
    + split; [discriminate|]. intros H.
      inversion H as [|? y ? ? Hy _]; subst. rewrite Ef in Hy. discriminate.
    + destruct (Py.mapM f l) as [e|ys'] eqn:Em.
      * split; [discriminate|]. intros H. inversion H as [|? ? ? ? _ Hl]; subst.
        apply IH in Hl. discriminate.
      * split.
        -- intros [= <-]. constructor; [assumption|]. now apply IH.
        -- intros H. inversion H as [|? y' ? ys'' Hy Hl]; subst.
           apply IH in Hl. rewrite Ef in Hy.
           injection Hy as <-. injection Hl as <-. reflexivity.
Qed.

Lemma mapM_inl {T U} (f : T -> Py.M U) (pre : list T) (x : T) (post : list T)
      (ys : list U) (e : Py.Exn) :
  Forall2 (fun x y => f x = inr y) pre ys ->
  f x = inl e ->
  Py.mapM f (pre ++ x :: post) = inl e.
Proof.
  induction 1 as [|a y pre ys Ha _ IH]; intros Hx; simpl.
  - unfold Py.bind. now rewrite Hx.
  - unfold Py.bind in *. rewrite Ha, (IH Hx). reflexivity.
Qed.

(** X8. A successful fetch.  When the API answers 200 and every entry of
    the feed parses, both surfaces return one record per entry, in the
    order of the feed, each the record of its entry. *)
Theorem fetch_returns_one_record_per_entry
        (http_get : Http.Get) (r : Http.Response)
        (es : list Http.Entry) (ps : list Pd.Paper)
        (topic category keywords : string) :
  (forall url params, http_get url params = inr r) ->
  Http.status_code r = 200 ->
  Http.entries r = inr es ->
  Forall2 (fun e p => Recommender.parse_entry e = inr p) es ps ->
  Recommender.fetch_arxiv_papers http_get topic category keywords
  = inr (Pd.DataFrame_of ps) /\
  UI.fetch_arxiv_papers http_get topic category keywords
  = inr (Pd.DataFrame_of ps) /\
  Pd.len (Pd.DataFrame_of ps) = List.length es.
Proof.
  intros Hget Hs He Hall.
  assert (Hm : Py.mapM Recommender.parse_entry es = inr ps)
    by now apply mapM_inr.
  unfold Recommender.fetch_arxiv_papers, UI.fetch_arxiv_papers, UI.parse_entry.
  rewrite !Hget. simpl. rewrite Hs, He. simpl. rewrite Hm. simpl.
  repeat split. unfold Pd.len. simpl. symmetry.
  eapply Forall2_length. exact Hall.
Qed.

(** X9. A fetch that raises.  Neither surface catches anything: the
    exception of the request is raised; on a 200 answer, so is the
    exception of a body that is not XML, and so is the exception of the
    first entry that does not parse, in which case no record is
    returned, not even those of the entries before it. *)
Theorem fetch_raises_what_goes_wrong
        (http_get : Http.Get) (answer : Py.M Http.Response)
        (topic category keywords : string) (x : Py.Exn) :
  (forall url params, http_get url params = answer) ->
  (answer = inl x \/
   (exists r, answer = inr r /\ Http.status_code r = 200 /\
              Http.entries r = inl x) \/
   (exists r pre ps e post,
       answer = inr r /\ Http.status_code r = 200 /\
       Http.entries r = inr (pre ++ e :: post)%list /\
       Forall2 (fun e p => Recommender.parse_entry e = inr p) pre ps /\
       Recommender.parse_entry e = inl x)) ->
  Recommender.fetch_arxiv_papers http_get topic category keywords = inl x /\
  UI.fetch_arxiv_papers http_get topic category keywords = inl x.
Proof.
  intros Hget Hcase.
  unfold Recommender.fetch_arxiv_papers, UI.fetch_arxiv_papers, UI.parse_entry.
  rewrite !Hget.
  destruct Hcase as [->|[(r & -> & Hs & He)|(r & pre & ps & e & post & -> & Hs & He & Hpre & Hx)]];
    simpl.
  - split; reflexivity.
  - rewrite Hs, He. split; reflexivity.
  - rewrite Hs, He. simpl. rewrite (@mapM_inl _ _ Recommender.parse_entry pre e post ps x Hpre Hx).
    split; reflexivity.
Qed.

(* ================================================================== *)
(** * The record of an entry *)
(* ================================================================== *)

Lemma lstrip_head (l : list ascii) :
  match Py.lstrip_chars l with
  | [] => True
  | c :: _ => Py.isspace c = false
  end.
Proof.
  induction l as [|c l IH]; simpl; [exact I|].
  destruct (Py.isspace c) eqn:Ec; [exact IH | exact Ec].
Qed.

Lemma lstrip_suffix (l : list ascii) :
  exists pre, l = (pre ++ Py.lstrip_chars l)%list.
Proof.
  induction l as [|c l (pre & IH)]; simpl; [now exists []|].
  destruct (Py.isspace c).
  - exists (c :: pre). simpl. now f_equal.
  - now exists [].
Qed.

Lemma lstrip_unspaced (l : list ascii) :
  match l with [] => True | c :: _ => Py.isspace c = false end ->
  Py.lstrip_chars l = l.
Proof.
  destruct l as [|c l]; simpl; [reflexivity|]. now intros ->.
Qed.

(** What [strip] returns neither starts nor ends with white space. *)
Lemma strip_ends (s : string) :
  let l := Py.chars (Py.strip s) in
  match l with [] => True | c :: _ => Py.isspace c = false end /\
  match rev l with [] => True | c :: _ => Py.isspace c = false end.
Proof.
  simpl. unfold Py.strip, Py.chars, Py.str.
  rewrite list_ascii_of_string_of_list_ascii.
  set (A := Py.lstrip_chars (list_ascii_of_string s)).
  set (B := Py.lstrip_chars (rev A)).
  rewrite rev_involutive. split; [|apply lstrip_head].
  destruct (lstrip_suffix (rev A)) as (pre & Hpre). fold B in Hpre.
  assert (HA : A = (rev B ++ rev pre)%list).
  { rewrite <- rev_app_distr, <- Hpre. now rewrite rev_involutive. }
  pose proof (lstrip_head (list_ascii_of_string s)) as Hhead. fold A in Hhead.
  rewrite HA in Hhead. destruct (rev B); simpl in *; [exact I | exact Hhead].
Qed.

(** A string with no white space at either end is left as it is. *)
Lemma strip_nonspace_ends (s : string) :
  match Py.chars s with [] => True | c :: _ => Py.isspace c = false end ->
  match rev (Py.chars s) with [] => True | c :: _ => Py.isspace c = false end ->
  Py.strip s = s.
Proof.
  intros H1 H2. unfold Py.strip.
  rewrite (lstrip_unspaced _ H1), (lstrip_unspaced _ H2), rev_involutive.
  apply string_of_list_ascii_of_string.
Qed.

Lemma replace_newlines_spec (s : string) :
  let l := Py.chars s in
  match l with [] => True | c :: _ => Py.isspace c = false end ->
  match rev l with [] => True | c :: _ => Py.isspace c = false end ->
  ~ In "010"%char (Py.chars (Py.replace_newlines s)) /\
  Py.strip (Py.replace_newlines s) = Py.replace_newlines s.
Proof.
  simpl. intros Hfirst Hlast.
  unfold Py.replace_newlines, Py.chars, Py.str in *.
  set (g := fun c : ascii => if Ascii.eqb c "010"%char then " "%char else c).
  set (l := list_ascii_of_string s) in *.
  rewrite list_ascii_of_string_of_list_ascii.
  assert (Hg : forall c, Py.isspace c = false -> g c = c).
  { intros c Hc. unfold g. destruct (Ascii.eqb c "010"%char) eqn:E;
      [|reflexivity]. apply Ascii.eqb_eq in E. rewrite E in Hc. discriminate. }
  split.
  - intros Hin. apply in_map_iff in Hin. destruct Hin as (c & Hc & _).
    unfold g in Hc. destruct (Ascii.eqb c "010"%char) eqn:E;
      [discriminate|]. rewrite Hc in E. discriminate.
  - apply strip_nonspace_ends; unfold Py.chars;
      rewrite list_ascii_of_string_of_list_ascii.
    + destruct l as [|c l']; simpl; [exact I|]. now rewrite (Hg c Hfirst).
    + rewrite <- map_rev. destruct (rev l) as [|c l']; simpl; [exact I|].
      now rewrite (Hg c Hlast).
Qed.

Lemma clean_text_spec (t : option string) (s : string) :
  Recommender.clean_text t = inr s ->
  ~ In "010"%char (Py.chars s) /\ Py.strip s = s.
Proof.
  destruct t as [t|]; simpl; [|discriminate]. intros [= <-].
  destruct (strip_ends t) as [H1 H2]. now apply replace_newlines_spec.
Qed.

Lemma length_str (l : list ascii) : String.length (Py.str l) = List.length l.
Proof.
  unfold Py.str. induction l as [|c l IH]; simpl; [reflexivity | now f_equal].
Qed.

Lemma prefix_prefix (i j : nat) (s : string) :
  Py.prefix i (Py.prefix j s) = Py.prefix (Nat.min i j) s.
Proof.
  unfold Py.prefix, Py.chars, Py.str.
  rewrite list_ascii_of_string_of_list_ascii. now rewrite firstn_firstn.
Qed.

Lemma length_prefix (n : nat) (s : string) : (String.length (Py.prefix n s) <= n)%nat.
Proof.
  unfold Py.prefix. rewrite length_str. apply List.firstn_le_length.
Qed.

(** X10. The record of an entry that parses.  Its text is its title,
    ". " and its abstract; its title and its abstract hold no newline
    and neither start nor end with white space (stripping them again
    changes nothing); its year is the first four characters of the
    publication date, so at most four characters. *)
Theorem parsed_record_is_normalised (e : Http.Entry) (p : Pd.Paper) :
  Recommender.parse_entry e = inr p ->
  Pd.text p = Pd.title p ++ ". " ++ Pd.abstract p /\
  ~ In "010"%char (Py.chars (Pd.title p)) /\
  ~ In "010"%char (Py.chars (Pd.abstract p)) /\
  Py.strip (Pd.title p) = Pd.title p /\
  Py.strip (Pd.abstract p) = Pd.abstract p /\
  (String.length (Pd.year p) <= 4)%nat /\
  (exists s, Http.e_published e = Some (Some s) /\ Pd.year p = Py.prefix 4 s).
Proof.
  unfold Recommender.parse_entry, Py.bind.
  destruct (Recommender.clean_text (Http.e_title e)) as [|title] eqn:Et;
    [discriminate|].
  destruct (Recommender.clean_text (Http.e_summary e)) as [|abstract] eqn:Ea;
    [discriminate|].
  destruct (Recommender.pdf_link_loop None (Http.e_links e)) as [|link];
    [discriminate|].
  destruct (Recommender.author_names (Http.e_authors e)) as [|names];
    [discriminate|].
  destruct (Recommender.published_date (Http.e_published e)) as [|date] eqn:Ed;
    [discriminate|].
  intros [= <-]. simpl.
  destruct (clean_text_spec _ Et) as [Ht1 Ht2].
  destruct (clean_text_spec _ Ea) as [Ha1 Ha2].
  repeat split; try assumption.
  - apply length_prefix.
  - unfold Recommender.published_date in Ed.
    destruct (Http.e_published e) as [[s|]|]; try discriminate.
    injection Ed as <-. exists s. split; [reflexivity|].
    now rewrite prefix_prefix.
Qed.

Lemma parsed_record_is_normalised_witness :
  Pd.text two_pdfs_paper
  = Pd.title two_pdfs_paper ++ ". " ++ Pd.abstract two_pdfs_paper /\
  ~ In "010"%char (Py.chars (Pd.title two_pdfs_paper)) /\
  ~ In "010"%char (Py.chars (Pd.abstract two_pdfs_paper)) /\
  Py.strip (Pd.title two_pdfs_paper) = Pd.title two_pdfs_paper /\
  Py.strip (Pd.abstract two_pdfs_paper) = Pd.abstract two_pdfs_paper /\
  (String.length (Pd.year two_pdfs_paper) <= 4)%nat /\
  (exists s, Http.e_published two_pdfs = Some (Some s) /\
             Pd.year two_pdfs_paper = Py.prefix 4 s).
Proof.
  exact (@parsed_record_is_normalised two_pdfs two_pdfs_paper eq_refl).
Defined.

(** Which links make the loop over the links raise. *)
Lemma pdf_link_loop_outcome (links : list Http.attribs) : forall acc,
  ((exists r, Recommender.pdf_link_loop acc links = inr r) <->
   (forall l, In l links -> is_pdf l = true -> Http.get "href" l <> None)) /\
  (forall x, Recommender.pdf_link_loop acc links = inl x ->
             x = Py.KeyError "href").
Proof.
  induction links as [|link links IH]; intros acc.
  - simpl. split; [|discriminate]. split; [intros _ l [] | eauto].
  - rewrite pdf_link_loop_step. destruct (is_pdf link) eqn:Ep.
    + destruct (Http.get "href" link) as [href|] eqn:Eh.
      * destruct (IH (Some href)) as [Hiff Herr]. split; [|exact Herr].
        rewrite Hiff. split.
        -- intros H l [<-|Hl] Hp; [congruence | now apply H].
        -- intros H l Hl. apply H. now right.
      * split.
        -- split; [intros (r & H); discriminate|].
           intros H. exfalso. exact (H link (or_introl eq_refl) Ep Eh).
        -- intros x [= <-]. reflexivity.
    + destruct (IH acc) as [Hiff Herr]. split; [|exact Herr].
      rewrite Hiff. split.
      * intros H l [<-|Hl] Hp; [congruence | now apply H].
      * intros H l Hl. apply H. now right.
Qed.

Lemma author_names_outcome (l : list (option (option string))) :
  ((exists s, Recommender.author_names l = inr s) <->
   Forall (fun a => exists n, a = Some (Some n)) l) /\
  (forall x, Recommender.author_names l = inl x ->
             x = Py.AttributeError \/ x = Py.TypeError).
Proof.
  unfold Recommender.author_names, Py.bind.
  destruct (Py.mapM _ l) as [x|names] eqn:E1.
  - split.
    + split; [intros (s & H); discriminate|]. intros Hall. exfalso.
      revert x E1. induction Hall as [|a l (n & ->) _ IH]; simpl; intros x;
        [discriminate|].
      unfold Py.bind. simpl.
      destruct (Py.mapM _ l) as [y|] eqn:E; [|discriminate].
      intros _. exact (IH y eq_refl).
    + intros y [= <-]. left.
      revert x E1. induction l as [|a l IH]; simpl; intros x; [discriminate|].
      unfold Py.bind. destruct a as [n|]; simpl; [|now intros [= <-]].
      destruct (Py.mapM _ l) as [y|] eqn:E; [|discriminate].
      intros [= <-]. now apply IH.
  - apply mapM_inr in E1.
    destruct (Py.mapM _ names) as [x|names'] eqn:E2.
    + split.
      * split; [intros (s & H); discriminate|]. intros Hall. exfalso.
        revert names E1 x E2.
        induction Hall as [|a l (n & ->) _ IH]; intros names E1 x;
          inversion E1 as [|? m ? ms Hm Hl]; subst; simpl; [discriminate|].
        injection Hm as <-. unfold Py.bind. simpl.
        destruct (Py.mapM _ ms) as [y|] eqn:E; [|discriminate].
        intros _. exact (IH ms Hl y E).
      * intros y [= <-]. right. clear E1.
        revert x E2. induction names as [|m ms IH]; simpl; intros x;
          [discriminate|].
        unfold Py.bind. destruct m as [n|]; simpl; [|now intros [= <-]].
        destruct (Py.mapM _ ms) as [y|] eqn:E; [|discriminate].
        intros [= <-]. now apply IH.
    + split; [|discriminate]. split; [|eauto]. intros _.
      apply mapM_inr in E2. clear -E1 E2. revert names' E2.
      induction E1 as [|a m l ms Ha _ IH]; intros names' E2; [constructor|].
      inversion E2 as [|? n ? ns Hn Hns]; subst.
      constructor; [|now apply (IH ns)].
      destruct a as [a|]; [|discriminate]. injection Ha as ->.
      destruct m as [m|]; [|discriminate]. eauto.
Qed.

(** X11. When an entry parses.  [parse_entry] returns exactly when the
    entry has a title and a summary with text, every link titled "pdf"
    has an href, every author has a name with text, and there is a
    publication date with text.  Otherwise it raises [AttributeError],
    [TypeError] or [KeyError('href')], and nothing else. *)
Theorem parse_entry_outcome (e : Http.Entry) :
  ((exists p, Recommender.parse_entry e = inr p) <->
   Http.e_title e <> None /\
   Http.e_summary e <> None /\
   (forall l, In l (Http.e_links e) ->
              Http.get "title" l = Some "pdf" -> Http.get "href" l <> None) /\
   Forall (fun a => exists n, a = Some (Some n)) (Http.e_authors e) /\
   (exists s, Http.e_published e = Some (Some s))) /\
  (forall x, Recommender.parse_entry e = inl x ->
             x = Py.AttributeError \/ x = Py.TypeError \/
             x = Py.KeyError "href").
Proof.
  destruct (pdf_link_loop_outcome (Http.e_links e) None) as [Hl_iff Hl_err].
  destruct (author_names_outcome (Http.e_authors e)) as [Ha_iff Ha_err].
  assert (Hpdf : (forall l, In l (Http.e_links e) -> is_pdf l = true ->
                            Http.get "href" l <> None) <->
                 (forall l, In l (Http.e_links e) ->
                            Http.get "title" l = Some "pdf" ->
                            Http.get "href" l <> None)).
  { split; intros H l Hin Hp; apply (H l Hin).
    - unfold is_pdf. now rewrite Hp.
    - unfold is_pdf in Hp. destruct (Http.get "title" l) as [t|]; [|discriminate].
      apply String.eqb_eq in Hp. now subst. }
  rewrite <- Hpdf, <- Hl_iff, <- Ha_iff.
  unfold Recommender.parse_entry, Py.bind.
  destruct (Http.e_title e) as [t|]; simpl.
  2:{ split; [|intros x [= <-]; tauto].
      split; [intros (p & H); discriminate | intros (H & _); congruence]. }
  destruct (Http.e_summary e) as [a|]; simpl.
  2:{ split; [|intros x [= <-]; tauto].
      split; [intros (p & H); discriminate | intros (_ & H & _); congruence]. }
  destruct (Recommender.pdf_link_loop None (Http.e_links e)) as [x1|link].
  { split; [|intros x [= <-]; right; right; now apply Hl_err].
    split; [intros (p & H); discriminate|].
    intros (_ & _ & (r & H) & _). discriminate. }
  destruct (Recommender.author_names (Http.e_authors e)) as [x2|names].
  { split; [|intros x [= <-]; destruct (Ha_err x2 eq_refl); tauto].
    split; [intros (p & H); discriminate|].
    intros (_ & _ & _ & (s & H) & _). discriminate. }
  destruct (Http.e_published e) as [[s|]|]; simpl.
  - split; [|discriminate]. split; [|eauto]. intros _.
    repeat split; try discriminate; eauto.
  - split; [|intros x [= <-]; tauto].
    split; [intros (p & H); discriminate|].
    intros (_ & _ & _ & _ & (s & H)). discriminate.
  - split; [|intros x [= <-]; tauto].
    split; [intros (p & H); discriminate|].
    intros (_ & _ & _ & _ & (s & H)). discriminate.
Qed.

Lemma fetch_returns_one_record_per_entry_witness :
  Recommender.fetch_arxiv_papers arxiv_stub "DSA" "cs" "graph"
  = inr (Pd.DataFrame_of [two_pdfs_paper; one_pdf_paper]) /\
  UI.fetch_arxiv_papers arxiv_stub "DSA" "cs" "graph"
  = inr (Pd.DataFrame_of [two_pdfs_paper; one_pdf_paper]) /\
  Pd.len (Pd.DataFrame_of [two_pdfs_paper; one_pdf_paper])
  = List.length [two_pdfs; one_pdf].
Proof.
  apply (@fetch_returns_one_record_per_entry arxiv_stub
           {| Http.status_code := 200;
              Http.entries := inr [two_pdfs; one_pdf] |}
           [two_pdfs; one_pdf] [two_pdfs_paper; one_pdf_paper]
           "DSA" "cs" "graph").
  - intros url params. reflexivity.
  - reflexivity.
  - reflexivity.
  - repeat constructor.
Defined.

Lemma fetch_raises_what_goes_wrong_witness :
  Recommender.fetch_arxiv_papers broken_stub "DSA" "cs" "graph"
  = inl Py.TypeError /\
  UI.fetch_arxiv_papers broken_stub "DSA" "cs" "graph" = inl Py.TypeError.
Proof.
  apply (@fetch_raises_what_goes_wrong broken_stub (inr broken_feed)
           "DSA" "cs" "graph" Py.TypeError).
  - intros url params. reflexivity.
  - right. right.
    exists broken_feed, [two_pdfs], [two_pdfs_paper], nameless, [one_pdf].
    repeat split. repeat constructor.
Defined.

(* ================================================================== *)
(** * Numerals typed at the prompt *)
(* ================================================================== *)

(** X12. An integer typed at the top-K prompt.  For every integer k
    whose numeral has 4300 digits at most (|k| < 10^4300),
    [int(str(k))] is k and the line str(k), with or without the
    stripping [main] applies, gives top_k = k: the default 10 replaces
    no such integer, whatever its sign.  A longer numeral is refused by
    [int], and the bare [except] turns it into 10. *)
Theorem typed_integer_is_the_top_k (k : Z) :
  (- 10 ^ 4300 < k < 10 ^ 4300 ->
   Py.int (Py.str_of_Z k) = Some k /\
   Recommender.read_top_k (Py.str_of_Z k) = k /\
   Recommender.read_top_k (Py.strip (Py.str_of_Z k)) = k) /\
  (k <= - 10 ^ 4300 \/ 10 ^ 4300 <= k ->
   Py.int (Py.str_of_Z k) = None /\
   Recommender.read_top_k (Py.str_of_Z k) = 10 /\
   Recommender.read_top_k (Py.strip (Py.str_of_Z k)) = 10).
Proof.
  destruct (int_str_of_Z k) as (Hstrip & Hne & Hint).
  rewrite Hstrip. generalize dependent (10 ^ 4300). intros B Hint. split.
  - intros Hk. destruct (Z.ltb_spec (Z.abs k) B) as [_|]; [|lia].
    split; [exact Hint|]. split; now apply parsable_top_k_is_kept.
  - intros Hk. destruct (Z.ltb_spec (Z.abs k) B) as [|_]; [lia|].
    split; [exact Hint|].
    unfold Recommender.read_top_k. rewrite Hint, Hne. now split.
Qed.

(** -7 is read as -7; 10^4300, the first integer of 4301 digits, as
    10. *)
Lemma typed_integer_is_the_top_k_witness :
  (Py.int (Py.str_of_Z (-7)) = Some (-7) /\
   Recommender.read_top_k (Py.str_of_Z (-7)) = -7 /\
   Recommender.read_top_k (Py.strip (Py.str_of_Z (-7))) = -7) /\
  (Py.int (Py.str_of_Z (10 ^ 4300)) = None /\
   Recommender.read_top_k (Py.str_of_Z (10 ^ 4300)) = 10 /\
   Recommender.read_top_k (Py.strip (Py.str_of_Z (10 ^ 4300))) = 10).
Proof.
  split.
  - apply (proj1 (typed_integer_is_the_top_k (-7))).
    split; vm_compute; reflexivity.
  - apply (proj2 (typed_integer_is_the_top_k (10 ^ 4300))).
    right. apply Z.le_refl.
Defined.

(** A line of 4301 digits is read as 10, one of 4300 digits as its
    value. *)
Example top_k_of_4301_digits :
  Py.int (Py.str (repeat "1"%char 4301)) = None /\
  Recommender.read_top_k (Py.str (repeat "1"%char 4301)) = 10 /\
  Py.int (Py.str (repeat "1"%char 4300)) <> None.
Proof.
  split; [vm_compute; reflexivity|]. split; [vm_compute; reflexivity|].
  vm_compute. discriminate.
Qed.

(* ================================================================== *)
(** * The two scripts, from the request to the records shown *)
(* ================================================================== *)

Lemma known_subject (n : nat) :
  exists s, Recommender.subject_of
              (UI.selectbox (map fst UI.CS_SUBJECTS) n) UI.CS_SUBJECTS
            = Some s.
Proof.
  unfold UI.selectbox.
  do 14 (destruct n as [|n]; [eexists; vm_compute; reflexivity|]).
  destruct n; eexists; vm_compute; reflexivity.
Qed.

Lemma fetch_of_answer (http_get : Http.Get) (r : Http.Response)
      (es : list Http.Entry) (ps : list Pd.Paper) :
  (forall url params, http_get url params = inr r) ->
  Http.status_code r = 200 ->
  Http.entries r = inr es ->
  Forall2 (fun e p => Recommender.parse_entry e = inr p) es ps ->
  forall topic category keywords,
    Recommender.fetch_arxiv_papers http_get topic category keywords
    = inr (Pd.DataFrame_of ps) /\
    UI.fetch_arxiv_papers http_get topic category keywords
    = inr (Pd.DataFrame_of ps).
Proof.
  intros Hget Hs He Hall topic category keywords.
  assert (Hm : Py.mapM Recommender.parse_entry es = inr ps)
    by now apply mapM_inr.
  unfold Recommender.fetch_arxiv_papers, UI.fetch_arxiv_papers, UI.parse_entry.
  rewrite !Hget. simpl. rewrite Hs, He. simpl. rewrite Hm. simpl.
  split; reflexivity.
Qed.

Lemma fetch_of_nothing (http_get : Http.Get) (r : Http.Response) :
  (forall url params, http_get url params = inr r) ->
  Http.status_code r <> 200 \/ Http.entries r = inr [] ->
  forall topic category keywords,
    Recommender.fetch_arxiv_papers http_get topic category keywords
    = inr (Pd.DataFrame_of []) /\
    UI.fetch_arxiv_papers http_get topic category keywords
    = inr (Pd.DataFrame_of []).
Proof.
  intros Hget Hcase topic category keywords.
  unfold Recommender.fetch_arxiv_papers, UI.fetch_arxiv_papers, UI.parse_entry.
  rewrite !Hget. simpl.
  destruct (Z.eqb_spec (Http.status_code r) 200) as [E|E]; simpl.
  - destruct Hcase as [H|H]; [contradiction|]. rewrite H. split; reflexivity.
  - split; reflexivity.
Qed.

Section Scripts.
Context {F : Type} {FL : Float64 F} {A : ArgSort} {AS : ArgSortSpec A}.
Variable english : list string.
Implicit Types (df : Pd.DataFrame) (vect : Sk.TfidfVectorizer F)
         (X : Sk.csr (F := F)) (stdin : list string).

Lemma build_tfidf_returns (ps : list Pd.Paper) :
  Exists (fun p => Sk.analyze english (Pd.text p) <> []) ps ->
  exists vect X,
    Recommender.build_tfidf english (Pd.DataFrame_of ps) = inr (vect, X) /\
    UI.build_tfidf english (Pd.DataFrame_of ps) = inr (vect, X).
Proof.
  intros Hex.
  assert (Hne : List.concat (map (Sk.analyze english) (map Pd.text ps)) <> []).
  { induction Hex as [p ps Hp|p ps _ IH]; simpl; intros H;
      apply app_eq_nil in H; tauto. }
  destruct ps as [|p ps]; [inversion Hex|].
  unfold Recommender.build_tfidf, UI.build_tfidf, Pd.getitem_text.
  cbn [Pd.DataFrame_of Pd.columns Pd.rows Pd.paper_keys existsb String.eqb
       Ascii.eqb Bool.eqb orb Py.bind Py.ret].
  unfold Sk.fit_transform. simpl Sk.stop_words.
  destruct (Sk.sorted_terms _) as [|t vocab] eqn:Ev.
  - exfalso.
    pose proof (sorted_terms_perm
                  (Sk.distinct [] (List.concat
                     (map (Sk.analyze english) (map Pd.text (p :: ps)))))) as Hp.
    rewrite Ev in Hp. apply Permutation_nil in Hp.
    destruct (List.concat _) as [|t l]; [now apply Hne|].
    simpl in Hp. discriminate.
  - eexists. eexists. split; reflexivity.
Qed.

Lemma ui_rows_in_corpus query df vect X top_k recs :
  List.length X = Pd.len df ->
  UI.recommend_papers query df vect X top_k = inr recs ->
  Forall (fun p => In p (Pd.rows df)) (Pd.rows recs).
Proof.
  intros HX. unfold UI.recommend_papers.
  assert (Hrange : Forall (fun i => (i < Pd.len df)%nat)
                     (UI.top_indices (UI.similarities query vect X) top_k)).
  { rewrite Forall_forall. intros i Hi. apply ui_in_range in Hi.
    change (UI.similarities query vect X)
      with (Recommender.similarities query vect X) in Hi.
    now rewrite length_similarities, HX in Hi. }
  destruct (iloc_ok df Hrange) as (rs & Hrs & Hall).
  rewrite Hrs. intros [= <-]. simpl.
  eapply Forall2_nth_error_in_range. exact Hall.
Qed.

(** X13. How the loop ends.  Started on an index with one row per record,
    the loop of [main] ends by returning (on "exit" or "quit") or with
    [EOFError] at the end of the input, never with another exception;
    each round reads two lines; and when no line is "exit" or "quit" it
    runs one round for every two lines and ends with [EOFError]. *)
Theorem loop_ends_on_exit_or_end_of_input df vect X stdin :
  List.length X = Pd.len df ->
  (snd (Recommender.loop df vect X stdin) = Py.ret tt \/
   snd (Recommender.loop df vect X stdin) = Py.raise Py.EOFError) /\
  (2 * List.length (fst (Recommender.loop df vect X stdin))
   <= List.length stdin)%nat /\
  (Forall (fun l => Sk.mem (Py.lower (Py.strip l)) ["exit"; "quit"] = false)
          stdin ->
   snd (Recommender.loop df vect X stdin) = Py.raise Py.EOFError /\
   List.length (fst (Recommender.loop df vect X stdin))
   = Nat.div2 (List.length stdin)).
Proof.
  intros HX.
  pose (P := fun stdin =>
    let out := Recommender.loop df vect X stdin in
    (snd out = Py.ret tt \/ snd out = Py.raise Py.EOFError) /\
    (2 * List.length (fst out) <= List.length stdin)%nat /\
    (Forall (fun l => Sk.mem (Py.lower (Py.strip l)) ["exit"; "quit"] = false)
            stdin ->
     snd out = Py.raise Py.EOFError /\
     List.length (fst out) = Nat.div2 (List.length stdin))).
  enough (H : P stdin /\ forall line, P (line :: stdin)) by apply H.
  assert (Hexit : forall line rest,
             Sk.mem (Py.lower (Py.strip line)) ["exit"; "quit"] = true ->
             P (line :: rest)).
  { intros line rest Hq. unfold P. cbn [Recommender.loop]. rewrite Hq.
    simpl. split; [now left|]. split; [lia|].
    intros Hall. inversion Hall as [|? ? Hn _].
    pose proof (eq_trans (eq_sym Hq) Hn) as E. discriminate E. }
  induction stdin as [|line2 stdin [IH1 IH2]].
  - split; [unfold P; simpl; auto|].
    intros line.
    destruct (Sk.mem (Py.lower (Py.strip line)) ["exit"; "quit"]) eqn:Hq;
      [now apply Hexit|].
    unfold P. cbn [Recommender.loop]. rewrite Hq. simpl. auto.
  - split; [apply IH2|]. intros line.
    destruct (Sk.mem (Py.lower (Py.strip line)) ["exit"; "quit"]) eqn:Hq;
      [now apply Hexit|].
    unfold P. cbn [Recommender.loop]. rewrite Hq.
    destruct (line_returns (Py.strip line) df vect X
                (Recommender.read_top_k (Py.strip line2)) HX)
      as (res & Hres & _).
    rewrite Hres.
    unfold P in IH1.
    destruct (Recommender.loop df vect X stdin) as [rounds ending].
    simpl in *. destruct IH1 as (Hend & Hlen & Hall).
    split; [exact Hend|]. split; [lia|].
    intros Hl. inversion Hl as [|? ? _ Hl']. inversion Hl' as [|? ? _ Hl''].
    destruct (Hall Hl'') as [Hend' Hlen']. split; [exact Hend' | now rewrite Hlen'].
Qed.

(** X14. An empty corpus ends both scripts quietly.  When the endpoint
    answers with a status other than 200, or with a feed that has no
    entry, [main] returns after the subject line without reading a query
    or building an index, and the page stops without a result table;
    neither raises. *)
Theorem empty_corpus_ends_both_scripts
        (http_get : Http.Get) (r : Http.Response)
        (line : string) stdin (form : UI.Form) :
  (forall url params, http_get url params = inr r) ->
  Http.status_code r <> 200 \/ Http.entries r = inr [] ->
  Recommender.main english http_get (line :: stdin) = ([], Py.ret tt) /\
  UI.page english http_get form = inr None.
Proof.
  intros Hget Hcase. split.
  - unfold Recommender.main.
    rewrite (proj1 (@fetch_of_nothing http_get r Hget Hcase _ _ _)). reflexivity.
  - unfold UI.page. destruct (known_subject (UI.picked form)) as [s ->].
    rewrite (proj2 (@fetch_of_nothing http_get r Hget Hcase _ _ _)). reflexivity.
Qed.

(** X15. [main] from the request to the loop.  When the endpoint answers
    200 with a feed whose entries all parse, and the text of some record
    has a token that is not a stop word, [main] builds the index of
    exactly the parsed records (one matrix row per entry of the feed)
    and runs the loop on it with the lines that follow the subject
    line, whatever the subject line is. *)
Theorem main_runs_the_loop_on_the_fetched_records
        (http_get : Http.Get) (r : Http.Response)
        (es : list Http.Entry) (ps : list Pd.Paper)
        (line : string) stdin :
  (forall url params, http_get url params = inr r) ->
  Http.status_code r = 200 ->
  Http.entries r = inr es ->
  Forall2 (fun e p => Recommender.parse_entry e = inr p) es ps ->
  Exists (fun p => Sk.analyze english (Pd.text p) <> []) ps ->
  exists vect X,
    Recommender.build_tfidf english (Pd.DataFrame_of ps) = inr (vect, X) /\
    List.length X = List.length es /\
    Recommender.main english http_get (line :: stdin)
    = Recommender.loop (Pd.DataFrame_of ps) vect X stdin.
Proof.
  intros Hget Hs He Hall Hex.
  destruct (build_tfidf_returns Hex) as (vect & X & Hb & _).
  exists vect, X. split; [exact Hb|]. split.
  - rewrite (build_tfidf_rows _ _ Hb). unfold Pd.len. simpl.
    symmetry. eapply Forall2_length. exact Hall.
  - unfold Recommender.main.
    rewrite (proj1 (@fetch_of_answer http_get r es ps Hget Hs He Hall _ _ _)).
    destruct ps as [|p ps]; [inversion Hex|].
    change (Pd.empty (Pd.DataFrame_of (p :: ps))) with false.
    cbv iota. now rewrite Hb.
Qed.

(** X16. What the page shows.  When the endpoint answers 200 with a feed
    whose entries all parse and some record has a token that is not a
    stop word, the page shows a result table exactly when Search was
    clicked on a query that is not blank; the table then holds
    min(slider, n) records of the fetched corpus, so between 1 and 20
    of them; the page never raises. *)
Theorem page_shows_1_to_20_fetched_records
        (http_get : Http.Get) (r : Http.Response)
        (es : list Http.Entry) (ps : list Pd.Paper) (form : UI.Form) :
  (forall url params, http_get url params = inr r) ->
  Http.status_code r = 200 ->
  Http.entries r = inr es ->
  Forall2 (fun e p => Recommender.parse_entry e = inr p) es ps ->
  Exists (fun p => Sk.analyze english (Pd.text p) <> []) ps ->
  (UI.clicked form = true -> Py.strip (UI.typed form) <> "" ->
   exists recs,
     UI.page english http_get form = inr (Some recs) /\
     Pd.len recs
     = Nat.min (Z.to_nat (UI.slider 1 20 10 (UI.moved_to form)))
               (List.length es) /\
     (1 <= Pd.len recs <= 20)%nat /\
     Forall (fun p => In p ps) (Pd.rows recs)) /\
  (UI.clicked form = false \/ Py.strip (UI.typed form) = "" ->
   UI.page english http_get form = inr None).
Proof.
  intros Hget Hs He Hall Hex.
  destruct (build_tfidf_returns Hex) as (vect & X & Hb & Hb').
  assert (HX : List.length X = Pd.len (Pd.DataFrame_of ps))
    by exact (build_tfidf_rows _ _ Hb).
  assert (Hn : Pd.len (Pd.DataFrame_of ps) = List.length es).
  { unfold Pd.len. simpl. symmetry. eapply Forall2_length. exact Hall. }
  assert (Hpos : (0 < List.length es)%nat).
  { rewrite <- Hn. unfold Pd.len. simpl.
    destruct ps; [inversion Hex | simpl; lia]. }
  assert (Hpage : UI.page english http_get form
                  = if UI.clicked form
                       && negb (String.eqb (Py.strip (UI.typed form)) "")
                    then Py.bind (UI.recommend_papers (UI.typed form)
                                    (Pd.DataFrame_of ps) vect X
                                    (UI.slider 1 20 10 (UI.moved_to form)))
                                 (fun recs => Py.ret (Some recs))
                    else Py.ret None).
  { unfold UI.page. destruct (known_subject (UI.picked form)) as [s ->].
    rewrite (proj2 (@fetch_of_answer http_get r es ps Hget Hs He Hall _ _ _)).
    destruct ps as [|p ps]; [inversion Hex|].
    change (Pd.empty (Pd.DataFrame_of (p :: ps))) with false.
    cbv iota. unfold Py.bind at 1. cbv iota beta.
    rewrite Hb'. reflexivity. }
  rewrite Hpage. split.
  - intros Hc Hq. rewrite Hc.
    destruct (String.eqb_spec (Py.strip (UI.typed form)) "") as [E|_];
      [contradiction|]. simpl.
    pose proof (slider_in_range (UI.moved_to form)) as Hsl.
    destruct (ui_returns (UI.typed form) (Pd.DataFrame_of ps) vect X
                (UI.slider 1 20 10 (UI.moved_to form)) HX)
      as (recs & Hrecs & Hlen).
    exists recs. rewrite Hrecs. split; [reflexivity|].
    change (UI.similarities (UI.typed form) vect X)
      with (Recommender.similarities (UI.typed form) vect X) in Hlen.
    rewrite length_ui, length_similarities, HX, Hn in Hlen by lia.
    split; [exact Hlen|]. split; [lia|].
    exact (ui_rows_in_corpus _ _ _ _ _ HX Hrecs).
  - intros [Hc|Hq].
    + now rewrite Hc.
    + rewrite Hq. simpl. now rewrite andb_false_r.
Qed.

(** X17. One request per run.  What [main] and the page do depends on
    the endpoint only through its answer to one request, at ARXIV_URL:
    the query cat:<category>+AND+all:(<keywords>) of the subject, from
    position 0, with max_results 100 in line mode and 50 on the page; a
    subject line that is not in the table is searched in category cs
    with the keywords "computer science". *)
Theorem scripts_send_one_request
        (get1 get2 : Http.Get) (line : string) stdin (form : UI.Form)
        (s u : Recommender.Subject) :
  s = match Recommender.subject_of (Py.strip line) Recommender.CS_SUBJECTS with
      | Some s => s
      | None => {| Recommender.category := "cs";
                   Recommender.keywords := "computer science" |}
      end ->
  Recommender.subject_of (UI.selectbox (map fst UI.CS_SUBJECTS) (UI.picked form))
                         UI.CS_SUBJECTS = Some u ->
  (get1 "http://export.arxiv.org/api/query"
        [("search_query",
          "cat:" ++ Recommender.category s ++ "+AND+all:("
                 ++ Recommender.keywords s ++ ")");
         ("start", "0"); ("max_results", "100")]
   = get2 "http://export.arxiv.org/api/query"
        [("search_query",
          "cat:" ++ Recommender.category s ++ "+AND+all:("
                 ++ Recommender.keywords s ++ ")");
         ("start", "0"); ("max_results", "100")] ->
   Recommender.main english get1 (line :: stdin)
   = Recommender.main english get2 (line :: stdin)) /\
  (get1 "http://export.arxiv.org/api/query"
        [("search_query",
          "cat:" ++ Recommender.category u ++ "+AND+all:("
                 ++ Recommender.keywords u ++ ")");
         ("start", "0"); ("max_results", "50")]
   = get2 "http://export.arxiv.org/api/query"
        [("search_query",
          "cat:" ++ Recommender.category u ++ "+AND+all:("
                 ++ Recommender.keywords u ++ ")");
         ("start", "0"); ("max_results", "50")] ->
   UI.page english get1 form = UI.page english get2 form).
Proof.
  intros Hs Hu. split; intros Hsame.
  - unfold Recommender.main. rewrite <- Hs.
    unfold Recommender.fetch_arxiv_papers.
    change (Recommender.search_params Recommender.MAX_RESULTS
              (Recommender.category s) (Recommender.keywords s))
      with [("search_query",
             "cat:" ++ Recommender.category s ++ "+AND+all:("
                    ++ Recommender.keywords s ++ ")");
            ("start", "0"); ("max_results", "100")].
    change Recommender.ARXIV_URL with "http://export.arxiv.org/api/query".
    now rewrite Hsame.
  - unfold UI.page. rewrite Hu.
    unfold UI.fetch_arxiv_papers.
    change (Recommender.search_params UI.MAX_RESULTS
              (Recommender.category u) (Recommender.keywords u))
      with [("search_query",
             "cat:" ++ Recommender.category u ++ "+AND+all:("
                    ++ Recommender.keywords u ++ ")");
            ("start", "0"); ("max_results", "50")].
    change UI.ARXIV_URL with "http://export.arxiv.org/api/query".
    now rewrite Hsame.
Qed.

End Scripts.

Lemma loop_ends_on_exit_or_end_of_input_witness :
  (snd (@Recommender.loop Q Qscore insertion_argsort
          Demo.corpus Demo.vect Demo.X ["graph"; "2"; "neural"]) = Py.ret tt \/
   snd (@Recommender.loop Q Qscore insertion_argsort
          Demo.corpus Demo.vect Demo.X ["graph"; "2"; "neural"])
   = Py.raise Py.EOFError) /\
  (2 * List.length (fst (@Recommender.loop Q Qscore insertion_argsort
                           Demo.corpus Demo.vect Demo.X ["graph"; "2"; "neural"]))
   <= List.length ["graph"; "2"; "neural"])%nat /\
  (Forall (fun l => Sk.mem (Py.lower (Py.strip l)) ["exit"; "quit"] = false)
          ["graph"; "2"; "neural"] ->
   snd (@Recommender.loop Q Qscore insertion_argsort
          Demo.corpus Demo.vect Demo.X ["graph"; "2"; "neural"])
   = Py.raise Py.EOFError /\
   List.length (fst (@Recommender.loop Q Qscore insertion_argsort
                       Demo.corpus Demo.vect Demo.X ["graph"; "2"; "neural"]))
   = Nat.div2 (List.length ["graph"; "2"; "neural"])).
Proof.
  exact (@loop_ends_on_exit_or_end_of_input Q Qscore insertion_argsort
           insertion_argsort_spec Demo.corpus Demo.vect Demo.X
           ["graph"; "2"; "neural"] eq_refl).
Defined.

Lemma empty_corpus_ends_both_scripts_witness :
  @Recommender.main Q Qscore insertion_argsort Demo.stop unavailable
    ["DSA"; "graph"; "2"] = ([], Py.ret tt) /\
  @UI.page Q Qscore insertion_argsort Demo.stop unavailable
    {| UI.picked := 2; UI.typed := "deadlock";
       UI.moved_to := None; UI.clicked := true |} = inr None.
Proof.
  apply (@empty_corpus_ends_both_scripts Q Qscore insertion_argsort Demo.stop
           unavailable
           {| Http.status_code := 503; Http.entries := inl Py.ParseError |}).
  - intros url params. reflexivity.
  - left. discriminate.
Defined.

Lemma main_runs_the_loop_on_the_fetched_records_witness :
  exists vect X,
    @Recommender.build_tfidf Q Qscore insertion_argsort Demo.stop
      (Pd.DataFrame_of [two_pdfs_paper; one_pdf_paper]) = inr (vect, X) /\
    List.length X = List.length [two_pdfs; one_pdf] /\
    @Recommender.main Q Qscore insertion_argsort Demo.stop arxiv_stub
      ("DSA" :: ["graph"; "2"; "exit"])
    = @Recommender.loop Q Qscore insertion_argsort
        (Pd.DataFrame_of [two_pdfs_paper; one_pdf_paper]) vect X
        ["graph"; "2"; "exit"].
Proof.
  apply (@main_runs_the_loop_on_the_fetched_records Q Qscore insertion_argsort
           Demo.stop arxiv_stub
           {| Http.status_code := 200;
              Http.entries := inr [two_pdfs; one_pdf] |}
           [two_pdfs; one_pdf] [two_pdfs_paper; one_pdf_paper]).
  - intros url params. reflexivity.
  - reflexivity.
  - reflexivity.
  - repeat constructor.
  - left. vm_compute. discriminate.
Defined.

Lemma page_shows_1_to_20_fetched_records_witness :
  exists recs,
    @UI.page Q Qscore insertion_argsort Demo.stop arxiv_stub
      {| UI.picked := 0; UI.typed := "deadlock";
         UI.moved_to := Some 50; UI.clicked := true |} = inr (Some recs) /\
    Pd.len recs
    = Nat.min (Z.to_nat (UI.slider 1 20 10 (Some 50)))
              (List.length [two_pdfs; one_pdf]) /\
    (1 <= Pd.len recs <= 20)%nat /\
    Forall (fun p => In p [two_pdfs_paper; one_pdf_paper]) (Pd.rows recs).
Proof.
  apply (@page_shows_1_to_20_fetched_records Q Qscore insertion_argsort
           insertion_argsort_spec Demo.stop arxiv_stub
           {| Http.status_code := 200;
              Http.entries := inr [two_pdfs; one_pdf] |}
           [two_pdfs; one_pdf] [two_pdfs_paper; one_pdf_paper]
           {| UI.picked := 0; UI.typed := "deadlock";
              UI.moved_to := Some 50; UI.clicked := true |}).
  - intros url params. reflexivity.
  - reflexivity.
  - reflexivity.
  - repeat constructor.
  - left. vm_compute. discriminate.
  - reflexivity.
  - vm_compute. discriminate.
Defined.

Lemma scripts_send_one_request_witness :
  @Recommender.main Q Qscore insertion_argsort Demo.stop arxiv_stub
    (" DSA " :: ["graph"; "2"; "exit"])
  = @Recommender.main Q Qscore insertion_argsort Demo.stop dsa_only
      (" DSA " :: ["graph"; "2"; "exit"]) /\
  @UI.page Q Qscore insertion_argsort Demo.stop arxiv_stub
    {| UI.picked := 0; UI.typed := "graph";
       UI.moved_to := None; UI.clicked := true |}
  = @UI.page Q Qscore insertion_argsort Demo.stop dsa_only
      {| UI.picked := 0; UI.typed := "graph";
         UI.moved_to := None; UI.clicked := true |}.
Proof.
  destruct (@scripts_send_one_request Q Qscore insertion_argsort Demo.stop
              arxiv_stub dsa_only " DSA " ["graph"; "2"; "exit"]
              {| UI.picked := 0; UI.typed := "graph";
                 UI.moved_to := None; UI.clicked := true |}
              {| Recommender.category := "cs";
                 Recommender.keywords :=
                   "NP-complete OR graph algorithms OR dynamic programming" |}
              {| Recommender.category := "cs";
                 Recommender.keywords :=
                   "NP-complete OR graph algorithms OR dynamic programming" |}
              eq_refl eq_refl) as [Hmain Hpage].
  split; [apply Hmain | apply Hpage]; reflexivity.
Defined.

(** The text of the second record of [Demo.corpus] as the query, in
    exact arithmetic: an index exists, and on it no record scores more
    than the second. *)
Lemma own_text_ranks_first_in_exact_arithmetic_witness :
  exists (vect : Sk.TfidfVectorizer Rdefinitions.R)
         (X : Sk.csr (F := Rdefinitions.R)),
    @Recommender.build_tfidf _ Exact.reals insertion_argsort
      Demo.stop Demo.corpus = inr (vect, X) /\
    let sims := @Recommender.similarities _ Exact.reals
                  (Pd.text Demo.deadlocks) vect X in
    @UI.similarities _ Exact.reals (Pd.text Demo.deadlocks) vect X = sims /\
    exists s_d,
      nth_error sims 1 = Some s_d /\
      forall j s_j, nth_error sims j = Some s_j -> Rdefinitions.Rle s_j s_d.
Proof.
  assert (Hterm : Exists (fun p => Sk.analyze Demo.stop (Pd.text p) <> [])
                         [Demo.graphs; Demo.deadlocks; Demo.nets])
    by (left; vm_compute; discriminate).
  destruct (@build_tfidf_returns _ Exact.reals insertion_argsort Demo.stop
              [Demo.graphs; Demo.deadlocks; Demo.nets] Hterm)
    as (vect & X & Hb & _).
  exists vect, X. split; [exact Hb|].
  exact (@own_text_ranks_first_in_exact_arithmetic
           Demo.stop Demo.corpus 1 Demo.deadlocks eq_refl
           insertion_argsort vect X Hb).
Defined.
